(** * clawtop: status aggregation and derivation pipeline

    A shallow embedding of the pure core of the clawtop health board
    (types.ts, status.ts, collectors/repoDrift.ts, collectors/openclaw.ts,
    collectors/versionDrift.ts, collectors/security.ts) together with the
    properties its specification states about it.

    Modelling conventions.
    - A TypeScript [Metric<T>] is an object with three independent fields
      ([known], optional [reason], nullable [value]); it is embedded as a
      record with exactly these fields, so that the defensive tests of the
      source ([metric.known && metric.value !== null]) keep their meaning.
    - JavaScript numbers that carry counts are embedded as [Z]; the numbers
      that [compareDotVersions] coerces from text are exact rationals next
      to NaN and the two infinities.
    - JavaScript strings are embedded as [string].
    - What the world answers (the result of a spawned command, the
      engine's [JSON.parse], a zod schema) is an argument of the function
      that consumes it.
    - An optional property ([context?: string]) is an [option]. *)

From Stdlib Require Import List String Ascii ZArith QArith Bool Lia.
From Stdlib Require Import Numbers.DecimalString.
From Stdlib Require Import Permutation Lqa.
Import ListNotations.

Local Open Scope string_scope.
Local Open Scope list_scope.
Local Open Scope Z_scope.

(* ================================================================== *)
(** * types.ts *)
(* ================================================================== *)

Inductive StatusLevel : Type := GREEN | AMBER | RED.

Record Metric (T : Type) : Type := mkMetric {
  known : bool;
  reason : option string;
  value : option T
}.

Arguments mkMetric {T} _ _ _.
Arguments known {T} _.
Arguments reason {T} _.
Arguments value {T} _.

Inductive WarningSeverity : Type := sev_info | sev_warn | sev_error.

Module BoardWarning.
Record t : Type := mk {
  code : string;
  context : option string;
  reason : string;
  severity : WarningSeverity;
  source : string
}.
End BoardWarning.

Module CollectorOutput.
Record t (T : Type) : Type := mk {
  card : T;
  warnings : list BoardWarning.t
}.
Arguments mk {T} _ _.
Arguments card {T} _.
Arguments warnings {T} _.
End CollectorOutput.

Module OverallCard.
Record t : Type := mk {
  level : StatusLevel;
  reasons : list string
}.
End OverallCard.

Module SecurityCard.
Record t : Type := mk {
  critical : Metric Z;
  info : Metric Z;
  warning : Metric Z
}.
End SecurityCard.

Module CronCard.
Record t : Type := mk {
  enabledCount : Metric Z;
  failingOrRecentErrorCount : Metric Z
}.
End CronCard.

Module ChannelsCard.
Record t : Type := mk {
  configuredCount : Metric Z;
  connectedCount : Metric Z
}.
End ChannelsCard.

Module AgentsCard.
Record t : Type := mk {
  configuredCount : Metric Z
}.
End AgentsCard.

Module SessionsCard.
Record t : Type := mk {
  activeCount : Metric Z;
  activeWindowMinutes : Z
}.
End SessionsCard.

Module RepoWorkspaceDrift.
Record t : Type := mk {
  aheadCount : Metric Z;
  behindCount : Metric Z;
  clean : Metric bool;
  diagnostics : option (list BoardWarning.t);
  repositoryRoot : Metric string;
  workspacePath : string
}.
End RepoWorkspaceDrift.

Module RepoDriftCard.
Record t : Type := mk {
  aheadCount : Metric Z;
  behindCount : Metric Z;
  clean : Metric bool;
  dirtyCount : Metric Z;
  repositoryCount : Metric Z;
  workspaces : list RepoWorkspaceDrift.t
}.
End RepoDriftCard.

Module VersionDriftCard.
Record t : Type := mk {
  installedVersion : Metric string;
  latestVersion : Metric string;
  updateAvailable : Metric bool
}.
End VersionDriftCard.

Module GatewayCard.
Record t : Type := mk {
  error : Metric string;
  reachable : Metric bool
}.
End GatewayCard.

(** [Omit<BoardSnapshot, "overall">], the argument of [deriveOverallCard]. *)
Module BoardSnapshot.
Record withoutOverall : Type := mk {
  agents : AgentsCard.t;
  channels : ChannelsCard.t;
  cron : CronCard.t;
  gateway : GatewayCard.t;
  generatedAt : string;
  repoDrift : RepoDriftCard.t;
  security : SecurityCard.t;
  sessions : SessionsCard.t;
  versionDrift : VersionDriftCard.t;
  warnings : list BoardWarning.t
}.
End BoardSnapshot.

Definition knownMetric {T : Type} (v : T) : Metric T :=
  {| known := true; reason := None; value := Some v |}.

Definition unknownMetric {T : Type} (r : string) : Metric T :=
  {| known := false; reason := Some r; value := None |}.

(** [severity] defaults to ["warn"] at the call sites that omit it; the
    callers embedded here always pass it. *)
Definition buildWarning (source code reason : string)
    (severity : WarningSeverity) (context : option string) : BoardWarning.t :=
  match context with
  | None =>
      {| BoardWarning.code := code; BoardWarning.context := None;
         BoardWarning.reason := reason; BoardWarning.severity := severity;
         BoardWarning.source := source |}
  | Some c =>
      {| BoardWarning.code := code; BoardWarning.context := Some c;
         BoardWarning.reason := reason; BoardWarning.severity := severity;
         BoardWarning.source := source |}
  end.

(** JavaScript's [a ?? b] on an optional value. *)
Definition nullish {A : Type} (a : option A) (b : A) : A :=
  match a with
  | Some x => x
  | None => b
  end.

(** The upcast of a [Metric<T>] to [Metric<unknown>]. *)
Definition asUnknown {T : Type} (m : Metric T) : Metric unit :=
  {| known := known m; reason := reason m;
     value := option_map (fun _ => tt) (value m) |}.

(** [reason.length > 0] *)
Definition nonEmpty (s : string) : bool := (0 <? String.length s)%nat.

(* ================================================================== *)
(** * status.ts *)
(* ================================================================== *)

Module Status.

Import BoardSnapshot.

Definition metricGreaterThan (metric : Metric Z) (threshold : Z) : bool :=
  known metric &&
  match value metric with
  | Some v => v >? threshold
  | None => false
  end.

Definition metricEqualsBoolean (metric : Metric bool) (expected : bool) : bool :=
  known metric &&
  match value metric with
  | Some v => Bool.eqb v expected
  | None => false
  end.

Definition metricUnknown (metric : Metric unit) : bool := negb (known metric).

Definition redReasons (s : withoutOverall) : list string :=
  filter nonEmpty
    [ if metricGreaterThan (SecurityCard.critical (security s)) 0
      then "critical security findings > 0" else "";
      if metricGreaterThan (CronCard.failingOrRecentErrorCount (cron s)) 0
      then "failing cron jobs > 0" else "";
      if metricEqualsBoolean (GatewayCard.reachable (gateway s)) false
      then "gateway unreachable" else "" ].

Definition criticalUnknown (s : withoutOverall) : bool :=
  existsb metricUnknown
    [ asUnknown (SecurityCard.critical (security s));
      asUnknown (SecurityCard.warning (security s));
      asUnknown (CronCard.failingOrRecentErrorCount (cron s));
      asUnknown (ChannelsCard.configuredCount (channels s));
      asUnknown (GatewayCard.reachable (gateway s));
      asUnknown (RepoDriftCard.clean (repoDrift s));
      asUnknown (RepoDriftCard.behindCount (repoDrift s));
      asUnknown (VersionDriftCard.installedVersion (versionDrift s));
      asUnknown (VersionDriftCard.latestVersion (versionDrift s)) ].

Definition amberReasons (s : withoutOverall) : list string :=
  filter nonEmpty
    [ if metricGreaterThan (SecurityCard.warning (security s)) 0
      then "warning findings > 0" else "";
      if criticalUnknown s
      then "unknown state in critical cards" else "";
      if metricEqualsBoolean (RepoDriftCard.clean (repoDrift s)) false
      then "repo drift: dirty repository" else "";
      if metricGreaterThan (RepoDriftCard.behindCount (repoDrift s)) 0
      then "repo drift: behind upstream" else "" ].

Definition deriveOverallCard (snapshotWithoutOverall : withoutOverall)
  : OverallCard.t :=
  let red := redReasons snapshotWithoutOverall in
  if (0 <? List.length red)%nat then
    {| OverallCard.level := RED; OverallCard.reasons := red |}
  else
    let amber := amberReasons snapshotWithoutOverall in
    if (0 <? List.length amber)%nat then
      {| OverallCard.level := AMBER; OverallCard.reasons := amber |}
    else
      {| OverallCard.level := GREEN;
         OverallCard.reasons := ["all health checks passed"] |}.

(** ** Vocabulary of the specification *)

(** "known and > 0" *)
Definition knownPositive (m : Metric Z) : Prop :=
  known m = true /\ exists v, value m = Some v /\ 0 < v.

(** "known and equal to false" *)
Definition knownFalse (m : Metric bool) : Prop :=
  known m = true /\ value m = Some false.

(** "unknown" *)
Definition isUnknown {T : Type} (m : Metric T) : Prop := known m = false.

Definition amberClass : list string :=
  [ "warning findings > 0"; "unknown state in critical cards";
    "repo drift: dirty repository"; "repo drift: behind upstream" ].

Definition redCondition (s : withoutOverall) : Prop :=
  knownPositive (SecurityCard.critical (security s)) \/
  knownPositive (CronCard.failingOrRecentErrorCount (cron s)) \/
  knownFalse (GatewayCard.reachable (gateway s)).

(** At least one of the nine watch-list metrics is unknown. *)
Definition watchListUnknown (s : withoutOverall) : Prop :=
  isUnknown (SecurityCard.critical (security s)) \/
  isUnknown (SecurityCard.warning (security s)) \/
  isUnknown (CronCard.failingOrRecentErrorCount (cron s)) \/
  isUnknown (ChannelsCard.configuredCount (channels s)) \/
  isUnknown (GatewayCard.reachable (gateway s)) \/
  isUnknown (RepoDriftCard.clean (repoDrift s)) \/
  isUnknown (RepoDriftCard.behindCount (repoDrift s)) \/
  isUnknown (VersionDriftCard.installedVersion (versionDrift s)) \/
  isUnknown (VersionDriftCard.latestVersion (versionDrift s)).

(** The AMBER triggers that come from known values. *)
Definition amberValueCondition (s : withoutOverall) : Prop :=
  knownPositive (SecurityCard.warning (security s)) \/
  knownFalse (RepoDriftCard.clean (repoDrift s)) \/
  knownPositive (RepoDriftCard.behindCount (repoDrift s)).

(** The healthy baseline of the test-suite (status.test.ts). *)
Definition healthySnapshot : withoutOverall :=
  {| agents := {| AgentsCard.configuredCount := knownMetric 2 |};
     channels := {| ChannelsCard.configuredCount := knownMetric 2;
                    ChannelsCard.connectedCount := knownMetric 2 |};
     cron := {| CronCard.enabledCount := knownMetric 5;
                CronCard.failingOrRecentErrorCount := knownMetric 0 |};
     gateway := {| GatewayCard.error := unknownMetric "no error";
                   GatewayCard.reachable := knownMetric true |};
     generatedAt := "2026-02-14T12:00:00.000Z";
     repoDrift := {| RepoDriftCard.aheadCount := knownMetric 0;
                     RepoDriftCard.behindCount := knownMetric 0;
                     RepoDriftCard.clean := knownMetric true;
                     RepoDriftCard.dirtyCount := knownMetric 0;
                     RepoDriftCard.repositoryCount := knownMetric 1;
                     RepoDriftCard.workspaces := [] |};
     security := {| SecurityCard.critical := knownMetric 0;
                    SecurityCard.info := knownMetric 1;
                    SecurityCard.warning := knownMetric 0 |};
     sessions := {| SessionsCard.activeCount := knownMetric 1;
                    SessionsCard.activeWindowMinutes := 60 |};
     versionDrift := {| VersionDriftCard.installedVersion := knownMetric "2026.2.9";
                        VersionDriftCard.latestVersion := knownMetric "2026.2.9";
                        VersionDriftCard.updateAvailable := knownMetric false |};
     warnings := [] |}.

(** [{ ...snapshot, security }] and [{ ...snapshot, versionDrift }] *)
Definition withSecurity (s : withoutOverall) (c : SecurityCard.t)
  : withoutOverall :=
  {| agents := agents s; channels := channels s; cron := cron s;
     gateway := gateway s; generatedAt := generatedAt s;
     repoDrift := repoDrift s; security := c; sessions := sessions s;
     versionDrift := versionDrift s; warnings := warnings s |}.

Definition withVersionDrift (s : withoutOverall) (c : VersionDriftCard.t)
  : withoutOverall :=
  {| agents := agents s; channels := channels s; cron := cron s;
     gateway := gateway s; generatedAt := generatedAt s;
     repoDrift := repoDrift s; security := security s; sessions := sessions s;
     versionDrift := c; warnings := warnings s |}.

(** The baseline with one critical finding and two warning findings. *)
Definition criticalSnapshot : withoutOverall :=
  withSecurity healthySnapshot
    {| SecurityCard.critical := knownMetric 1;
       SecurityCard.info := knownMetric 1;
       SecurityCard.warning := knownMetric 2 |}.

(** The baseline with both version metrics unknown. *)
Definition versionsUnknownSnapshot : withoutOverall :=
  withVersionDrift healthySnapshot
    {| VersionDriftCard.installedVersion := unknownMetric "installed unavailable";
       VersionDriftCard.latestVersion := unknownMetric "latest unavailable";
       VersionDriftCard.updateAvailable := unknownMetric "installed unavailable" |}.

End Status.

(** ** Warning deduplication (status.ts) *)

(** A JavaScript [Map<string, V>]: keys in insertion order, each key once. *)
Module JsMap.

Definition t (V : Type) : Type := list (string * V).

Definition empty {V : Type} : t V := [].

Definition has {V : Type} (m : t V) (key : string) : bool :=
  existsb (fun kv => String.eqb (fst kv) key) m.

(** [set] keeps the position of a key that is already present and appends
    a new key at the end. *)
Fixpoint set {V : Type} (m : t V) (key : string) (v : V) : t V :=
  match m with
  | [] => [(key, v)]
  | (k, v0) :: rest =>
      if String.eqb k key then (k, v) :: rest
      else (k, v0) :: set rest key v
  end.

Definition values {V : Type} (m : t V) : list V := map snd m.

End JsMap.

Module Dedup.

Definition warningKey (warning : BoardWarning.t) : string :=
  String.concat "|"
    [ BoardWarning.source warning;
      BoardWarning.code warning;
      BoardWarning.reason warning;
      nullish (BoardWarning.context warning) "" ].

Definition uniqueWarnings (warnings : list BoardWarning.t)
  : list BoardWarning.t :=
  let warningsByKey :=
    fold_left
      (fun accumulator warning =>
         let key := warningKey warning in
         if negb (JsMap.has accumulator key)
         then JsMap.set accumulator key warning
         else accumulator)
      warnings JsMap.empty in
  JsMap.values warningsByKey.

(** The fields that are joined with ["|"] before the context. *)
Definition pipeFree (s : string) : Prop :=
  forall n : nat, String.get n s <> Some "|"%char.

Definition headFieldsPipeFree (w : BoardWarning.t) : Prop :=
  pipeFree (BoardWarning.source w) /\
  pipeFree (BoardWarning.code w) /\
  pipeFree (BoardWarning.reason w).

(** The identity the deduplication goes by: source, code, reason, and the
    context with an absent context read as the empty string. *)
Definition sameIdentity (a b : BoardWarning.t) : Prop :=
  BoardWarning.source a = BoardWarning.source b /\
  BoardWarning.code a = BoardWarning.code b /\
  BoardWarning.reason a = BoardWarning.reason b /\
  nullish (BoardWarning.context a) "" = nullish (BoardWarning.context b) "".

(** The first warning of every key, in order of appearance; [seen] holds
    the keys met so far. *)
Fixpoint keptFrom (seen : list string) (ws : list BoardWarning.t)
  : list BoardWarning.t :=
  match ws with
  | [] => []
  | w :: rest =>
      if existsb (fun k => String.eqb k (warningKey w)) seen
      then keptFrom seen rest
      else w :: keptFrom (seen ++ [warningKey w]) rest
  end.

(** The advisory [collectRepoDriftCard] emits without a context, and the
    same advisory carrying the empty string as its context. *)
Definition advisoryWithoutContext : BoardWarning.t :=
  buildWarning "repoDrift" "repo_workspaces_missing"
    "no OpenClaw workspaces discovered" sev_warn None.

Definition advisoryWithEmptyContext : BoardWarning.t :=
  buildWarning "repoDrift" "repo_workspaces_missing"
    "no OpenClaw workspaces discovered" sev_warn (Some "").

(** Two advisories of [describeGitFailure] that differ in their context. *)
Definition advisoryFor (path : string) : BoardWarning.t :=
  buildWarning "repoDrift" "git_not_found"
    "git binary not found" sev_error (Some path).

End Dedup.

(* ================================================================== *)
(** * collectors/repoDrift.ts: the aggregator *)
(* ================================================================== *)

Module RepoDrift.

Import RepoWorkspaceDrift.

(** [metric.value === b] on a nullable boolean. *)
Definition valueIs (m : Metric bool) (b : bool) : bool :=
  match value m with
  | Some v => Bool.eqb v b
  | None => false
  end.

(** [metric.value !== null] *)
Definition hasValue {T : Type} (m : Metric T) : bool :=
  match value m with
  | Some _ => true
  | None => false
  end.

(** [metrics[0]?.reason ?? fallback] *)
Definition firstReason {T : Type} (metrics : list (Metric T))
    (fallback : string) : string :=
  match metrics with
  | [] => fallback
  | m :: _ => nullish (reason m) fallback
  end.

Definition aggregateBooleanMetric (metrics : list (Metric bool))
    (unknownReason : string) : Metric bool :=
  let knownValues :=
    map (fun metric => valueIs metric true)
        (filter (fun metric => known metric && hasValue metric) metrics) in
  let unknownMetrics := filter (fun metric => negb (known metric)) metrics in
  if existsb (fun v => Bool.eqb v false) knownValues then knownMetric false
  else if (0 <? List.length unknownMetrics)%nat then
    unknownMetric (firstReason unknownMetrics unknownReason)
  else knownMetric true.

Definition aggregateCountMetric (metrics : list (Metric Z))
    (unknownReason : string) : Metric Z :=
  let unknownMetrics :=
    filter (fun metric => negb (known metric) || negb (hasValue metric))
           metrics in
  if (0 <? List.length unknownMetrics)%nat then
    unknownMetric (firstReason unknownMetrics unknownReason)
  else
    let total :=
      fold_left (fun sum v => sum + v)
                (map (fun metric => nullish (value metric) 0) metrics) 0 in
    knownMetric total.

Definition aggregateRepoDrift (workspaceDrifts : list RepoWorkspaceDrift.t)
    (missingWorkspaceReason : string) : RepoDriftCard.t :=
  if (List.length workspaceDrifts =? 0)%nat then
    {| RepoDriftCard.aheadCount := unknownMetric missingWorkspaceReason;
       RepoDriftCard.behindCount := unknownMetric missingWorkspaceReason;
       RepoDriftCard.clean := unknownMetric missingWorkspaceReason;
       RepoDriftCard.dirtyCount := unknownMetric missingWorkspaceReason;
       RepoDriftCard.repositoryCount := unknownMetric missingWorkspaceReason;
       RepoDriftCard.workspaces := [] |}
  else
    let cleanMetric :=
      aggregateBooleanMetric
        (map (fun workspace => clean workspace) workspaceDrifts)
        "repo cleanliness unknown" in
    let dirtyCountMetric :=
      if forallb (fun workspace => known (clean workspace)) workspaceDrifts
      then knownMetric
             (Z.of_nat (List.length
                (filter (fun workspace => valueIs (clean workspace) false)
                        workspaceDrifts)))
      else unknownMetric
             "dirty count unavailable from one or more repositories" in
    let repositoryCount :=
      Z.of_nat (List.length
        (filter (fun workspace => known (repositoryRoot workspace))
                workspaceDrifts)) in
    {| RepoDriftCard.aheadCount :=
         aggregateCountMetric
           (map (fun workspace => aheadCount workspace) workspaceDrifts)
           "ahead count unknown";
       RepoDriftCard.behindCount :=
         aggregateCountMetric
           (map (fun workspace => behindCount workspace) workspaceDrifts)
           "behind count unknown";
       RepoDriftCard.clean := cleanMetric;
       RepoDriftCard.dirtyCount := dirtyCountMetric;
       RepoDriftCard.repositoryCount := knownMetric repositoryCount;
       RepoDriftCard.workspaces := workspaceDrifts |}.

(** ** Vocabulary of the specification *)

(** A workspace whose cleanliness is known and false. *)
Definition knownDirty (w : RepoWorkspaceDrift.t) : Prop :=
  known (clean w) = true /\ value (clean w) = Some false.

Definition knownDirtyb (w : RepoWorkspaceDrift.t) : bool :=
  known (clean w) && valueIs (clean w) false.

Definition cleanUnknown (w : RepoWorkspaceDrift.t) : Prop :=
  known (clean w) = false.

(** A count the aggregator treats as missing: [!known || value === null]. *)
Definition countMissing (m : Metric Z) : Prop :=
  known m = false \/ value m = None.

(** The workspaces whose repository root resolved, counted one by one. *)
Fixpoint resolvedRoots (ws : list RepoWorkspaceDrift.t) : Z :=
  match ws with
  | [] => 0
  | w :: rest =>
      (if known (repositoryRoot w) then 1 else 0) + resolvedRoots rest
  end.

(** The workspaces that are known to be dirty, counted one by one. *)
Fixpoint dirtyWorkspaces (ws : list RepoWorkspaceDrift.t) : Z :=
  match ws with
  | [] => 0
  | w :: rest => (if knownDirtyb w then 1 else 0) + dirtyWorkspaces rest
  end.

(** The part of a metric an observer of the board reads: is it known, and
    which value does it carry. *)
Definition sameReading {T : Type} (a b : Metric T) : Prop :=
  known a = known b /\ value a = value b.

(** The metrics of a workspace record as [inspectWorkspace] builds them
    when the first git step fails. The diagnostics, which the aggregator
    does not read, are left empty here. *)
Definition unresolvedWorkspace (path why : string) : RepoWorkspaceDrift.t :=
  {| aheadCount := unknownMetric why;
     behindCount := unknownMetric why;
     clean := unknownMetric why;
     diagnostics := Some [];
     repositoryRoot := unknownMetric why;
     workspacePath := path |}.

(** A workspace whose repository resolved while [git status] failed. *)
Definition statusFailedWorkspace (path root why : string)
    (ahead behind : Z) : RepoWorkspaceDrift.t :=
  {| aheadCount := knownMetric ahead;
     behindCount := knownMetric behind;
     clean := unknownMetric why;
     diagnostics := Some [];
     repositoryRoot := knownMetric root;
     workspacePath := path |}.

(** A workspace that is not a git repository, with the reason
    [describeGitFailure] gives it. *)
Definition notARepository (path : string) : RepoWorkspaceDrift.t :=
  unresolvedWorkspace path ("workspace is not a git repository: " ++ path)%string.

(** A workspace whose repository resolved and whose status is known. *)
Definition inspectedWorkspace (path root : string) (isClean : bool)
    (ahead behind : Z) : RepoWorkspaceDrift.t :=
  {| aheadCount := knownMetric ahead;
     behindCount := knownMetric behind;
     clean := knownMetric isClean;
     diagnostics := Some [];
     repositoryRoot := knownMetric root;
     workspacePath := path |}.

(** A dirty workspace next to one whose [git status] failed. *)
Definition dirtyAndUnknown : list RepoWorkspaceDrift.t :=
  [ inspectedWorkspace "/workspace/a" "/repo/a" false 0 0;
    statusFailedWorkspace "/workspace/b" "/repo/b"
      "git command failed for /repo/b: git exited with code 128" 0 0 ].

End RepoDrift.

(* ================================================================== *)
(** * JavaScript built-ins used by the collectors *)
(* ================================================================== *)

Module Js.

(** WhiteSpace and LineTerminator code points in the ASCII range: TAB, LF,
    VT, FF, CR and SP. *)
Definition isWhiteSpace (c : ascii) : bool :=
  let n := nat_of_ascii c in
  ((9 <=? n) && (n <=? 13) || (n =? 32))%nat.

Fixpoint trimStart (s : string) : string :=
  match s with
  | EmptyString => EmptyString
  | String c rest => if isWhiteSpace c then trimStart rest else s
  end.

Fixpoint trimEnd (s : string) : string :=
  match s with
  | EmptyString => EmptyString
  | String c rest =>
      match trimEnd rest with
      | EmptyString => if isWhiteSpace c then EmptyString else String c EmptyString
      | t => String c t
      end
  end.

(** [String.prototype.trim] *)
Definition trim (s : string) : string := trimEnd (trimStart s).

(** [String(n)] for an integer. *)
Definition stringOfInt (n : Z) : string :=
  NilZero.string_of_int (Z.to_int n).

(** [s.split(sep)] for a one-character separator. *)
Fixpoint split (sep : ascii) (s : string) : list string :=
  match s with
  | EmptyString => [EmptyString]
  | String c rest =>
      if Ascii.eqb c sep then EmptyString :: split sep rest
      else match split sep rest with
           | [] => [String c EmptyString]
           | h :: t => String c h :: t
           end
  end.

(** A parsed JSON text; numbers are kept integral. *)
#[warnings="-register-all"]
Inductive json : Type :=
| JNull
| JBool (b : bool)
| JNumber (n : Z)
| JString (s : string)
| JArray (items : list json)
| JObject (fields : list (string * json)).

(** What a [catch (error: unknown)] clause can receive. *)
Inductive thrown : Type :=
| ThrownError (message : string)
| ThrownOther.

(** The outcome of [JSON.parse]: the parsed value, or the value thrown. *)
Inductive parseResult : Type :=
| Parsed (j : json)
| Threw (e : thrown).

(** A JavaScript number: a finite value, kept exact, or one of NaN,
    +Infinity and -Infinity. *)
Inductive number : Type :=
| Finite (q : Q)
| NaN
| PosInfinity
| NegInfinity.

Definition digitValue (c : ascii) : option Z :=
  let n := Z.of_nat (nat_of_ascii c) in
  if (48 <=? n) && (n <=? 57) then Some (n - 48)
  else if (97 <=? n) && (n <=? 102) then Some (n - 87)
  else if (65 <=? n) && (n <=? 70) then Some (n - 55)
  else None.

(** The value of a non-empty run of digits in [base]; [None] when the
    string is empty or holds another character. *)
Fixpoint digitsFrom (base : Z) (s : string) (acc : Z) : option Z :=
  match s with
  | EmptyString => Some acc
  | String c rest =>
      match digitValue c with
      | Some d => if d <? base then digitsFrom base rest (acc * base + d) else None
      | None => None
      end
  end.

Definition digits (base : Z) (s : string) : option Z :=
  match s with
  | EmptyString => None
  | _ => digitsFrom base s 0
  end.

(** Splits a string at its first [e] or [E]. *)
Fixpoint splitExponent (s : string) : string * option string :=
  match s with
  | EmptyString => (EmptyString, None)
  | String c rest =>
      if Ascii.eqb c "e" || Ascii.eqb c "E" then (EmptyString, Some rest)
      else let (m, e) := splitExponent rest in (String c m, e)
  end.

(** An optional sign: [(negative, rest)]. *)
Definition takeSign (s : string) : bool * string :=
  match s with
  | String "-" rest => (true, rest)
  | String "+" rest => (false, rest)
  | _ => (false, s)
  end.

Definition signed (negative : bool) (z : Z) : Z :=
  if negative then - z else z.

(** NonDecimalIntegerLiteral: [0x], [0o] and [0b] prefixes. *)
Definition nonDecimal (s : string) : option Z :=
  match s with
  | String "0" (String p rest) =>
      if Ascii.eqb p "x" || Ascii.eqb p "X" then digits 16 rest
      else if Ascii.eqb p "o" || Ascii.eqb p "O" then digits 8 rest
      else if Ascii.eqb p "b" || Ascii.eqb p "B" then digits 2 rest
      else None
  | _ => None
  end.

(** StrDecimalLiteral without a decimal point: sign, digits, exponent. *)
Definition strDecimal (s : string) : number :=
  let (negative, body) := takeSign s in
  if String.eqb body "Infinity"
  then (if negative then NegInfinity else PosInfinity)
  else
    let (mantissa, exponent) := splitExponent body in
    match digits 10 mantissa, exponent with
    | Some m, None => Finite (inject_Z (signed negative m))
    | Some m, Some e =>
        let (eneg, ebody) := takeSign e in
        match digits 10 ebody with
        | Some k =>
            Finite (inject_Z (signed negative m) * Qpower (10 # 1) (signed eneg k))
        | None => NaN
        end
    | None, _ => NaN
    end.

(** [Number(s)] on a string without a decimal point, which is what
    [split(".")] hands over. The empty and the all-blank string are 0; a
    string outside the grammar is NaN. The value is exact: the rounding of
    a literal to the nearest double is outside this model. *)
Definition Number_ (s : string) : number :=
  let t := trim s in
  if String.eqb t "" then Finite 0
  else match nonDecimal t with
       | Some z => Finite (inject_Z z)
       | None => strDecimal t
       end.

(** [Number.isFinite] *)
Definition isFinite (n : number) : bool :=
  match n with
  | Finite _ => true
  | _ => false
  end.

(** [a < b] and [a > b]: false as soon as one side is NaN. *)
Definition lt (a b : number) : bool :=
  match a, b with
  | NaN, _ | _, NaN => false
  | _, NegInfinity => false
  | NegInfinity, _ => true
  | PosInfinity, _ => false
  | _, PosInfinity => true
  | Finite x, Finite y => negb (Qle_bool y x)
  end.

Definition gt (a b : number) : bool := lt b a.

End Js.

(* ================================================================== *)
(** * collectors/versionDrift.ts: dotted-numeric comparison *)
(* ================================================================== *)

Module VersionDrift.

Definition toParts (v : string) : list Js.number :=
  map (fun part => if Js.isFinite part then part else Js.Finite 0)
      (map (fun part => Js.Number_ part) (Js.split "." v)).

(** [parts[index] ?? 0] *)
Definition partAt (parts : list Js.number) (index : nat) : Js.number :=
  nullish (nth_error parts index) (Js.Finite 0).

(** The body of the [for] loop, run for [remaining] more indices. *)
Fixpoint compareFrom (leftParts rightParts : list Js.number)
    (remaining index : nat) : Z :=
  match remaining with
  | O => 0
  | S remaining' =>
      let leftPart := partAt leftParts index in
      let rightPart := partAt rightParts index in
      if Js.gt leftPart rightPart then 1
      else if Js.lt leftPart rightPart then -1
      else compareFrom leftParts rightParts remaining' (S index)
  end.

Definition compareDotVersions (left right : string) : Z :=
  let leftParts := toParts left in
  let rightParts := toParts right in
  let maxLength := Nat.max (List.length leftParts) (List.length rightParts) in
  compareFrom leftParts rightParts maxLength 0.

(** ** The comparison as the specification words it *)

(** "split on [.], coerce each component to a number, non-numeric
    component treated as 0" *)
Definition specComponents (v : string) : list Q :=
  map (fun c => match Js.Number_ c with
                | Js.Finite q => q
                | _ => 0%Q
                end)
      (Js.split "." v).

(** "missing trailing components treated as 0", "up to the longer length" *)
Definition padTo (n : nat) (parts : list Q) : list Q :=
  parts ++ repeat 0%Q (n - List.length parts).

(** "compare component-wise left to right; return -1/0/1" *)
Fixpoint lexCompare (l r : list Q) : Z :=
  match l, r with
  | a :: l', b :: r' =>
      match (a ?= b)%Q with
      | Gt => 1
      | Lt => -1
      | Eq => lexCompare l' r'
      end
  | _, _ => 0
  end.

Definition specCompareDotVersions (left right : string) : Z :=
  let l := specComponents left in
  let r := specComponents right in
  let n := Nat.max (List.length l) (List.length r) in
  lexCompare (padTo n l) (padTo n r).

End VersionDrift.

(* ================================================================== *)
(** * collectors/openclaw.ts: the external-command bridge *)
(* ================================================================== *)

Module OpenClaw.

Record CommandRequest : Type := mkRequest {
  req_args : list string;
  req_command : string;
  req_cwd : option string;
  req_timeoutMs : Z
}.

Record CommandResult : Type := mkResult {
  args : list string;
  code : option Z;
  command : string;
  ok : bool;
  reason : option string;
  stderr : string;
  stdout : string
}.

(** A zod schema, seen through [safeParse]: the validated data, or a
    failure. *)
Definition Schema (T : Type) : Type := Js.json -> option T.

Definition commandReason (result : CommandResult) : string :=
  match reason result with
  | Some r => r
  | None =>
      let stderrSnippet := Js.trim (stderr result) in
      let stderrText :=
        if (0 <? String.length stderrSnippet)%nat
        then (" (" ++ stderrSnippet ++ ")")%string else "" in
      (command result ++ " exited with code "
         ++ match code result with
            | Some c => Js.stringOfInt c
            | None => "null"
            end
         ++ stderrText)%string
  end.

(** [JSON_parse] stands for the engine's [JSON.parse]. *)
Definition jsonMetricFromCommand (JSON_parse : string -> Js.parseResult)
    {T : Type} (result : CommandResult) (schema : Schema T)
    (label : string) : Metric T :=
  if negb (ok result) then
    unknownMetric (label ++ ": " ++ commandReason result)%string
  else
    let trimmedOutput := Js.trim (stdout result) in
    if (String.length trimmedOutput =? 0)%nat then
      unknownMetric (label ++ ": empty output")%string
    else
      match JSON_parse trimmedOutput with
      | Js.Threw error =>
          let reason := match error with
                        | Js.ThrownError message => message
                        | Js.ThrownOther => "invalid json"
                        end in
          unknownMetric (label ++ ": " ++ reason)%string
      | Js.Parsed parsedJson =>
          match schema parsedJson with
          | None => unknownMetric (label ++ ": schema mismatch")%string
          | Some data => knownMetric data
          end
      end.

(** [runCommand] stands for the outcome of spawning the process: what the
    promise of the source resolves to. *)
Definition runOpenClawJson (runCommand : CommandRequest -> CommandResult)
    (JSON_parse : string -> Js.parseResult) {T : Type}
    (args : list string) (schema : Schema T) (label : string)
    (timeoutMs : Z) : Metric T :=
  let result :=
    runCommand {| req_args := args; req_command := "openclaw";
                  req_cwd := None; req_timeoutMs := timeoutMs |} in
  jsonMetricFromCommand JSON_parse result schema label.

(** ** Vocabulary of the specification *)

(** [needle] occurs in [s]. *)
Definition contains (s needle : string) : Prop :=
  exists before after, s = (before ++ needle ++ after)%string.

(** The text a caught value contributes to the reason. *)
Definition thrownMessage (e : Js.thrown) : string :=
  match e with
  | Js.ThrownError message => message
  | Js.ThrownOther => "invalid json"
  end.

(** A successful run that printed [out]. *)
Definition succeeded (out : string) : CommandResult :=
  {| args := ["status"; "--json"]; code := Some 0; command := "openclaw";
     ok := true; reason := None; stderr := ""; stdout := out |}.

(** A failed run that recorded [why] as its reason, as [runCommand] does
    for a missing binary, a timeout and a non-zero exit. *)
Definition failedBecause (why : string) : CommandResult :=
  {| args := ["status"; "--json"]; code := None; command := "openclaw";
     ok := false; reason := Some why; stderr := ""; stdout := "" |}.

(** A failed run that recorded no reason: exit code and error output are
    all there is. *)
Definition exitedWith (exitCode : Z) (errorOutput : string) : CommandResult :=
  {| args := ["status"; "--json"]; code := Some exitCode;
     command := "openclaw"; ok := false; reason := None;
     stderr := errorOutput; stdout := "" |}.

(** How an exit code reads in a message: its decimal digits, or "null"
    when the process left none. *)
Definition exitCodeText (code : option Z) : string :=
  match code with
  | Some c => Js.stringOfInt c
  | None => "null"
  end.

(** A reader of JSON texts that knows the literals and the integers as the
    JSON grammar writes them (an optional minus sign, no leading zero) and
    reports every other text as a syntax error. It stands in for the
    engine where a concrete run is shown; its messages are its own. *)
Definition literalParse (s : string) : Js.parseResult :=
  if String.eqb s "null" then Js.Parsed Js.JNull
  else if String.eqb s "true" then Js.Parsed (Js.JBool true)
  else if String.eqb s "false" then Js.Parsed (Js.JBool false)
  else
    let (negative, magnitude) :=
      match s with
      | String "-" rest => (true, rest)
      | _ => (false, s)
      end in
    let leadingZero :=
      match magnitude with
      | String "0" (String _ _) => true
      | _ => false
      end in
    match (if leadingZero then None else Js.digits 10 magnitude) with
    | Some n => Js.Parsed (Js.JNumber (Js.signed negative n))
    | None =>
        match s with
        | EmptyString => Js.Threw (Js.ThrownError "Unexpected end of JSON input")
        | _ => Js.Threw (Js.ThrownError "Unexpected token in JSON")
        end
    end.

(** [z.number()] *)
Definition numberSchema : Schema Z :=
  fun j => match j with
           | Js.JNumber n => Some n
           | _ => None
           end.

End OpenClaw.

(* ================================================================== *)
(** * collectors/statusSource.ts: the shared payload *)
(* ================================================================== *)

Module StatusSource.

Record Summary : Type := mkSummary {
  critical : Z;
  info : Z;
  warn : Z
}.

Record AgentEntry : Type := mkAgentEntry {
  id : option string;
  workspaceDir : option string
}.

Record Agents : Type := mkAgents {
  agentList : option (list AgentEntry);
  defaultId : option string
}.

(** [nullable().optional()]: absent, null, or a value. *)
Record Gateway : Type := mkGateway {
  error : option (option string);
  reachable : option (option bool)
}.

Record SecurityAudit : Type := mkSecurityAudit {
  summary : option Summary
}.

Record Sessions : Type := mkSessions {
  count : option Z
}.

Record Registry : Type := mkRegistry {
  latestVersion : option string
}.

Record Update : Type := mkUpdate {
  registry : option Registry
}.

Record t : Type := mk {
  agents : option Agents;
  gateway : option Gateway;
  securityAudit : option SecurityAudit;
  sessions : option Sessions;
  update : option Update
}.

End StatusSource.

(* ================================================================== *)
(** * collectors/security.ts *)
(* ================================================================== *)

Module Security.

(** The data [securityAuditSchema] validates: an object with a summary. *)
Record AuditPayload : Type := mkAuditPayload {
  summary : StatusSource.Summary
}.

Definition securityFromSummary (s : StatusSource.Summary) : SecurityCard.t :=
  {| SecurityCard.critical := knownMetric (StatusSource.critical s);
     SecurityCard.info := knownMetric (StatusSource.info s);
     SecurityCard.warning := knownMetric (StatusSource.warn s) |}.

Definition unknownSecurityCard (reason : string) : SecurityCard.t :=
  {| SecurityCard.critical := unknownMetric reason;
     SecurityCard.info := unknownMetric reason;
     SecurityCard.warning := unknownMetric reason |}.

(** [statusSourceMetric.value?.securityAudit?.summary] *)
Definition fallbackSummaryOf (statusSourceMetric : Metric StatusSource.t)
  : option StatusSource.Summary :=
  match value statusSourceMetric with
  | None => None
  | Some payload =>
      match StatusSource.securityAudit payload with
      | None => None
      | Some audit => StatusSource.summary audit
      end
  end.

(** The collector once the audit command has resolved to
    [securityAuditMetric]. *)
Definition securityCardFrom (securityAuditMetric : Metric AuditPayload)
    (statusSourceMetric : Metric StatusSource.t)
  : CollectorOutput.t SecurityCard.t :=
  match known securityAuditMetric, value securityAuditMetric with
  | true, Some payload =>
      {| CollectorOutput.card := securityFromSummary (summary payload);
         CollectorOutput.warnings := [] |}
  | _, _ =>
      match fallbackSummaryOf statusSourceMetric with
      | Some fallbackSummary =>
          {| CollectorOutput.card := securityFromSummary fallbackSummary;
             CollectorOutput.warnings :=
               [ buildWarning "security" "security_audit_fallback_status"
                   (nullish (reason securityAuditMetric)
                            "security audit command unavailable")
                   sev_warn None ] |}
      | None =>
          let reason :=
            nullish (reason securityAuditMetric)
              (nullish (reason statusSourceMetric)
                       "security summary unavailable") in
          {| CollectorOutput.card := unknownSecurityCard reason;
             CollectorOutput.warnings :=
               [ buildWarning "security" "security_summary_unknown"
                   reason sev_warn None ] |}
      end
  end.

(** The awaited result of the primary source. *)
Definition securityAuditMetricOf
    (runCommand : OpenClaw.CommandRequest -> OpenClaw.CommandResult)
    (JSON_parse : string -> Js.parseResult)
    (securityAuditSchema : OpenClaw.Schema AuditPayload)
  : Metric AuditPayload :=
  OpenClaw.runOpenClawJson runCommand JSON_parse
    ["security"; "audit"; "--json"] securityAuditSchema
    "openclaw security audit --json" 10000.

Definition collectSecurityCard
    (runCommand : OpenClaw.CommandRequest -> OpenClaw.CommandResult)
    (JSON_parse : string -> Js.parseResult)
    (securityAuditSchema : OpenClaw.Schema AuditPayload)
    (statusSourceMetric : Metric StatusSource.t)
  : CollectorOutput.t SecurityCard.t :=
  securityCardFrom
    (securityAuditMetricOf runCommand JSON_parse securityAuditSchema)
    statusSourceMetric.

(** ** Vocabulary of the specification *)

(** The primary source did not deliver: the audit metric is not a known
    metric with a value. *)
Definition primaryFailed (m : Metric AuditPayload) : Prop :=
  known m = false \/ value m = None.

(** The fall-through of the unknown reason as the collector writes it: the
    audit metric's reason when it has one, else the status source's, else
    a fixed text. *)
Definition chainedReason (auditReason statusReason : option string) : string :=
  match auditReason, statusReason with
  | Some r, _ => r
  | None, Some r => r
  | None, None => "security summary unavailable"
  end.

(** The request the collector sends for the audit. *)
Definition auditRequest : OpenClaw.CommandRequest :=
  {| OpenClaw.req_args := ["security"; "audit"; "--json"];
     OpenClaw.req_command := "openclaw";
     OpenClaw.req_cwd := None;
     OpenClaw.req_timeoutMs := 10000 |}.

Definition auditLabel : string := "openclaw security audit --json".

(** The ways the audit command fails to deliver a summary, each with the
    failure reason it leaves: the command failed (with a recorded reason,
    or with its exit code and error output only), it printed nothing, it
    printed a text that is not JSON, or JSON that is not an audit. *)
Inductive auditFails (result : OpenClaw.CommandResult)
    (JSON_parse : string -> Js.parseResult)
    (schema : OpenClaw.Schema AuditPayload) : string -> Prop :=
| commandFailed (cause : string) :
    OpenClaw.ok result = false ->
    OpenClaw.reason result = Some cause ->
    auditFails result JSON_parse schema (auditLabel ++ ": " ++ cause)%string
| commandExited :
    OpenClaw.ok result = false ->
    OpenClaw.reason result = None ->
    Js.trim (OpenClaw.stderr result) = EmptyString ->
    auditFails result JSON_parse schema
      (auditLabel ++ ": " ++ OpenClaw.command result ++ " exited with code "
         ++ OpenClaw.exitCodeText (OpenClaw.code result))%string
| commandExitedWithOutput :
    OpenClaw.ok result = false ->
    OpenClaw.reason result = None ->
    Js.trim (OpenClaw.stderr result) <> EmptyString ->
    auditFails result JSON_parse schema
      (auditLabel ++ ": " ++ OpenClaw.command result ++ " exited with code "
         ++ OpenClaw.exitCodeText (OpenClaw.code result)
         ++ " (" ++ Js.trim (OpenClaw.stderr result) ++ ")")%string
| outputBlank :
    OpenClaw.ok result = true ->
    Js.trim (OpenClaw.stdout result) = EmptyString ->
    auditFails result JSON_parse schema (auditLabel ++ ": empty output")%string
| outputUnparsed (e : Js.thrown) :
    OpenClaw.ok result = true ->
    Js.trim (OpenClaw.stdout result) <> EmptyString ->
    JSON_parse (Js.trim (OpenClaw.stdout result)) = Js.Threw e ->
    auditFails result JSON_parse schema
      (auditLabel ++ ": " ++ OpenClaw.thrownMessage e)%string
| outputRejected (j : Js.json) :
    OpenClaw.ok result = true ->
    Js.trim (OpenClaw.stdout result) <> EmptyString ->
    JSON_parse (Js.trim (OpenClaw.stdout result)) = Js.Parsed j ->
    schema j = None ->
    auditFails result JSON_parse schema (auditLabel ++ ": schema mismatch")%string.

(** The status-source payload was delivered and embeds the audit summary
    [s]. *)
Definition embeddedSummary (statusSourceMetric : Metric StatusSource.t)
    (s : StatusSource.Summary) : Prop :=
  exists payload audit,
    value statusSourceMetric = Some payload /\
    StatusSource.securityAudit payload = Some audit /\
    StatusSource.summary audit = Some s.

(** An environment in which the [openclaw] binary is missing. *)
Definition binaryMissing (request : OpenClaw.CommandRequest)
  : OpenClaw.CommandResult :=
  {| OpenClaw.args := OpenClaw.req_args request;
     OpenClaw.code := None;
     OpenClaw.command := OpenClaw.req_command request;
     OpenClaw.ok := false;
     OpenClaw.reason :=
       Some (OpenClaw.req_command request ++ " not found")%string;
     OpenClaw.stderr := "";
     OpenClaw.stdout := "" |}.

(** An environment whose binary answers every request with exit code 2,
    as one without the audit subcommand does. *)
Definition commandRejected (request : OpenClaw.CommandRequest)
  : OpenClaw.CommandResult :=
  {| OpenClaw.args := OpenClaw.req_args request;
     OpenClaw.code := Some 2;
     OpenClaw.command := OpenClaw.req_command request;
     OpenClaw.ok := false;
     OpenClaw.reason :=
       Some (OpenClaw.req_command request ++ " exited with code 2")%string;
     OpenClaw.stderr := "error: unknown command";
     OpenClaw.stdout := "" |}.

(** A schema that accepts no payload. *)
Definition rejectAll : OpenClaw.Schema AuditPayload := fun _ => None.

(** The status source after its command timed out. *)
Definition statusTimedOut : Metric StatusSource.t :=
  unknownMetric "openclaw status --json: openclaw timed out after 10000ms".

(** A delivered status-source payload that embeds an audit summary. *)
Definition statusWithSummary (s : StatusSource.Summary)
  : Metric StatusSource.t :=
  knownMetric
    {| StatusSource.agents := None;
       StatusSource.gateway := None;
       StatusSource.securityAudit :=
         Some {| StatusSource.summary := Some s |};
       StatusSource.sessions := None;
       StatusSource.update := None |}.

End Security.

(* ================================================================== *)
(** * Further vocabulary for the deriver and the aggregator *)
(* ================================================================== *)

Module StatusLevels.

Import BoardSnapshot Status.

(** The reasons a verdict of each level can carry. *)
Definition reasonClass (l : StatusLevel) : list string :=
  match l with
  | RED => [ "critical security findings > 0"; "failing cron jobs > 0";
             "gateway unreachable" ]
  | AMBER => amberClass
  | GREEN => [ "all health checks passed" ]
  end.

(** [{ ...snapshot, repoDrift }] *)
Definition withRepoDrift (s : withoutOverall) (c : RepoDriftCard.t)
  : withoutOverall :=
  {| agents := agents s; channels := channels s; cron := cron s;
     gateway := gateway s; generatedAt := generatedAt s;
     repoDrift := c; security := security s; sessions := sessions s;
     versionDrift := versionDrift s; warnings := warnings s |}.

(** [{ ...snapshot, gateway }] and [{ ...snapshot, cron }] *)
Definition withGateway (s : withoutOverall) (c : GatewayCard.t)
  : withoutOverall :=
  {| agents := agents s; channels := channels s; cron := cron s;
     gateway := c; generatedAt := generatedAt s;
     repoDrift := repoDrift s; security := security s; sessions := sessions s;
     versionDrift := versionDrift s; warnings := warnings s |}.

Definition withCron (s : withoutOverall) (c : CronCard.t)
  : withoutOverall :=
  {| agents := agents s; channels := channels s; cron := c;
     gateway := gateway s; generatedAt := generatedAt s;
     repoDrift := repoDrift s; security := security s; sessions := sessions s;
     versionDrift := versionDrift s; warnings := warnings s |}.

End StatusLevels.

Module RepoDriftTotals.

Import RepoWorkspaceDrift RepoDrift.

(** Whether a count is missing, as the aggregator tests it. *)
Definition missingb (m : Metric Z) : bool :=
  negb (known m) || negb (hasValue m).

(** The sum of one count over the workspaces, a missing value counting 0. *)
Fixpoint totalOf (field : RepoWorkspaceDrift.t -> Metric Z)
    (ws : list RepoWorkspaceDrift.t) : Z :=
  match ws with
  | [] => 0
  | w :: rest => nullish (value (field w)) 0 + totalOf field rest
  end.

(** The first workspace, in list order, that lacks one count. *)
Fixpoint firstMissing (field : RepoWorkspaceDrift.t -> Metric Z)
    (ws : list RepoWorkspaceDrift.t) : option RepoWorkspaceDrift.t :=
  match ws with
  | [] => None
  | w :: rest =>
      if negb (known (field w)) || negb (hasValue (field w)) then Some w
      else firstMissing field rest
  end.

(** Three workspaces: ahead by 1, behind by 2, and one without upstream. *)
Definition aheadWorkspace : RepoWorkspaceDrift.t :=
  inspectedWorkspace "/workspace/a" "/repo/a" true 1 0.

Definition behindWorkspace : RepoWorkspaceDrift.t :=
  inspectedWorkspace "/workspace/b" "/repo/b" false 0 2.

Definition noUpstreamWorkspace : RepoWorkspaceDrift.t :=
  {| aheadCount := unknownMetric "upstream is not configured for repository: /repo/c";
     behindCount := unknownMetric "upstream is not configured for repository: /repo/c";
     clean := knownMetric true;
     diagnostics := Some [];
     repositoryRoot := knownMetric "/repo/c";
     workspacePath := "/workspace/c" |}.

End RepoDriftTotals.

(* ================================================================== *)
(** * collectors/versionDrift.ts: update availability *)
(* ================================================================== *)

Module UpdateAvailability.

Import VersionDrift.

Definition deriveUpdateAvailabilityMetric
    (installedVersion latestVersion : Metric string) : Metric bool :=
  match known installedVersion, value installedVersion with
  | true, Some installed =>
      match known latestVersion, value latestVersion with
      | true, Some latest =>
          knownMetric (compareDotVersions latest installed >? 0)
      | _, _ =>
          unknownMetric (nullish (reason latestVersion) "latest version unknown")
      end
  | _, _ =>
      unknownMetric (nullish (reason installedVersion)
                             "installed version unknown")
  end.

(** A version metric that carries a value: [known && value !== null]. *)
Definition available (m : Metric string) : Prop :=
  known m = true /\ exists v, value m = Some v.

End UpdateAvailability.

(* ================================================================== *)
(** * The metric invariant of types.ts *)
(* ================================================================== *)

Module MetricShape.

(** A metric as [knownMetric] and [unknownMetric] build it: known with a
    value and no reason, or unknown with a reason and no value. *)
Definition wellFormed {T : Type} (m : Metric T) : Prop :=
  (known m = true /\ reason m = None /\ exists v, value m = Some v) \/
  (known m = false /\ value m = None /\ exists r, reason m = Some r).

(** [prefix] is how the string starts. *)
Definition startsWith (s prefix : string) : Prop :=
  exists rest, s = (prefix ++ rest)%string.

End MetricShape.

(* ================================================================== *)
(** * collectors/openclaw.ts: the text variant of the bridge *)
(* ================================================================== *)

Module OpenClawText.

Import OpenClaw.

Definition textMetricFromCommand (result : CommandResult) (label : string)
  : Metric string :=
  if negb (ok result) then
    unknownMetric (label ++ ": " ++ commandReason result)%string
  else
    let value := Js.trim (stdout result) in
    if (String.length value =? 0)%nat then
      unknownMetric (label ++ ": empty output")%string
    else knownMetric value.

Definition runOpenClawText (runCommand : CommandRequest -> CommandResult)
    (args : list string) (label : string) (timeoutMs : Z) : Metric string :=
  let result :=
    runCommand {| req_args := args; req_command := "openclaw";
                  req_cwd := None; req_timeoutMs := timeoutMs |} in
  textMetricFromCommand result label.

End OpenClawText.

(* ================================================================== *)
(** * collectors/gateway.ts *)
(* ================================================================== *)

Module Gateway.

(** [statusSource.gateway?.reachable]: absent, null or a boolean. *)
Definition reachableOf (statusSource : StatusSource.t) : option (option bool) :=
  match StatusSource.gateway statusSource with
  | Some g => StatusSource.reachable g
  | None => None
  end.

(** [statusSource.gateway?.error] *)
Definition errorOf (statusSource : StatusSource.t) : option (option string) :=
  match StatusSource.gateway statusSource with
  | Some g => StatusSource.error g
  | None => None
  end.

Definition gatewayFromStatus (statusSource : StatusSource.t) : GatewayCard.t :=
  let reachable := reachableOf statusSource in
  let error := errorOf statusSource in
  match reachable with
  | Some (Some b) =>
      {| GatewayCard.error :=
           match error with
           | Some (Some e) => knownMetric e
           | _ => unknownMetric "gateway error not provided"
           end;
         GatewayCard.reachable := knownMetric b |}
  | _ =>
      {| GatewayCard.error :=
           match error with
           | Some (Some e) => knownMetric e
           | _ => unknownMetric "gateway state unavailable"
           end;
         GatewayCard.reachable :=
           unknownMetric "gateway reachability unavailable" |}
  end.

Definition fallbackGatewayCard (reason : string) : GatewayCard.t :=
  {| GatewayCard.error := unknownMetric reason;
     GatewayCard.reachable := unknownMetric reason |}.

Definition warningsForReachability (reachable : Metric bool)
  : list BoardWarning.t :=
  if negb (known reachable) then
    [ buildWarning "gateway" "gateway_reachability_unknown"
        (nullish (reason reachable) "gateway reachability unknown")
        sev_warn None ]
  else if RepoDrift.valueIs reachable false then
    [ buildWarning "gateway" "gateway_unreachable" "gateway unreachable"
        sev_error None ]
  else [].

Definition collectGatewayCard (statusSourceMetric : Metric StatusSource.t)
  : CollectorOutput.t GatewayCard.t :=
  match known statusSourceMetric, value statusSourceMetric with
  | true, Some statusSource =>
      let card := gatewayFromStatus statusSource in
      {| CollectorOutput.card := card;
         CollectorOutput.warnings :=
           warningsForReachability (GatewayCard.reachable card) |}
  | _, _ =>
      let reason := nullish (reason statusSourceMetric)
                            "status source unavailable" in
      let card := fallbackGatewayCard reason in
      {| CollectorOutput.card := card;
         CollectorOutput.warnings :=
           warningsForReachability (GatewayCard.reachable card) |}
  end.

(** The status source delivered a payload. *)
Definition delivered (m : Metric StatusSource.t) : Prop :=
  known m = true /\ exists payload, value m = Some payload.

(** A warning of severity error is among [ws]. *)
Definition hasError (ws : list BoardWarning.t) : Prop :=
  exists w, In w ws /\ BoardWarning.severity w = sev_error.

(** A payload that only reports the gateway. *)
Definition payloadWithGateway (reachable : option (option bool))
    (error : option (option string)) : StatusSource.t :=
  {| StatusSource.agents := None;
     StatusSource.gateway :=
       Some {| StatusSource.error := error;
               StatusSource.reachable := reachable |};
     StatusSource.securityAudit := None;
     StatusSource.sessions := None;
     StatusSource.update := None |}.

End Gateway.

(* ================================================================== *)
(** * collectors/cron.ts *)
(* ================================================================== *)

Module Cron.

Record CronState : Type := mkState {
  consecutiveErrors : option Z;
  lastStatus : option string
}.

Record CronJob : Type := mkJob {
  enabled : option bool;
  id : string;
  state : option CronState
}.

(** The payload of [cron status]: [{ enabled, jobs }]. *)
Record CronStatus : Type := mkStatus {
  statusEnabled : bool;
  statusJobs : Z
}.

(** The payload of [cron list]: [{ jobs }]. *)
Record CronList : Type := mkList {
  jobs : list CronJob
}.

(** [job.enabled === true] *)
Definition isEnabled (job : CronJob) : bool :=
  match enabled job with
  | Some true => true
  | _ => false
  end.

(** [(job.state?.consecutiveErrors ?? 0) > 0] *)
Definition hasConsecutiveErrors (job : CronJob) : bool :=
  nullish (match state job with
           | Some st => consecutiveErrors st
           | None => None
           end) 0 >? 0.

(** [job.state?.lastStatus !== undefined && job.state?.lastStatus !== "ok"] *)
Definition hasNonOkLastStatus (job : CronJob) : bool :=
  match (match state job with
         | Some st => lastStatus st
         | None => None
         end) with
  | Some status => negb (String.eqb status "ok")
  | None => false
  end.

Definition collectFailingCount (jobs : list CronJob) : Z :=
  Z.of_nat (List.length
    (filter (fun job => hasConsecutiveErrors job || hasNonOkLastStatus job)
            (filter (fun job => isEnabled job) jobs))).

Definition unknownCronCard (reason : string) : CronCard.t :=
  {| CronCard.enabledCount := unknownMetric reason;
     CronCard.failingOrRecentErrorCount := unknownMetric reason |}.

(** The collector once both commands have resolved. *)
Definition cronCardFrom (cronStatusMetric : Metric CronStatus)
    (cronListMetric : Metric CronList) : CollectorOutput.t CronCard.t :=
  match known cronListMetric, value cronListMetric with
  | true, Some list =>
      let enabledCount :=
        Z.of_nat (List.length (filter (fun job => isEnabled job) (jobs list))) in
      let failingOrRecentErrorCount := collectFailingCount (jobs list) in
      let warnings :=
        if known cronStatusMetric then []
        else [ buildWarning "cron" "cron_status_unavailable"
                 (nullish (reason cronStatusMetric)
                          "cron status command unavailable")
                 sev_warn None ] in
      {| CollectorOutput.card :=
           {| CronCard.enabledCount := knownMetric enabledCount;
              CronCard.failingOrRecentErrorCount :=
                knownMetric failingOrRecentErrorCount |};
         CollectorOutput.warnings := warnings |}
  | _, _ =>
      match known cronStatusMetric, value cronStatusMetric with
      | true, Some status =>
          {| CollectorOutput.card :=
               {| CronCard.enabledCount :=
                    knownMetric (if statusEnabled status
                                 then statusJobs status else 0);
                  CronCard.failingOrRecentErrorCount :=
                    unknownMetric (nullish (reason cronListMetric)
                                           "cron list unavailable") |};
             CollectorOutput.warnings :=
               [ buildWarning "cron" "cron_list_unavailable"
                   (nullish (reason cronListMetric) "cron list unavailable")
                   sev_warn None ] |}
      | _, _ =>
          let reason :=
            nullish (reason cronListMetric)
              (nullish (reason cronStatusMetric) "cron status unavailable") in
          {| CollectorOutput.card := unknownCronCard reason;
             CollectorOutput.warnings :=
               [ buildWarning "cron" "cron_unknown" reason sev_warn None ] |}
      end
  end.

Definition collectCronCard
    (runCommand : OpenClaw.CommandRequest -> OpenClaw.CommandResult)
    (JSON_parse : string -> Js.parseResult)
    (cronStatusSchema : OpenClaw.Schema CronStatus)
    (cronListSchema : OpenClaw.Schema CronList)
  : CollectorOutput.t CronCard.t :=
  cronCardFrom
    (OpenClaw.runOpenClawJson runCommand JSON_parse
       ["cron"; "status"; "--json"] cronStatusSchema
       "openclaw cron status --json" 10000)
    (OpenClaw.runOpenClawJson runCommand JSON_parse
       ["cron"; "list"; "--all"; "--json"] cronListSchema
       "openclaw cron list --all --json" 10000).

(** An enabled job that counts as failing. *)
Definition failing (job : CronJob) : Prop :=
  enabled job = Some true /\
  ((exists st n, state job = Some st /\ consecutiveErrors st = Some n /\ 0 < n) \/
   (exists st status, state job = Some st /\ lastStatus st = Some status /\
                      status <> "ok")).

(** The list command delivered its payload. *)
Definition listed (m : Metric CronList) : Prop :=
  known m = true /\ exists payload, value m = Some payload.

(** Sample jobs: healthy, erroring, disabled but erroring. *)
Definition healthyJob : CronJob :=
  {| enabled := Some true; id := "backup";
     state := Some {| consecutiveErrors := Some 0; lastStatus := Some "ok" |} |}.

Definition erroringJob : CronJob :=
  {| enabled := Some true; id := "sync";
     state := Some {| consecutiveErrors := Some 3; lastStatus := Some "error" |} |}.

Definition disabledJob : CronJob :=
  {| enabled := Some false; id := "old";
     state := Some {| consecutiveErrors := Some 9; lastStatus := Some "error" |} |}.

End Cron.

(* ================================================================== *)
(** * The local configuration file (collectors/openclaw.ts) *)
(* ================================================================== *)

Module OpenClawConfig.

Record ConfigAgent : Type := mkAgent {
  id : option string;
  workspace : option string;
  workspaceDir : option string
}.

Record ConfigAgents : Type := mkAgents {
  list : option (Datatypes.list ConfigAgent)
}.

(** [channels] is a record from channel name to an unspecified value; its
    entries are listed in key order, each key once. *)
Record t : Type := mk {
  agents : option ConfigAgents;
  channels : option (Datatypes.list (string * Js.json))
}.

End OpenClawConfig.

(* ================================================================== *)
(** * collectors/channels.ts *)
(* ================================================================== *)

Module Channels.

Record ChannelEntry : Type := mkEntry {
  configured : option bool;
  connected : option bool;
  running : option bool
}.

(** The payload of [channels status]: a record from channel name to its
    entry, listed in key order. *)
Record ChannelsStatus : Type := mkStatus {
  channels : list (string * ChannelEntry)
}.

Definition configuredCountFromConfig (configMetric : Metric OpenClawConfig.t)
  : Metric Z :=
  match known configMetric, value configMetric with
  | true, Some config =>
      let configuredCount :=
        List.length (nullish (OpenClawConfig.channels config) []) in
      knownMetric (Z.of_nat configuredCount)
  | _, _ =>
      unknownMetric (nullish (reason configMetric) "openclaw config unavailable")
  end.

(** [entry.configured === true], [typeof entry.connected === "boolean"],
    [entry.connected === true] *)
Definition isConfigured (entry : ChannelEntry) : bool :=
  match configured entry with
  | Some true => true
  | _ => false
  end.

Definition exposesConnected (entry : ChannelEntry) : bool :=
  match connected entry with
  | Some _ => true
  | None => false
  end.

Definition isConnected (entry : ChannelEntry) : bool :=
  match connected entry with
  | Some true => true
  | _ => false
  end.

(** The collector once the command and the config read have resolved. *)
Definition channelsCardFrom (channelsMetric : Metric ChannelsStatus)
    (configMetric : Metric OpenClawConfig.t)
  : CollectorOutput.t ChannelsCard.t :=
  match known channelsMetric, value channelsMetric with
  | true, Some status =>
      let channelEntries := map snd (channels status) in
      let configuredCount :=
        List.length (filter (fun entry => isConfigured entry) channelEntries) in
      let connectedEntries :=
        filter (fun entry => exposesConnected entry) channelEntries in
      let connectedCountMetric :=
        if (0 <? List.length connectedEntries)%nat
        then knownMetric
               (Z.of_nat (List.length
                  (filter (fun entry => isConnected entry) connectedEntries)))
        else unknownMetric "channel providers did not expose connected state" in
      {| CollectorOutput.card :=
           {| ChannelsCard.configuredCount :=
                knownMetric (Z.of_nat configuredCount);
              ChannelsCard.connectedCount := connectedCountMetric |};
         CollectorOutput.warnings :=
           if known connectedCountMetric then []
           else [ buildWarning "channels" "channels_connected_unknown"
                    (nullish (reason connectedCountMetric)
                             "connected count unknown")
                    sev_info None ] |}
  | _, _ =>
      let configuredCount := configuredCountFromConfig configMetric in
      let connectedReason :=
        nullish (reason channelsMetric) "channels status unavailable" in
      {| CollectorOutput.card :=
           {| ChannelsCard.configuredCount := configuredCount;
              ChannelsCard.connectedCount := unknownMetric connectedReason |};
         CollectorOutput.warnings :=
           [ buildWarning "channels" "channels_status_unavailable"
               connectedReason sev_warn None ] |}
  end.

(** The status command delivered its payload. *)
Definition reported (m : Metric ChannelsStatus) : Prop :=
  known m = true /\ exists payload, value m = Some payload.

End Channels.

(* ================================================================== *)
(** * collectors/sessions.ts *)
(* ================================================================== *)

Module Sessions.

Record SessionsPayload : Type := mkPayload {
  count : option Z;
  sessions : option (list Js.json)
}.

Definition defaultActiveSessionWindowMinutes : Z := 60.

(** [payload.count ?? payload.sessions?.length ?? 0] *)
Definition activeCountFromPayload (payload : SessionsPayload) : Z :=
  nullish (count payload)
    (nullish (option_map (fun l => Z.of_nat (List.length l)) (sessions payload))
             0).

Definition sessionsCardFrom (sessionsMetric : Metric SessionsPayload)
    (activeWindowMinutes : Z) : CollectorOutput.t SessionsCard.t :=
  match known sessionsMetric, value sessionsMetric with
  | true, Some payload =>
      {| CollectorOutput.card :=
           {| SessionsCard.activeCount :=
                knownMetric (activeCountFromPayload payload);
              SessionsCard.activeWindowMinutes := activeWindowMinutes |};
         CollectorOutput.warnings := [] |}
  | _, _ =>
      let reason :=
        nullish (reason sessionsMetric) "active sessions unavailable" in
      {| CollectorOutput.card :=
           {| SessionsCard.activeCount := unknownMetric reason;
              SessionsCard.activeWindowMinutes := activeWindowMinutes |};
         CollectorOutput.warnings :=
           [ buildWarning "sessions" "sessions_active_unknown" reason
               sev_warn None ] |}
  end.

End Sessions.

(* ================================================================== *)
(** * collectors/agents.ts *)
(* ================================================================== *)

Module Agents.

Record AgentListEntry : Type := mkEntry {
  id : option string;
  name : option string
}.

(** [statusSourceMetric.value?.agents?.agents] *)
Definition statusAgents (statusSourceMetric : Metric StatusSource.t)
  : option (list StatusSource.AgentEntry) :=
  match value statusSourceMetric with
  | None => None
  | Some payload =>
      match StatusSource.agents payload with
      | None => None
      | Some a => StatusSource.agentList a
      end
  end.

Definition countFromStatusSource (statusSourceMetric : Metric StatusSource.t)
  : Metric Z :=
  match statusAgents statusSourceMetric with
  | Some agents => knownMetric (Z.of_nat (List.length agents))
  | None =>
      unknownMetric (nullish (reason statusSourceMetric)
                             "status source unavailable for agents")
  end.

(** [configMetric.value?.agents?.list] *)
Definition configAgents (configMetric : Metric OpenClawConfig.t)
  : option (list OpenClawConfig.ConfigAgent) :=
  match value configMetric with
  | None => None
  | Some config =>
      match OpenClawConfig.agents config with
      | None => None
      | Some a => OpenClawConfig.list a
      end
  end.

(** The collector once the command and the config read have resolved. *)
Definition agentsCardFrom (agentsListMetric : Metric (list AgentListEntry))
    (statusSourceMetric : Metric StatusSource.t)
    (configMetric : Metric OpenClawConfig.t)
  : CollectorOutput.t AgentsCard.t :=
  match known agentsListMetric, value agentsListMetric with
  | true, Some agentsList =>
      {| CollectorOutput.card :=
           {| AgentsCard.configuredCount :=
                knownMetric (Z.of_nat (List.length agentsList)) |};
         CollectorOutput.warnings := [] |}
  | _, _ =>
      let statusCount := countFromStatusSource statusSourceMetric in
      if known statusCount then
        {| CollectorOutput.card :=
             {| AgentsCard.configuredCount := statusCount |};
           CollectorOutput.warnings :=
             [ buildWarning "agents" "agents_list_unavailable"
                 (nullish (reason agentsListMetric)
                          "agents list command unavailable")
                 sev_warn None ] |}
      else
        match configAgents configMetric with
        | Some agents =>
            {| CollectorOutput.card :=
                 {| AgentsCard.configuredCount :=
                      knownMetric (Z.of_nat (List.length agents)) |};
               CollectorOutput.warnings :=
                 [ buildWarning "agents" "agents_list_unavailable"
                     (nullish (reason agentsListMetric)
                              "agents list command unavailable")
                     sev_warn None ] |}
        | None =>
            let reason :=
              nullish (reason agentsListMetric)
                (nullish (reason statusSourceMetric)
                   (nullish (reason configMetric) "agent count unavailable")) in
            {| CollectorOutput.card :=
                 {| AgentsCard.configuredCount := unknownMetric reason |};
               CollectorOutput.warnings :=
                 [ buildWarning "agents" "agents_unknown" reason
                     sev_warn None ] |}
        end
  end.

(** The agents-list command delivered its payload. *)
Definition listedAgents (m : Metric (list AgentListEntry)) : Prop :=
  known m = true /\ exists payload, value m = Some payload.

End Agents.

(* ================================================================== *)
(** * collectors/repoDrift.ts: classifying a git failure *)
(* ================================================================== *)

Module GitFailure.

(** [String.prototype.toLowerCase] on the ASCII letters. *)
Definition lowerChar (c : ascii) : ascii :=
  let n := nat_of_ascii c in
  if ((65 <=? n) && (n <=? 90))%nat then ascii_of_nat (n + 32) else c.

Fixpoint toLowerCase (s : string) : string :=
  match s with
  | EmptyString => EmptyString
  | String c rest => String (lowerChar c) (toLowerCase rest)
  end.

(** [value.includes(pattern)] *)
Fixpoint includes (value pattern : string) : bool :=
  String.prefix pattern value ||
  match value with
  | EmptyString => false
  | String _ rest => includes rest pattern
  end.

Definition firstLine (value : string) : string :=
  nullish
    (find (fun line => (0 <? String.length line)%nat)
          (map (fun line => Js.trim line)
               (Js.split "010" (Js.trim value))))
    "".

Definition includesAny (value : string) (patterns : list string) : bool :=
  existsb (fun pattern => includes value pattern) patterns.

Record t : Type := mk {
  warning : BoardWarning.t;
  reason : string
}.

Definition describeGitFailure (workspacePath resultReason stderr : string)
    (repositoryRoot : option string) : t :=
  let stderrLine := firstLine stderr in
  let searchable :=
    (toLowerCase resultReason ++ " " ++ toLowerCase stderrLine)%string in
  let contextPath := nullish repositoryRoot workspacePath in
  if includes searchable "not found" then
    let reason :=
      ("git binary not found while checking " ++ contextPath)%string in
    {| warning := buildWarning "repoDrift" "git_not_found" reason
                    sev_error (Some contextPath);
       reason := reason |}
  else if includesAny searchable
            ["not a git repository"; "not in a git directory"] then
    let reason :=
      ("workspace is not a git repository: " ++ workspacePath)%string in
    {| warning := buildWarning "repoDrift" "workspace_not_git_repo" reason
                    sev_warn (Some workspacePath);
       reason := reason |}
  else if includesAny searchable
            ["no upstream configured"; "no upstream branch";
             "does not point to a branch"; "has no upstream branch";
             "no such branch"] then
    let reason :=
      ("upstream is not configured for repository: " ++ contextPath)%string in
    {| warning := buildWarning "repoDrift" "repo_upstream_missing" reason
                    sev_info (Some contextPath);
       reason := reason |}
  else
    let detail :=
      if (0 <? String.length stderrLine)%nat
      then (resultReason ++ " (" ++ stderrLine ++ ")")%string
      else resultReason in
    let reason :=
      ("git command failed for " ++ contextPath ++ ": " ++ detail)%string in
    {| warning := buildWarning "repoDrift" "git_command_failed" reason
                    sev_warn (Some contextPath);
       reason := reason |}.

(** The text the classification searches. *)
Definition searchableOf (resultReason stderr : string) : string :=
  (toLowerCase resultReason ++ " " ++ toLowerCase (firstLine stderr))%string.

End GitFailure.

(* ================================================================== *)
(** * The version token of versionDrift.ts and compatibility.ts *)
(* ================================================================== *)

Module VersionToken.

(** [[0-9]] *)
Definition isDigit (c : ascii) : bool :=
  let n := nat_of_ascii c in ((48 <=? n) && (n <=? 57))%nat.

(** The longest prefix of [s] made of digits and of dots that are each
    followed by a digit: what [[0-9]*(?:\.[0-9]+)*] matches greedily. *)
Fixpoint dottedRun (s : string) : string :=
  match s with
  | EmptyString => EmptyString
  | String c rest =>
      if isDigit c then String c (dottedRun rest)
      else if Ascii.eqb c "." then
        match rest with
        | String d _ => if isDigit d then String "." (dottedRun rest) else EmptyString
        | EmptyString => EmptyString
        end
      else EmptyString
  end.

Definition hasDot (s : string) : bool :=
  existsb (fun c => Ascii.eqb c ".") (list_ascii_of_string s).

(** A match of [/([0-9]+(?:\.[0-9]+)+)/] that starts at the head of [s]. *)
Definition matchAt (s : string) : option string :=
  match s with
  | String c _ =>
      if isDigit c then
        let token := dottedRun s in
        if hasDot token then Some token else None
      else None
  | EmptyString => None
  end.

(** The leftmost match of the pattern in [s]: [s.match(pattern)?.[1]]. *)
Fixpoint versionToken (s : string) : option string :=
  match matchAt s with
  | Some token => Some token
  | None =>
      match s with
      | EmptyString => None
      | String _ rest => versionToken rest
      end
  end.

Definition normalizeVersion (rawValue : string) : string :=
  nullish (versionToken rawValue) (Js.trim rawValue).

(** [parseVersionNumber] of compatibility.ts; [None] is [null]. *)
Definition parseVersionNumber (rawVersion : string) : option string :=
  versionToken rawVersion.

(** A dotted-numeric text: it starts with a digit, is its own greedy run
    and holds a dot. *)
Definition dotted (t : string) : Prop :=
  matchAt t = Some t.

(** ** Vocabulary: what the pattern describes *)

(** A non-empty run of digits. *)
Inductive digits : string -> Prop :=
| digits_one (c : ascii) :
    isDigit c = true -> digits (String c EmptyString)
| digits_more (c : ascii) (d : string) :
    isDigit c = true -> digits d -> digits (String c d).

(** One or more groups, each a dot followed by digits. *)
Inductive dotGroups : string -> Prop :=
| groups_one (d : string) :
    digits d -> dotGroups (String "." d)
| groups_more (d g : string) :
    digits d -> dotGroups g -> dotGroups (String "." (d ++ g)).

(** A text the whole pattern matches: digits, then dot groups. *)
Definition versionShape (t : string) : Prop :=
  exists d g, digits d /\ dotGroups g /\ t = (d ++ g)%string.

(** [token] is what the pattern finds in [text]: it occurs there with the
    shape of the pattern, no text of that shape starts further left, and
    no longer text of that shape starts at the same place. *)
Definition leftmostGreedy (text token : string) : Prop :=
  exists before after,
    text = (before ++ token ++ after)%string /\
    versionShape token /\
    (forall skipped later other rest,
       before = (skipped ++ later)%string -> later <> EmptyString ->
       versionShape other ->
       (later ++ token ++ after)%string <> (other ++ rest)%string) /\
    (forall other rest,
       versionShape other ->
       (token ++ after)%string = (other ++ rest)%string ->
       (String.length other <= String.length token)%nat).

(** No part of [text] has the shape of the pattern. *)
Definition noVersion (text : string) : Prop :=
  forall before t after,
    text = (before ++ t ++ after)%string -> ~ versionShape t.

End VersionToken.

(* ================================================================== *)
(** * collectors/versionDrift.ts: the collector *)
(* ================================================================== *)

Module VersionDriftCollector.

Import VersionToken UpdateAvailability.

(** [statusSourceMetric.value?.update?.registry?.latestVersion] *)
Definition registryLatest (statusSourceMetric : Metric StatusSource.t)
  : option string :=
  match value statusSourceMetric with
  | None => None
  | Some payload =>
      match StatusSource.update payload with
      | None => None
      | Some u =>
          match StatusSource.registry u with
          | None => None
          | Some reg => StatusSource.latestVersion reg
          end
      end
  end.

Definition latestVersionFromStatus (statusSourceMetric : Metric StatusSource.t)
  : Metric string :=
  match registryLatest statusSourceMetric with
  | Some latestVersion =>
      if (0 <? String.length latestVersion)%nat then knownMetric latestVersion
      else unknownMetric
             (nullish (reason statusSourceMetric)
                      "latest version unavailable from status source")
  | None =>
      unknownMetric
        (nullish (reason statusSourceMetric)
                 "latest version unavailable from status source")
  end.

Definition normalizeVersionMetric (metric : Metric string) : Metric string :=
  match known metric, value metric with
  | true, Some v => knownMetric (normalizeVersion v)
  | _, _ => metric
  end.

(** The warning a metric of the card adds when it is unknown. *)
Definition warningIfUnknown {T : Type} (metric : Metric T)
    (code fallback : string) (severity : WarningSeverity)
  : list BoardWarning.t :=
  if known metric then []
  else [ buildWarning "version" code (nullish (reason metric) fallback)
           severity None ].

(** The collector once the version command and the state-file scan have
    resolved to [installedText] and [stateLatestVersionMetric]. *)
Definition versionDriftCardFrom (installedText : Metric string)
    (statusSourceMetric : Metric StatusSource.t)
    (stateLatestVersionMetric : Metric string)
  : CollectorOutput.t VersionDriftCard.t :=
  let installedVersionMetric := normalizeVersionMetric installedText in
  let statusLatestVersionMetric := latestVersionFromStatus statusSourceMetric in
  let latestVersionMetric :=
    if known statusLatestVersionMetric
    then normalizeVersionMetric statusLatestVersionMetric
    else normalizeVersionMetric stateLatestVersionMetric in
  let updateAvailableMetric :=
    deriveUpdateAvailabilityMetric installedVersionMetric latestVersionMetric in
  {| CollectorOutput.card :=
       {| VersionDriftCard.installedVersion := installedVersionMetric;
          VersionDriftCard.latestVersion := latestVersionMetric;
          VersionDriftCard.updateAvailable := updateAvailableMetric |};
     CollectorOutput.warnings :=
       warningIfUnknown installedVersionMetric "installed_version_unknown"
         "installed version unknown" sev_warn
       ++ warningIfUnknown latestVersionMetric "latest_version_unknown"
            "latest version unknown" sev_warn
       ++ warningIfUnknown updateAvailableMetric "update_availability_unknown"
            "update availability unknown" sev_info |}.

Definition collectVersionDriftCard
    (runCommand : OpenClaw.CommandRequest -> OpenClaw.CommandResult)
    (statusSourceMetric : Metric StatusSource.t)
    (stateLatestVersionMetric : Metric string)
  : CollectorOutput.t VersionDriftCard.t :=
  versionDriftCardFrom
    (OpenClawText.runOpenClawText runCommand ["--version"]
       "openclaw --version" 8000)
    statusSourceMetric stateLatestVersionMetric.

(** How many of the three metrics of a card are unknown. *)
Definition unknownCount (card : VersionDriftCard.t) : nat :=
  (if known (VersionDriftCard.installedVersion card) then 0 else 1)
  + (if known (VersionDriftCard.latestVersion card) then 0 else 1)
  + (if known (VersionDriftCard.updateAvailable card) then 0 else 1).

(** [{ ...snapshot, versionDrift }] is [Status.withVersionDrift]. *)
Definition payloadWithLatest (latest : string) : StatusSource.t :=
  {| StatusSource.agents := None;
     StatusSource.gateway := None;
     StatusSource.securityAudit := None;
     StatusSource.sessions := None;
     StatusSource.update :=
       Some {| StatusSource.registry :=
                 Some {| StatusSource.latestVersion := Some latest |} |} |}.

End VersionDriftCollector.

(* ================================================================== *)
(** * collectors/compatibility.ts *)
(* ================================================================== *)

Module Compatibility.

Import OpenClaw VersionToken.

Definition minimumSupportedOpenClawVersion : string := "2026.2.9".

Definition requiredTopLevelCommands : list string :=
  [ "status"; "security"; "cron"; "channels"; "agents"; "sessions" ].

(** compatibility.ts carries its own copy of [compareDotVersions], the same
    text as the one of versionDrift.ts. *)
Definition compareDotVersions : string -> string -> Z :=
  VersionDrift.compareDotVersions.

Definition checkOpenClawVersion (runCommand : CommandRequest -> CommandResult)
  : list BoardWarning.t :=
  let versionResult :=
    runCommand {| req_args := ["--version"]; req_command := "openclaw";
                  req_cwd := None; req_timeoutMs := 8000 |} in
  if negb (ok versionResult) then
    [ buildWarning "compatibility" "openclaw_version_unavailable"
        (nullish (reason versionResult) "unable to read openclaw version")
        sev_warn None ]
  else
    let rawVersion := Js.trim (stdout versionResult) in
    match parseVersionNumber rawVersion with
    | None =>
        [ buildWarning "compatibility" "openclaw_version_parse_failed"
            ("unable to parse openclaw version from '" ++ rawVersion ++ "'")%string
            sev_warn None ]
    | Some parsedVersion =>
        let isSupported :=
          compareDotVersions parsedVersion minimumSupportedOpenClawVersion
          >=? 0 in
        if isSupported then []
        else
          [ buildWarning "compatibility" "openclaw_version_unsupported"
              ("detected OpenClaw " ++ parsedVersion
                 ++ "; clawtop expects >= "
                 ++ minimumSupportedOpenClawVersion)%string
              sev_warn None ]
    end.

(** [[a-z]] *)
Definition isLower (c : ascii) : bool :=
  let n := nat_of_ascii c in ((97 <=? n) && (n <=? 122))%nat.

(** [[a-z0-9-]] *)
Definition isNameChar (c : ascii) : bool :=
  isLower c || isDigit c || Ascii.eqb c "-".

(** The greedy [[a-z0-9-]*] at the head of a string, and what follows it. *)
Fixpoint nameRun (s : string) : string * string :=
  match s with
  | EmptyString => (EmptyString, EmptyString)
  | String c rest =>
      if isNameChar c
      then let (name, after) := nameRun rest in (String c name, after)
      else (EmptyString, s)
  end.

(** [line.match(commandLinePattern)?.[1]]: the pattern asks for two
    white-space characters at the start of the line, a name (the capture)
    and at least one white-space character. A white-space character never
    continues the name, so the capture is the whole greedy run. *)
Definition commandLineMatch (line : string) : option string :=
  match line with
  | String w1 (String w2 (String c rest)) =>
      if Js.isWhiteSpace w1 && Js.isWhiteSpace w2 && isLower c then
        let (name, after) := nameRun rest in
        match after with
        | String w _ =>
            if Js.isWhiteSpace w then Some (String c name) else None
        | EmptyString => None
        end
      else None
  | _ => None
  end.

Definition parseCommandNames (helpOutput : string) : list string :=
  filter nonEmpty
    (map (fun line => nullish (commandLineMatch line) "")
         (Js.split "010" helpOutput)).

Definition collectCompatibilityWarningsInner
    (runCommand : CommandRequest -> CommandResult) : list BoardWarning.t :=
  let binaryHelpResult :=
    runCommand {| req_args := ["--help"]; req_command := "openclaw";
                  req_cwd := None; req_timeoutMs := 8000 |} in
  if negb (ok binaryHelpResult) then
    [ buildWarning "compatibility" "openclaw_binary_unavailable"
        (nullish (reason binaryHelpResult) "openclaw --help failed")
        sev_error None ]
  else
    let availableCommands := parseCommandNames (stdout binaryHelpResult) in
    let missingCommands :=
      filter (fun requiredCommand =>
                negb (existsb (String.eqb requiredCommand) availableCommands))
             requiredTopLevelCommands in
    let missingCommandWarnings :=
      map (fun missingCommand =>
             buildWarning "compatibility" "openclaw_command_missing"
               ("openclaw command not found in --help output: "
                  ++ missingCommand)%string
               sev_warn (Some missingCommand))
          missingCommands in
    let versionWarnings := checkOpenClawVersion runCommand in
    missingCommandWarnings ++ versionWarnings.

(** The module-level [compatibilityWarningsPromise], seen through the value
    the promise resolves to: [None] is the initial [null]. The call returns
    the warnings and the new content of the variable. *)
Definition collectCompatibilityWarnings
    (runCommand : CommandRequest -> CommandResult)
    (compatibilityWarningsPromise : option (list BoardWarning.t))
  : list BoardWarning.t * option (list BoardWarning.t) :=
  let promise :=
    match compatibilityWarningsPromise with
    | None => collectCompatibilityWarningsInner runCommand
    | Some resolved => resolved
    end in
  (promise, Some promise).

(** A run of calls, each in its own environment, threading the variable. *)
Fixpoint callsFrom (environments : list (CommandRequest -> CommandResult))
    (compatibilityWarningsPromise : option (list BoardWarning.t))
  : list (list BoardWarning.t) :=
  match environments with
  | [] => []
  | runCommand :: later =>
      let (result, promise) :=
        collectCompatibilityWarnings runCommand compatibilityWarningsPromise in
      result :: callsFrom later promise
  end.

(** ** Vocabulary *)

(** A command name: a lower-case letter, then lower-case letters, digits
    and hyphens. *)
Definition commandName (name : string) : Prop :=
  exists c tail, name = String c tail /\ isLower c = true /\
                 Forall (fun x => isNameChar x = true)
                        (list_ascii_of_string tail).

(** A help line that lists [name]: two white-space characters, the name, a
    white-space character, then anything. *)
Definition listsCommand (line name : string) : Prop :=
  exists w1 w2 w rest,
    line = String w1 (String w2 (name ++ String w rest))%string /\
    Js.isWhiteSpace w1 = true /\ Js.isWhiteSpace w2 = true /\
    Js.isWhiteSpace w = true /\ commandName name.

Definition helpRequest : CommandRequest :=
  {| req_args := ["--help"]; req_command := "openclaw";
     req_cwd := None; req_timeoutMs := 8000 |}.

Definition versionRequest : CommandRequest :=
  {| req_args := ["--version"]; req_command := "openclaw";
     req_cwd := None; req_timeoutMs := 8000 |}.

(** The installed binary passes the version check: the trimmed output
    holds a version token that is not below the minimum. *)
Definition versionSupported (versionResult : CommandResult) : Prop :=
  ok versionResult = true /\
  exists token,
    parseVersionNumber (Js.trim (stdout versionResult)) = Some token /\
    compareDotVersions token minimumSupportedOpenClawVersion >= 0.

Definition succeeded (output : string) : CommandResult :=
  {| args := []; code := Some 0; command := "openclaw"; ok := true;
     reason := None; stderr := ""; stdout := output |}.

Definition notFound : CommandResult :=
  {| args := []; code := None; command := "openclaw"; ok := false;
     reason := Some "openclaw not found"; stderr := ""; stdout := "" |}.

End Compatibility.

(* ================================================================== *)
(** * collectors/repoDrift.ts: workspace discovery and the collector *)
(* ================================================================== *)

Module Workspaces.

(** [Set.prototype.add] on a set kept in insertion order. *)
Definition setAdd (set : list string) (v : string) : list string :=
  if existsb (String.eqb v) set then set else set ++ [v].

(** [[...new Set(values.filter((value) => value.length > 0))]]; the same
    function is declared in openclaw.ts. *)
Definition uniqueValues (values : list string) : list string :=
  fold_left setAdd (filter nonEmpty values) [].

Definition workspacePathsFromStatus (statusSource : Metric StatusSource.t)
  : list string :=
  let agentEntries := nullish (Agents.statusAgents statusSource) [] in
  uniqueValues
    (filter nonEmpty
       (map (fun agent => nullish (StatusSource.workspaceDir agent) "")
            agentEntries)).

(** [agent.workspaceDir ?? agent.workspace ?? ""] *)
Definition configWorkspace (agent : OpenClawConfig.ConfigAgent) : string :=
  match OpenClawConfig.workspaceDir agent with
  | Some dir => dir
  | None => nullish (OpenClawConfig.workspace agent) ""
  end.

Definition workspacePathsFromConfig (configMetric : Metric OpenClawConfig.t)
  : list string :=
  let agents := nullish (Agents.configAgents configMetric) [] in
  uniqueValues (filter nonEmpty (map configWorkspace agents)).

(** The paths the collector goes on to resolve and inspect. *)
Definition discovered (statusSourceMetric : Metric StatusSource.t)
    (configMetric : Metric OpenClawConfig.t) : list string :=
  uniqueValues (workspacePathsFromStatus statusSourceMetric
                ++ workspacePathsFromConfig configMetric).

(** The collector once the config read has resolved to [configMetric];
    [resolve] stands for [path.resolve] and [inspectWorkspace] for the
    result of inspecting a path in this run. *)
Definition collectRepoDriftCard (configMetric : Metric OpenClawConfig.t)
    (resolve : string -> string)
    (inspectWorkspace : string -> RepoWorkspaceDrift.t)
    (statusSourceMetric : Metric StatusSource.t)
  : CollectorOutput.t RepoDriftCard.t :=
  let workspaces :=
    map resolve
        (uniqueValues (workspacePathsFromStatus statusSourceMetric
                       ++ workspacePathsFromConfig configMetric)) in
  if (List.length workspaces =? 0)%nat then
    let reason :=
      match reason statusSourceMetric with
      | Some r => r
      | None => nullish (reason configMetric)
                        "no OpenClaw workspaces discovered"
      end in
    {| CollectorOutput.card := RepoDrift.aggregateRepoDrift [] reason;
       CollectorOutput.warnings :=
         [ buildWarning "repoDrift" "repo_workspaces_missing" reason
             sev_warn None ] |}
  else
    let workspaceDrifts := map inspectWorkspace workspaces in
    let card :=
      RepoDrift.aggregateRepoDrift workspaceDrifts "no repositories discovered" in
    {| CollectorOutput.card := card;
       CollectorOutput.warnings :=
         flat_map (fun workspace =>
                     nullish (RepoWorkspaceDrift.diagnostics workspace) [])
                  workspaceDrifts |}.

(** A status-source agent names [path] as its workspace directory. *)
Definition statusNames (statusSource : Metric StatusSource.t) (path : string)
  : Prop :=
  exists agents agent,
    Agents.statusAgents statusSource = Some agents /\ In agent agents /\
    StatusSource.workspaceDir agent = Some path.

(** A config agent names [path]: its [workspaceDir], or, when that is
    absent, its [workspace]. *)
Definition configNames (configMetric : Metric OpenClawConfig.t) (path : string)
  : Prop :=
  exists agents agent,
    Agents.configAgents configMetric = Some agents /\ In agent agents /\
    configWorkspace agent = path.

End Workspaces.

(* ================================================================== *)
(** * status.ts: the snapshot *)
(* ================================================================== *)

Module Snapshot.

Import BoardSnapshot.

Record SnapshotOptions : Type := mkOptions {
  activeSessionWindowMinutes : option Z
}.

(** [BoardSnapshot]: [{ ...partialSnapshot, overall }]. *)
Record t : Type := mk {
  partialSnapshot : withoutOverall;
  overall : OverallCard.t
}.

(** What the commands, the files and the clock answer during one run: the
    metric each collector awaits, per collector. *)
Record Environment : Type := mkEnvironment {
  statusSourceAnswer : Metric StatusSource.t;
  securityAuditAnswer : Metric Security.AuditPayload;
  cronStatusAnswer : Metric Cron.CronStatus;
  cronListAnswer : Metric Cron.CronList;
  channelsAnswer : Metric Channels.ChannelsStatus;
  channelsConfigAnswer : Metric OpenClawConfig.t;
  agentsListAnswer : Metric (list Agents.AgentListEntry);
  agentsConfigAnswer : Metric OpenClawConfig.t;
  sessionsAnswer : Z -> Metric Sessions.SessionsPayload;
  repoConfigAnswer : Metric OpenClawConfig.t;
  resolveAnswer : string -> string;
  inspectAnswer : string -> RepoWorkspaceDrift.t;
  installedVersionAnswer : Metric string;
  stateLatestAnswer : Metric string;
  compatibilityRun : OpenClaw.CommandRequest -> OpenClaw.CommandResult;
  now : string
}.

(** The warnings of the compatibility check and of the eight collectors,
    in the order [collectBoardSnapshot] spreads them. *)
Definition collectedWarnings (env : Environment) (options : SnapshotOptions)
    (compatibilityWarningsPromise : option (list BoardWarning.t))
  : list BoardWarning.t :=
  let activeSessionWindowMinutes :=
    nullish (activeSessionWindowMinutes options)
            Sessions.defaultActiveSessionWindowMinutes in
  let statusSourceMetric := statusSourceAnswer env in
  fst (Compatibility.collectCompatibilityWarnings (compatibilityRun env)
         compatibilityWarningsPromise)
  ++ CollectorOutput.warnings (Gateway.collectGatewayCard statusSourceMetric)
  ++ CollectorOutput.warnings
       (Security.securityCardFrom (securityAuditAnswer env) statusSourceMetric)
  ++ CollectorOutput.warnings
       (Cron.cronCardFrom (cronStatusAnswer env) (cronListAnswer env))
  ++ CollectorOutput.warnings
       (Channels.channelsCardFrom (channelsAnswer env)
          (channelsConfigAnswer env))
  ++ CollectorOutput.warnings
       (Agents.agentsCardFrom (agentsListAnswer env) statusSourceMetric
          (agentsConfigAnswer env))
  ++ CollectorOutput.warnings
       (Sessions.sessionsCardFrom
          (sessionsAnswer env activeSessionWindowMinutes)
          activeSessionWindowMinutes)
  ++ CollectorOutput.warnings
       (Workspaces.collectRepoDriftCard (repoConfigAnswer env)
          (resolveAnswer env) (inspectAnswer env) statusSourceMetric)
  ++ CollectorOutput.warnings
       (VersionDriftCollector.versionDriftCardFrom
          (installedVersionAnswer env) statusSourceMetric
          (stateLatestAnswer env)).

(** The call returns the snapshot and the new content of the module's
    [compatibilityWarningsPromise]. *)
Definition collectBoardSnapshot (env : Environment) (options : SnapshotOptions)
    (compatibilityWarningsPromise : option (list BoardWarning.t))
  : t * option (list BoardWarning.t) :=
  let activeSessionWindowMinutes :=
    nullish (activeSessionWindowMinutes options)
            Sessions.defaultActiveSessionWindowMinutes in
  let statusSourceMetric := statusSourceAnswer env in
  let gatewayOutput := Gateway.collectGatewayCard statusSourceMetric in
  let compatibility :=
    Compatibility.collectCompatibilityWarnings (compatibilityRun env)
      compatibilityWarningsPromise in
  let securityOutput :=
    Security.securityCardFrom (securityAuditAnswer env) statusSourceMetric in
  let cronOutput :=
    Cron.cronCardFrom (cronStatusAnswer env) (cronListAnswer env) in
  let channelsOutput :=
    Channels.channelsCardFrom (channelsAnswer env) (channelsConfigAnswer env) in
  let agentsOutput :=
    Agents.agentsCardFrom (agentsListAnswer env) statusSourceMetric
      (agentsConfigAnswer env) in
  let sessionsOutput :=
    Sessions.sessionsCardFrom (sessionsAnswer env activeSessionWindowMinutes)
      activeSessionWindowMinutes in
  let repoDriftOutput :=
    Workspaces.collectRepoDriftCard (repoConfigAnswer env) (resolveAnswer env)
      (inspectAnswer env) statusSourceMetric in
  let versionDriftOutput :=
    VersionDriftCollector.versionDriftCardFrom (installedVersionAnswer env)
      statusSourceMetric (stateLatestAnswer env) in
  let partialSnapshot :=
    {| agents := CollectorOutput.card agentsOutput;
       channels := CollectorOutput.card channelsOutput;
       cron := CollectorOutput.card cronOutput;
       gateway := CollectorOutput.card gatewayOutput;
       generatedAt := now env;
       repoDrift := CollectorOutput.card repoDriftOutput;
       security := CollectorOutput.card securityOutput;
       sessions := CollectorOutput.card sessionsOutput;
       versionDrift := CollectorOutput.card versionDriftOutput;
       warnings :=
         Dedup.uniqueWarnings
           (fst compatibility
            ++ CollectorOutput.warnings gatewayOutput
            ++ CollectorOutput.warnings securityOutput
            ++ CollectorOutput.warnings cronOutput
            ++ CollectorOutput.warnings channelsOutput
            ++ CollectorOutput.warnings agentsOutput
            ++ CollectorOutput.warnings sessionsOutput
            ++ CollectorOutput.warnings repoDriftOutput
            ++ CollectorOutput.warnings versionDriftOutput) |} in
  ({| partialSnapshot := partialSnapshot;
      overall := Status.deriveOverallCard partialSnapshot |},
   snd compatibility).

End Snapshot.

(* ================================================================== *)
(** * Properties of the overall-status deriver *)
(* ================================================================== *)

Section StatusFacts.

Import BoardSnapshot Status.

Lemma metricGreaterThan_zero (m : Metric Z) :
  metricGreaterThan m 0 = true <-> knownPositive m.
Proof.
  unfold metricGreaterThan, knownPositive.
  destruct (known m), (value m) as [v|]; simpl; split.
  - intros H. split; [reflexivity|]. exists v. split; [reflexivity|lia].
  - intros [_ [v' [E H]]]. injection E as <-. lia.
  - discriminate.
  - intros [_ [v' [E _]]]. discriminate.
  - discriminate.
  - intros [E _]. discriminate.
  - discriminate.
  - intros [E _]. discriminate.
Qed.

Lemma metricEqualsBoolean_false (m : Metric bool) :
  metricEqualsBoolean m false = true <-> knownFalse m.
Proof.
  unfold metricEqualsBoolean, knownFalse.
  destruct (known m), (value m) as [[|]|]; simpl; split;
    try discriminate; try tauto; intros [E1 E2]; discriminate.
Qed.

Lemma criticalUnknown_watchList (s : withoutOverall) :
  criticalUnknown s = true <-> watchListUnknown s.
Proof.
  unfold criticalUnknown, watchListUnknown, isUnknown, metricUnknown.
  cbn [existsb asUnknown known].
  rewrite !Bool.orb_true_iff, !Bool.negb_true_iff.
  intuition discriminate.
Qed.

Lemma redCondition_reflect (s : withoutOverall) :
  redCondition s <->
  metricGreaterThan (SecurityCard.critical (security s)) 0 = true \/
  metricGreaterThan (CronCard.failingOrRecentErrorCount (cron s)) 0 = true \/
  metricEqualsBoolean (GatewayCard.reachable (gateway s)) false = true.
Proof.
  unfold redCondition.
  rewrite !metricGreaterThan_zero, metricEqualsBoolean_false. tauto.
Qed.

Lemma amberValueCondition_reflect (s : withoutOverall) :
  amberValueCondition s <->
  metricGreaterThan (SecurityCard.warning (security s)) 0 = true \/
  metricEqualsBoolean (RepoDriftCard.clean (repoDrift s)) false = true \/
  metricGreaterThan (RepoDriftCard.behindCount (repoDrift s)) 0 = true.
Proof.
  unfold amberValueCondition.
  rewrite !metricGreaterThan_zero, metricEqualsBoolean_false. tauto.
Qed.

(** Case analysis on the three RED triggers, and on the three value-based
    AMBER triggers, of a snapshot. *)
Ltac red_cases s :=
  destruct (metricGreaterThan (SecurityCard.critical (security s)) 0),
           (metricGreaterThan (CronCard.failingOrRecentErrorCount (cron s)) 0),
           (metricEqualsBoolean (GatewayCard.reachable (gateway s)) false).

Ltac amber_cases s :=
  destruct (metricGreaterThan (SecurityCard.warning (security s)) 0),
           (metricEqualsBoolean (RepoDriftCard.clean (repoDrift s)) false),
           (metricGreaterThan (RepoDriftCard.behindCount (repoDrift s)) 0).

Ltac run_filter :=
  cbn [filter nonEmpty String.length Nat.ltb Nat.leb List.length
       OverallCard.reasons OverallCard.level].

(** Without a RED condition the RED reasons are empty. *)
Lemma redReasons_nil (s : withoutOverall) :
  ~ redCondition s -> redReasons s = [].
Proof.
  rewrite redCondition_reflect. unfold redReasons.
  red_cases s; intros H; try reflexivity; exfalso; apply H; auto.
Qed.

(** C1. [deriveOverallCard] returns RED exactly when security.critical is
    known and positive, or cron.failingOrRecentErrorCount is known and
    positive, or gateway.reachable is known and false. When it does, the
    reasons are exactly the RED-class reasons whose condition holds, each
    once, and no AMBER-class reason is among them. When the three metrics
    are all unknown the level is not RED. *)
Theorem deriveOverallCard_red (s : withoutOverall) :
  (OverallCard.level (deriveOverallCard s) = RED <-> redCondition s) /\
  (OverallCard.level (deriveOverallCard s) = RED ->
     (forall r : string,
        In r (OverallCard.reasons (deriveOverallCard s)) <->
        (r = "critical security findings > 0" /\
           knownPositive (SecurityCard.critical (security s))) \/
        (r = "failing cron jobs > 0" /\
           knownPositive (CronCard.failingOrRecentErrorCount (cron s))) \/
        (r = "gateway unreachable" /\
           knownFalse (GatewayCard.reachable (gateway s)))) /\
     NoDup (OverallCard.reasons (deriveOverallCard s)) /\
     (forall r : string,
        In r amberClass -> ~ In r (OverallCard.reasons (deriveOverallCard s)))) /\
  (isUnknown (SecurityCard.critical (security s)) /\
   isUnknown (CronCard.failingOrRecentErrorCount (cron s)) /\
   isUnknown (GatewayCard.reachable (gateway s)) ->
   OverallCard.level (deriveOverallCard s) <> RED).
Proof.
  assert (Hlevel : OverallCard.level (deriveOverallCard s) = RED <-> redCondition s).
  { rewrite redCondition_reflect. unfold deriveOverallCard, redReasons.
    red_cases s; run_filter; try (split; [auto | reflexivity]).
    split.
    - destruct (amberReasons s); discriminate.
    - intros [H|[H|H]]; discriminate. }
  split; [exact Hlevel|]. split.
  - intros Hred.
    unfold amberClass.
    pose proof (metricGreaterThan_zero (SecurityCard.critical (security s))) as E1.
    pose proof (metricGreaterThan_zero
                  (CronCard.failingOrRecentErrorCount (cron s))) as E2.
    pose proof (metricEqualsBoolean_false (GatewayCard.reachable (gateway s))) as E3.
    revert Hred. unfold deriveOverallCard, redReasons.
    red_cases s; run_filter; intros Hred;
      try (destruct (amberReasons s); discriminate Hred);
      (split; [| split]);
      try (repeat constructor; cbn [In]; intuition discriminate);
      try (intros r; cbn [In]; destruct E1, E2, E3;
           intuition (subst; try discriminate; auto));
      try (intros r Hin Hr; cbn [In] in Hin, Hr;
           intuition (subst; discriminate)).
  - intros (H1 & H2 & H3) Hred. apply Hlevel in Hred.
    unfold isUnknown in *. unfold redCondition, knownPositive, knownFalse in Hred.
    destruct Hred as [[E _]|[[E _]|[E _]]]; congruence.
Qed.

(** The scenario of the specification: one critical finding together with
    two warning findings yields RED with the single critical reason. *)
Lemma deriveOverallCard_red_witness :
  OverallCard.level (deriveOverallCard criticalSnapshot) = RED /\
  (forall r : string,
     In r amberClass ->
     ~ In r (OverallCard.reasons (deriveOverallCard criticalSnapshot))).
Proof.
  pose proof (deriveOverallCard_red criticalSnapshot) as (Hiff & Hreasons & _).
  assert (Hred : OverallCard.level (deriveOverallCard criticalSnapshot) = RED)
    by reflexivity.
  split; [exact Hred|]. apply (Hreasons Hred).
Defined.

(** C2. Without a RED condition, as soon as one of the nine watch-list
    metrics is unknown the verdict is AMBER and the reason "unknown state
    in critical cards" occurs exactly once, however many of the nine are
    unknown; when no value-based AMBER trigger holds it is the only reason. *)
Theorem deriveOverallCard_unknown_amber (s : withoutOverall) :
  ~ redCondition s ->
  watchListUnknown s ->
  OverallCard.level (deriveOverallCard s) = AMBER /\
  count_occ string_dec (OverallCard.reasons (deriveOverallCard s))
            "unknown state in critical cards" = 1%nat /\
  (~ amberValueCondition s ->
   OverallCard.reasons (deriveOverallCard s) =
     ["unknown state in critical cards"]).
Proof.
  intros Hred Hwatch.
  apply criticalUnknown_watchList in Hwatch.
  rewrite amberValueCondition_reflect.
  unfold deriveOverallCard. rewrite (redReasons_nil s Hred).
  cbn [List.length Nat.ltb Nat.leb]. unfold amberReasons. rewrite Hwatch.
  amber_cases s; run_filter;
    (split; [reflexivity | split; [reflexivity |]]);
    intros H; try reflexivity; exfalso; apply H; auto.
Qed.

Lemma deriveOverallCard_unknown_amber_witness :
  OverallCard.level (deriveOverallCard versionsUnknownSnapshot) = AMBER /\
  count_occ string_dec
    (OverallCard.reasons (deriveOverallCard versionsUnknownSnapshot))
    "unknown state in critical cards" = 1%nat.
Proof.
  assert (Hred : ~ redCondition versionsUnknownSnapshot).
  { rewrite redCondition_reflect. vm_compute. intuition discriminate. }
  assert (Hwatch : watchListUnknown versionsUnknownSnapshot).
  { unfold watchListUnknown, isUnknown. do 7 right. left. reflexivity. }
  destruct (deriveOverallCard_unknown_amber versionsUnknownSnapshot Hred Hwatch)
    as (Hlevel & Hcount & _).
  split; assumption.
Defined.

(** C3. With no RED condition, no value-based AMBER trigger and all nine
    watch-list metrics known, the verdict is GREEN and its reasons are the
    one-element list ["all health checks passed"]. *)
Theorem deriveOverallCard_green (s : withoutOverall) :
  ~ redCondition s ->
  ~ amberValueCondition s ->
  ~ watchListUnknown s ->
  deriveOverallCard s =
    {| OverallCard.level := GREEN;
       OverallCard.reasons := ["all health checks passed"] |}.
Proof.
  intros Hred Hamber Hwatch.
  rewrite amberValueCondition_reflect in Hamber.
  rewrite <- criticalUnknown_watchList in Hwatch.
  unfold deriveOverallCard. rewrite (redReasons_nil s Hred).
  cbn [List.length Nat.ltb Nat.leb]. unfold amberReasons.
  destruct (criticalUnknown s); [exfalso; apply Hwatch; reflexivity|].
  amber_cases s; try reflexivity; exfalso; apply Hamber; auto.
Qed.

Lemma deriveOverallCard_green_witness :
  deriveOverallCard healthySnapshot =
    {| OverallCard.level := GREEN;
       OverallCard.reasons := ["all health checks passed"] |}.
Proof.
  apply (deriveOverallCard_green healthySnapshot).
  - rewrite redCondition_reflect. vm_compute. intuition discriminate.
  - rewrite amberValueCondition_reflect. vm_compute. intuition discriminate.
  - rewrite <- criticalUnknown_watchList. vm_compute. discriminate.
Defined.

End StatusFacts.

(* ================================================================== *)
(** * Properties of the repo-drift aggregator *)
(* ================================================================== *)

Section RepoDriftFacts.

Import RepoWorkspaceDrift RepoDrift.

Lemma knownDirtyb_spec (w : RepoWorkspaceDrift.t) :
  knownDirtyb w = true <-> knownDirty w.
Proof.
  unfold knownDirtyb, knownDirty, valueIs.
  destruct (known (clean w)), (value (clean w)) as [[|]|]; simpl;
    intuition discriminate.
Qed.

(** Whether the list of known values includes [false]. *)
Lemma knownValues_include_false (metrics : list (Metric bool)) :
  existsb (fun v => Bool.eqb v false)
    (map (fun metric => valueIs metric true)
       (filter (fun metric => known metric && hasValue metric) metrics))
  = existsb (fun metric => known metric && valueIs metric false) metrics.
Proof.
  unfold valueIs, hasValue.
  induction metrics as [|m rest IH]; [reflexivity|].
  destruct m as [k why [[|]|]]; destruct k; simpl; rewrite ?IH; reflexivity.
Qed.

Lemma existsb_knownDirtyb (ws : list RepoWorkspaceDrift.t) :
  existsb (fun metric => known metric && valueIs metric false)
          (map (fun workspace => clean workspace) ws)
  = existsb knownDirtyb ws.
Proof.
  induction ws as [|w rest IH]; [reflexivity|].
  cbn [map existsb]. rewrite IH. reflexivity.
Qed.

(** The head of a filtered list is an element that passes the test. *)
Lemma filter_head {A : Type} (f : A -> bool) (l : list A) (x : A) (t : list A) :
  filter f l = x :: t -> In x l /\ f x = true.
Proof.
  intros E. apply filter_In. rewrite E. left. reflexivity.
Qed.

Lemma filter_nil_none {A : Type} (f : A -> bool) (l : list A) :
  filter f l = [] -> forall x, In x l -> f x = false.
Proof.
  intros E x Hin. destruct (f x) eqn:Hf; [|reflexivity].
  assert (Hx : In x (filter f l)) by (apply filter_In; auto).
  rewrite E in Hx. destruct Hx.
Qed.

Lemma dirtyWorkspaces_filter (ws : list RepoWorkspaceDrift.t) :
  (forall w, In w ws -> known (clean w) = true) ->
  Z.of_nat (List.length
     (filter (fun workspace => valueIs (clean workspace) false) ws))
  = dirtyWorkspaces ws.
Proof.
  induction ws as [|w rest IH]; intros Hall; [reflexivity|].
  cbn [filter dirtyWorkspaces]. unfold knownDirtyb.
  rewrite (Hall w (or_introl eq_refl)). cbn [andb].
  assert (Hrest : forall w', In w' rest -> known (clean w') = true)
    by (intros w' Hin; apply Hall; right; exact Hin).
  specialize (IH Hrest).
  destruct (valueIs (clean w) false); cbn [List.length]; lia.
Qed.

Lemma resolvedRoots_filter (ws : list RepoWorkspaceDrift.t) :
  Z.of_nat (List.length
     (filter (fun workspace => known (repositoryRoot workspace)) ws))
  = resolvedRoots ws.
Proof.
  induction ws as [|w rest IH]; [reflexivity|].
  cbn [filter resolvedRoots].
  destruct (known (repositoryRoot w)); cbn [List.length]; lia.
Qed.

Lemma resolvedRoots_bounds (ws : list RepoWorkspaceDrift.t) :
  0 <= resolvedRoots ws <= Z.of_nat (List.length ws).
Proof.
  induction ws as [|w rest IH]; cbn [resolvedRoots List.length]; [lia|].
  destruct (known (repositoryRoot w)); lia.
Qed.

Lemma nonempty_length {A : Type} (l : list A) :
  l <> [] -> (List.length l =? 0)%nat = false.
Proof.
  destruct l; [congruence | reflexivity].
Qed.

(** C4. For a non-empty list of workspace records: the aggregated [clean]
    is known-false as soon as one workspace is known-dirty, whatever the
    others are; with no known-dirty workspace and one of unknown
    cleanliness it is unknown, with the reason of such a workspace; else it
    is known-true. [dirtyCount] is known exactly when every workspace's
    cleanliness is known, and then counts the known-dirty workspaces. One
    known-dirty and one unknown workspace give [clean] known-false and
    [dirtyCount] unknown. *)
Theorem aggregateRepoDrift_clean_dirtyCount
    (ws : list RepoWorkspaceDrift.t) (r : string) :
  ws <> [] ->
  ((exists w, In w ws /\ knownDirty w) ->
     RepoDriftCard.clean (aggregateRepoDrift ws r) = knownMetric false) /\
  ((forall w, In w ws -> ~ knownDirty w) ->
   (exists w, In w ws /\ cleanUnknown w) ->
     known (RepoDriftCard.clean (aggregateRepoDrift ws r)) = false /\
     value (RepoDriftCard.clean (aggregateRepoDrift ws r)) = None /\
     exists w, In w ws /\ cleanUnknown w /\
       reason (RepoDriftCard.clean (aggregateRepoDrift ws r))
       = Some (nullish (reason (clean w)) "repo cleanliness unknown")) /\
  ((forall w, In w ws -> ~ knownDirty w) ->
   (forall w, In w ws -> ~ cleanUnknown w) ->
     RepoDriftCard.clean (aggregateRepoDrift ws r) = knownMetric true) /\
  (known (RepoDriftCard.dirtyCount (aggregateRepoDrift ws r)) = true <->
     forall w, In w ws -> known (clean w) = true) /\
  ((forall w, In w ws -> known (clean w) = true) ->
     RepoDriftCard.dirtyCount (aggregateRepoDrift ws r)
     = knownMetric (dirtyWorkspaces ws)) /\
  (forall a b : RepoWorkspaceDrift.t,
     ws = [a; b] -> knownDirty a -> cleanUnknown b ->
     RepoDriftCard.clean (aggregateRepoDrift ws r) = knownMetric false /\
     known (RepoDriftCard.dirtyCount (aggregateRepoDrift ws r)) = false).
Proof.
  intros Hne.
  assert (Hclean : RepoDriftCard.clean (aggregateRepoDrift ws r)
                   = aggregateBooleanMetric
                       (map (fun workspace => clean workspace) ws)
                       "repo cleanliness unknown").
  { unfold aggregateRepoDrift. rewrite (nonempty_length ws Hne). reflexivity. }
  assert (Hdirty : RepoDriftCard.dirtyCount (aggregateRepoDrift ws r)
                   = if forallb (fun workspace => known (clean workspace)) ws
                     then knownMetric
                            (Z.of_nat (List.length
                               (filter (fun workspace =>
                                          valueIs (clean workspace) false) ws)))
                     else unknownMetric
                            "dirty count unavailable from one or more repositories").
  { unfold aggregateRepoDrift. rewrite (nonempty_length ws Hne). reflexivity. }
  assert (Hsome : (exists w, In w ws /\ knownDirty w) ->
                  RepoDriftCard.clean (aggregateRepoDrift ws r) = knownMetric false).
  { intros (w & Hin & Hw). rewrite Hclean. unfold aggregateBooleanMetric.
    rewrite knownValues_include_false, existsb_knownDirtyb.
    replace (existsb knownDirtyb ws) with true; [reflexivity|].
    symmetry. apply existsb_exists. exists w. split; [exact Hin|].
    apply knownDirtyb_spec. exact Hw. }
  assert (Hnone : (forall w, In w ws -> ~ knownDirty w) ->
                  existsb knownDirtyb ws = false).
  { intros Hno. destruct (existsb knownDirtyb ws) eqn:E; [|reflexivity].
    apply existsb_exists in E. destruct E as (w & Hin & Hw).
    exfalso. apply (Hno w Hin). apply knownDirtyb_spec. exact Hw. }
  assert (Hknown : forallb (fun workspace => known (clean workspace)) ws = true <->
                   forall w, In w ws -> known (clean w) = true)
    by apply forallb_forall.
  split; [exact Hsome|]. split; [|split; [|split; [|split]]].
  - intros Hno (w & Hin & Hw). rewrite Hclean. unfold aggregateBooleanMetric.
    rewrite knownValues_include_false, existsb_knownDirtyb, (Hnone Hno).
    destruct (filter (fun metric => negb (known metric))
                     (map (fun workspace => clean workspace) ws))
      as [|m rest] eqn:Hf.
    + exfalso.
      assert (Hm : negb (known (clean w)) = false).
      { apply (filter_nil_none _ _ Hf). apply in_map_iff. exists w. auto. }
      unfold cleanUnknown in Hw. rewrite Hw in Hm. discriminate.
    + cbn [List.length Nat.ltb Nat.leb firstReason]. simpl.
      split; [reflexivity|]. split; [reflexivity|].
      apply filter_head in Hf. destruct Hf as [Hm Hk].
      apply in_map_iff in Hm. destruct Hm as (w' & <- & Hin').
      exists w'. split; [exact Hin'|]. split; [|reflexivity].
      unfold cleanUnknown. destruct (known (clean w')); [discriminate|reflexivity].
  - intros Hno Hall. rewrite Hclean. unfold aggregateBooleanMetric.
    rewrite knownValues_include_false, existsb_knownDirtyb, (Hnone Hno).
    destruct (filter (fun metric => negb (known metric))
                     (map (fun workspace => clean workspace) ws))
      as [|m rest] eqn:Hf; [reflexivity|].
    exfalso. apply filter_head in Hf. destruct Hf as [Hm Hk].
    apply in_map_iff in Hm. destruct Hm as (w' & <- & Hin').
    apply (Hall w' Hin'). unfold cleanUnknown.
    destruct (known (clean w')); [discriminate|reflexivity].
  - rewrite Hdirty, <- Hknown.
    destruct (forallb (fun workspace => known (clean workspace)) ws);
      simpl; intuition discriminate.
  - intros Hall. rewrite Hdirty. rewrite (proj2 Hknown Hall).
    rewrite (dirtyWorkspaces_filter ws Hall). reflexivity.
  - intros a b -> Ha Hb. split.
    + apply Hsome. exists a. split; [left; reflexivity | exact Ha].
    + rewrite Hdirty. unfold cleanUnknown in Hb. destruct Ha as [Ha _].
      cbn [forallb]. rewrite Ha, Hb. reflexivity.
Qed.

(** The dirty-decisiveness scenario: a dirty workspace next to one whose
    [git status] failed. *)
Lemma aggregateRepoDrift_clean_dirtyCount_witness :
  RepoDriftCard.clean (aggregateRepoDrift dirtyAndUnknown "missing")
  = knownMetric false /\
  known (RepoDriftCard.dirtyCount (aggregateRepoDrift dirtyAndUnknown "missing"))
  = false.
Proof.
  assert (Hne : dirtyAndUnknown <> []) by discriminate.
  destruct (aggregateRepoDrift_clean_dirtyCount dirtyAndUnknown "missing" Hne)
    as (_ & _ & _ & _ & _ & Hpair).
  apply (Hpair _ _ eq_refl).
  - split; reflexivity.
  - reflexivity.
Defined.

(** C5. On the empty workspace list every metric of the card is unknown
    with the caller's reason and the card lists no workspace. On a
    non-empty list [repositoryCount] is a known metric whose value is the
    number of workspaces with a known [repositoryRoot], between 0 and the
    length of the list, whatever the other metrics of the workspaces are. *)
Theorem aggregateRepoDrift_empty_repositoryCount :
  (forall r : string,
     aggregateRepoDrift [] r =
       {| RepoDriftCard.aheadCount := unknownMetric r;
          RepoDriftCard.behindCount := unknownMetric r;
          RepoDriftCard.clean := unknownMetric r;
          RepoDriftCard.dirtyCount := unknownMetric r;
          RepoDriftCard.repositoryCount := unknownMetric r;
          RepoDriftCard.workspaces := [] |}) /\
  (forall (ws : list RepoWorkspaceDrift.t) (r : string),
     ws <> [] ->
     RepoDriftCard.repositoryCount (aggregateRepoDrift ws r)
     = knownMetric (resolvedRoots ws) /\
     0 <= resolvedRoots ws <= Z.of_nat (List.length ws)).
Proof.
  split.
  - intros r. reflexivity.
  - intros ws r Hne. split; [|apply resolvedRoots_bounds].
    unfold aggregateRepoDrift. rewrite (nonempty_length ws Hne).
    cbn [RepoDriftCard.repositoryCount]. rewrite resolvedRoots_filter.
    reflexivity.
Qed.

(** Two workspaces of which only one resolved its repository root. *)
Lemma aggregateRepoDrift_empty_repositoryCount_witness :
  RepoDriftCard.repositoryCount
    (aggregateRepoDrift
       [ notARepository "/workspace/a";
         inspectedWorkspace "/workspace/b" "/repo/b" true 0 0 ] "missing")
  = knownMetric 1.
Proof.
  apply (proj2 aggregateRepoDrift_empty_repositoryCount
           [ notARepository "/workspace/a";
             inspectedWorkspace "/workspace/b" "/repo/b" true 0 0 ] "missing").
  discriminate.
Defined.

Lemma aggregateBooleanMetric_swap_reading (a b : Metric bool) (r : string) :
  sameReading (aggregateBooleanMetric [a; b] r)
              (aggregateBooleanMetric [b; a] r).
Proof.
  destruct a as [ka ra [[|]|]], b as [kb rb [[|]|]]; destruct ka, kb;
    split; reflexivity.
Qed.

Lemma aggregateBooleanMetric_swap (a b : Metric bool) (r : string) :
  ~ (known a = false /\ known b = false) ->
  aggregateBooleanMetric [a; b] r = aggregateBooleanMetric [b; a] r.
Proof.
  destruct a as [ka ra [[|]|]], b as [kb rb [[|]|]]; destruct ka, kb;
    intros H; try reflexivity; exfalso; apply H; split; reflexivity.
Qed.

Lemma aggregateCountMetric_swap_reading (a b : Metric Z) (r : string) :
  sameReading (aggregateCountMetric [a; b] r)
              (aggregateCountMetric [b; a] r).
Proof.
  destruct a as [ka ra [va|]], b as [kb rb [vb|]]; destruct ka, kb;
    split; try reflexivity.
  unfold aggregateCountMetric; simpl. f_equal. lia.
Qed.

Lemma aggregateCountMetric_swap (a b : Metric Z) (r : string) :
  ~ (countMissing a /\ countMissing b) ->
  aggregateCountMetric [a; b] r = aggregateCountMetric [b; a] r.
Proof.
  unfold countMissing.
  destruct a as [ka ra [va|]], b as [kb rb [vb|]]; destruct ka, kb;
    simpl; intros H; try reflexivity;
    try (exfalso; apply H; split; auto; fail).
  unfold aggregateCountMetric, knownMetric; simpl. do 2 f_equal. lia.
Qed.

(** The reason of an unknown boolean aggregate of a pair: the first
    metric's when it is unknown, else the second's. *)
Lemma aggregateBooleanMetric_pair_reason (a b : Metric bool) (r : string) :
  (known a = false -> ~ (known b = true /\ value b = Some false) ->
   aggregateBooleanMetric [a; b] r = unknownMetric (nullish (reason a) r)) /\
  (known a = true -> value a <> Some false -> known b = false ->
   aggregateBooleanMetric [a; b] r = unknownMetric (nullish (reason b) r)).
Proof.
  destruct a as [ka ra [[|]|]], b as [kb rb [[|]|]]; destruct ka, kb;
    split; intros; try discriminate; try reflexivity;
    try congruence; exfalso; auto.
Qed.

(** The reason of an unknown count aggregate of a pair. *)
Lemma aggregateCountMetric_pair_reason (a b : Metric Z) (r : string) :
  (countMissing a ->
   aggregateCountMetric [a; b] r = unknownMetric (nullish (reason a) r)) /\
  (~ countMissing a -> countMissing b ->
   aggregateCountMetric [a; b] r = unknownMetric (nullish (reason b) r)).
Proof.
  unfold countMissing.
  destruct a as [ka ra [va|]], b as [kb rb [vb|]]; destruct ka, kb;
    split; cbn [known value]; intros; try reflexivity;
    try (exfalso; intuition congruence).
Qed.

(** C6, as the code has it. Swapping two workspace records leaves
    [dirtyCount] and [repositoryCount] identical and leaves the known flag
    and the value of [clean], [aheadCount] and [behindCount] identical.
    The reason of an unknown [clean], [aheadCount] or [behindCount] is
    taken from the first workspace in list order that lacks the metric
    (the first record when it lacks it, else the second), so these three
    metrics are identical as well unless both workspaces lack the
    metric. *)
Theorem aggregateRepoDrift_swap (a b : RepoWorkspaceDrift.t) (r : string) :
  RepoDriftCard.dirtyCount (aggregateRepoDrift [a; b] r)
    = RepoDriftCard.dirtyCount (aggregateRepoDrift [b; a] r) /\
  RepoDriftCard.repositoryCount (aggregateRepoDrift [a; b] r)
    = RepoDriftCard.repositoryCount (aggregateRepoDrift [b; a] r) /\
  sameReading (RepoDriftCard.clean (aggregateRepoDrift [a; b] r))
              (RepoDriftCard.clean (aggregateRepoDrift [b; a] r)) /\
  sameReading (RepoDriftCard.aheadCount (aggregateRepoDrift [a; b] r))
              (RepoDriftCard.aheadCount (aggregateRepoDrift [b; a] r)) /\
  sameReading (RepoDriftCard.behindCount (aggregateRepoDrift [a; b] r))
              (RepoDriftCard.behindCount (aggregateRepoDrift [b; a] r)) /\
  (~ (cleanUnknown a /\ cleanUnknown b) ->
   RepoDriftCard.clean (aggregateRepoDrift [a; b] r)
     = RepoDriftCard.clean (aggregateRepoDrift [b; a] r)) /\
  (~ (countMissing (aheadCount a) /\ countMissing (aheadCount b)) ->
   RepoDriftCard.aheadCount (aggregateRepoDrift [a; b] r)
     = RepoDriftCard.aheadCount (aggregateRepoDrift [b; a] r)) /\
  (~ (countMissing (behindCount a) /\ countMissing (behindCount b)) ->
   RepoDriftCard.behindCount (aggregateRepoDrift [a; b] r)
     = RepoDriftCard.behindCount (aggregateRepoDrift [b; a] r)) /\
  (cleanUnknown a -> ~ knownDirty b ->
   RepoDriftCard.clean (aggregateRepoDrift [a; b] r)
     = unknownMetric (nullish (reason (clean a)) "repo cleanliness unknown")) /\
  (known (clean a) = true -> ~ knownDirty a -> cleanUnknown b ->
   RepoDriftCard.clean (aggregateRepoDrift [a; b] r)
     = unknownMetric (nullish (reason (clean b)) "repo cleanliness unknown")) /\
  (countMissing (aheadCount a) ->
   RepoDriftCard.aheadCount (aggregateRepoDrift [a; b] r)
     = unknownMetric (nullish (reason (aheadCount a)) "ahead count unknown")) /\
  (~ countMissing (aheadCount a) -> countMissing (aheadCount b) ->
   RepoDriftCard.aheadCount (aggregateRepoDrift [a; b] r)
     = unknownMetric (nullish (reason (aheadCount b)) "ahead count unknown")) /\
  (countMissing (behindCount a) ->
   RepoDriftCard.behindCount (aggregateRepoDrift [a; b] r)
     = unknownMetric (nullish (reason (behindCount a)) "behind count unknown")) /\
  (~ countMissing (behindCount a) -> countMissing (behindCount b) ->
   RepoDriftCard.behindCount (aggregateRepoDrift [a; b] r)
     = unknownMetric (nullish (reason (behindCount b)) "behind count unknown")).
Proof.
  unfold aggregateRepoDrift.
  cbn [List.length Nat.eqb map RepoDriftCard.dirtyCount
       RepoDriftCard.repositoryCount RepoDriftCard.clean
       RepoDriftCard.aheadCount RepoDriftCard.behindCount].
  repeat match goal with |- _ /\ _ => split end.
  - cbn [forallb filter].
    destruct (known (clean a)), (known (clean b)),
             (valueIs (clean a) false), (valueIs (clean b) false);
      reflexivity.
  - cbn [filter].
    destruct (known (repositoryRoot a)), (known (repositoryRoot b));
      reflexivity.
  - apply aggregateBooleanMetric_swap_reading.
  - apply aggregateCountMetric_swap_reading.
  - apply aggregateCountMetric_swap_reading.
  - apply aggregateBooleanMetric_swap.
  - apply aggregateCountMetric_swap.
  - apply aggregateCountMetric_swap.
  - unfold cleanUnknown, knownDirty.
    apply (proj1 (aggregateBooleanMetric_pair_reason (clean a) (clean b) _)).
  - unfold cleanUnknown, knownDirty. intros Hk Hd.
    apply (proj2 (aggregateBooleanMetric_pair_reason (clean a) (clean b) _));
      [exact Hk|]. intros Hv. apply Hd. split; assumption.
  - apply (proj1 (aggregateCountMetric_pair_reason
                    (aheadCount a) (aheadCount b) _)).
  - apply (proj2 (aggregateCountMetric_pair_reason
                    (aheadCount a) (aheadCount b) _)).
  - apply (proj1 (aggregateCountMetric_pair_reason
                    (behindCount a) (behindCount b) _)).
  - apply (proj2 (aggregateCountMetric_pair_reason
                    (behindCount a) (behindCount b) _)).
Qed.

(** Two workspaces that are not git repositories: the surfaced reason of
    the aggregated [clean] names the one listed first. *)
Lemma aggregateRepoDrift_swap_counterexample :
  RepoDriftCard.clean
    (aggregateRepoDrift
       [notARepository "/workspace/a"; notARepository "/workspace/b"]
       "no repositories discovered")
  <>
  RepoDriftCard.clean
    (aggregateRepoDrift
       [notARepository "/workspace/b"; notARepository "/workspace/a"]
       "no repositories discovered").
Proof.
  vm_compute. discriminate.
Qed.

(** A dirty workspace and a workspace without repository give the same
    [clean] in both orders; two workspaces without repository surface the
    reason of the one listed first. *)
Lemma aggregateRepoDrift_swap_witness :
  RepoDriftCard.clean
    (aggregateRepoDrift
       [ inspectedWorkspace "/workspace/a" "/repo/a" false 1 0;
         notARepository "/workspace/b" ] "missing")
  = RepoDriftCard.clean
      (aggregateRepoDrift
         [ notARepository "/workspace/b";
           inspectedWorkspace "/workspace/a" "/repo/a" false 1 0 ] "missing") /\
  RepoDriftCard.clean
    (aggregateRepoDrift
       [ notARepository "/workspace/a"; notARepository "/workspace/b" ]
       "missing")
  = unknownMetric "workspace is not a git repository: /workspace/a" /\
  RepoDriftCard.behindCount
    (aggregateRepoDrift
       [ inspectedWorkspace "/workspace/a" "/repo/a" true 0 0;
         notARepository "/workspace/b" ] "missing")
  = unknownMetric "workspace is not a git repository: /workspace/b".
Proof.
  split; [|split].
  - apply (aggregateRepoDrift_swap
             (inspectedWorkspace "/workspace/a" "/repo/a" false 1 0)
             (notARepository "/workspace/b") "missing").
    intros [H _]. discriminate H.
  - apply (aggregateRepoDrift_swap
             (notARepository "/workspace/a")
             (notARepository "/workspace/b") "missing").
    + reflexivity.
    + intros [H _]. discriminate H.
  - apply (aggregateRepoDrift_swap
             (inspectedWorkspace "/workspace/a" "/repo/a" true 0 0)
             (notARepository "/workspace/b") "missing").
    + intros [H | H]; discriminate H.
    + left. reflexivity.
Defined.

End RepoDriftFacts.

(* ================================================================== *)
(** * Properties of the warning deduplication *)
(* ================================================================== *)

Section DedupFacts.

Import Dedup.

Lemma pipeFree_cons (c : ascii) (s : string) :
  pipeFree (String c s) -> c <> "|"%char /\ pipeFree s.
Proof.
  intros H. split.
  - intros ->. apply (H 0%nat). reflexivity.
  - intros n. apply (H (S n)).
Qed.

(** A pipe-free prefix is determined by the first ["|"] of the joined
    string. *)
Lemma pipe_prefix_unique (a b t u : string) :
  pipeFree a -> pipeFree b ->
  (a ++ String "|" t)%string = (b ++ String "|" u)%string ->
  a = b /\ t = u.
Proof.
  revert b. induction a as [|c a IH]; intros [|d b] Ha Hb E; simpl in E.
  - injection E as ->. split; reflexivity.
  - injection E as <- _. apply pipeFree_cons in Hb. destruct Hb as [Hd _].
    exfalso. apply Hd. reflexivity.
  - injection E as -> _. apply pipeFree_cons in Ha. destruct Ha as [Hc _].
    exfalso. apply Hc. reflexivity.
  - injection E as -> E. apply pipeFree_cons in Ha, Hb.
    destruct Ha as [_ Ha], Hb as [_ Hb].
    destruct (IH b Ha Hb E) as [-> ->]. split; reflexivity.
Qed.

(** On warnings whose source, code and reason hold no ["|"], equal keys
    mean equal identity. *)
Lemma warningKey_identity (a b : BoardWarning.t) :
  headFieldsPipeFree a -> headFieldsPipeFree b ->
  (warningKey a = warningKey b <-> sameIdentity a b).
Proof.
  intros (Ha1 & Ha2 & Ha3) (Hb1 & Hb2 & Hb3).
  unfold warningKey, sameIdentity. cbn [String.concat]. split.
  - intros E.
    apply pipe_prefix_unique in E; [|assumption..]. destruct E as [E1 E].
    apply pipe_prefix_unique in E; [|assumption..]. destruct E as [E2 E].
    apply pipe_prefix_unique in E; [|assumption..]. destruct E as [E3 E].
    auto.
  - intros (-> & -> & -> & ->). reflexivity.
Qed.

Lemma set_absent {V : Type} (m : JsMap.t V) (k : string) (v : V) :
  JsMap.has m k = false -> JsMap.set m k v = m ++ [(k, v)].
Proof.
  unfold JsMap.has.
  induction m as [|[k0 v0] rest IH]; intros H; [reflexivity|].
  cbn [existsb fst] in H. apply Bool.orb_false_iff in H. destruct H as [Hk Hrest].
  cbn [JsMap.set]. rewrite Hk, (IH Hrest). reflexivity.
Qed.

Lemma has_keys {V : Type} (m : JsMap.t V) (k : string) :
  JsMap.has m k = existsb (fun k0 => String.eqb k0 k) (map fst m).
Proof.
  unfold JsMap.has. induction m as [|kv rest IH]; [reflexivity|].
  cbn [existsb map]. rewrite IH. reflexivity.
Qed.

(** The fold of [uniqueWarnings], started from any map. *)
Lemma fold_keptFrom (ws : list BoardWarning.t)
    (acc : JsMap.t BoardWarning.t) :
  JsMap.values
    (fold_left
       (fun accumulator warning =>
          let key := warningKey warning in
          if negb (JsMap.has accumulator key)
          then JsMap.set accumulator key warning
          else accumulator)
       ws acc)
  = JsMap.values acc ++ keptFrom (map fst acc) ws.
Proof.
  revert acc. induction ws as [|w rest IH]; intros acc.
  - cbn [fold_left keptFrom]. rewrite app_nil_r. reflexivity.
  - cbn [fold_left keptFrom]. rewrite <- has_keys.
    destruct (JsMap.has acc (warningKey w)) eqn:Hhas; cbn [negb].
    + apply IH.
    + rewrite (set_absent acc _ w Hhas), IH. unfold JsMap.values.
      rewrite !map_app. cbn [map fst snd]. rewrite <- app_assoc. reflexivity.
Qed.

Lemma uniqueWarnings_keptFrom (ws : list BoardWarning.t) :
  uniqueWarnings ws = keptFrom [] ws.
Proof.
  unfold uniqueWarnings. apply (fold_keptFrom ws JsMap.empty).
Qed.

Lemma seen_reflect (seen : list string) (k : string) :
  existsb (fun k0 => String.eqb k0 k) seen = true <-> In k seen.
Proof.
  rewrite existsb_exists. split.
  - intros (k0 & Hin & E). apply String.eqb_eq in E. subst. exact Hin.
  - intros Hin. exists k. split; [exact Hin | apply String.eqb_refl].
Qed.

Lemma keptFrom_sound (ws : list BoardWarning.t) :
  forall seen w, In w (keptFrom seen ws) ->
                 In w ws /\ ~ In (warningKey w) seen.
Proof.
  induction ws as [|w0 rest IH]; intros seen w Hin; [destruct Hin|].
  cbn [keptFrom] in Hin.
  destruct (existsb (fun k => String.eqb k (warningKey w0)) seen) eqn:E.
  - destruct (IH _ _ Hin) as [H1 H2]. split; [right; exact H1 | exact H2].
  - destruct Hin as [<- | Hin].
    + split; [left; reflexivity|]. intros Hs. apply seen_reflect in Hs.
      rewrite Hs in E. discriminate.
    + destruct (IH _ _ Hin) as [H1 H2]. split; [right; exact H1|].
      intros Hs. apply H2. apply in_or_app. left. exact Hs.
Qed.

Lemma keptFrom_keys_NoDup (ws : list BoardWarning.t) :
  forall seen, NoDup (map warningKey (keptFrom seen ws)).
Proof.
  induction ws as [|w0 rest IH]; intros seen; cbn [keptFrom].
  - constructor.
  - destruct (existsb (fun k => String.eqb k (warningKey w0)) seen); [apply IH|].
    cbn [map]. constructor; [|apply IH].
    intros Hin. apply in_map_iff in Hin. destruct Hin as (w & Hk & Hw).
    apply keptFrom_sound in Hw. destruct Hw as [_ Hw]. apply Hw.
    apply in_or_app. right. left. symmetry. exact Hk.
Qed.

Lemma keptFrom_complete (ws : list BoardWarning.t) :
  forall seen w, In w ws ->
    In (warningKey w) seen \/
    exists w', In w' (keptFrom seen ws) /\ warningKey w' = warningKey w.
Proof.
  induction ws as [|w0 rest IH]; intros seen w Hin; [destruct Hin|].
  cbn [keptFrom].
  destruct (existsb (fun k => String.eqb k (warningKey w0)) seen) eqn:E.
  - destruct Hin as [<- | Hin].
    + left. apply seen_reflect. exact E.
    + apply IH. exact Hin.
  - destruct Hin as [<- | Hin].
    + right. exists w0. split; [left; reflexivity | reflexivity].
    + destruct (IH (seen ++ [warningKey w0]) w Hin) as [Hs | (w' & Hw' & Hk)].
      * apply in_app_or in Hs. destruct Hs as [Hs | [Hs | []]].
        -- left. exact Hs.
        -- right. exists w0. split; [left; reflexivity | exact Hs].
      * right. exists w'. split; [right; exact Hw' | exact Hk].
Qed.

(** The deduplication on two warnings, by their keys. *)
Lemma uniqueWarnings_pair (w1 w2 : BoardWarning.t) :
  uniqueWarnings [w1; w2] =
    if String.eqb (warningKey w1) (warningKey w2) then [w1] else [w1; w2].
Proof.
  rewrite uniqueWarnings_keptFrom. cbn [keptFrom existsb app orb].
  rewrite Bool.orb_false_r.
  destruct (String.eqb (warningKey w1) (warningKey w2)); reflexivity.
Qed.

(** C8, as the code has it. On warnings whose source, code and reason
    hold no ["|"]: every warning of the input is represented in the output
    by a warning of the same identity (source, code, reason, and context
    with an absent context read as the empty string); no two entries of the
    output share an identity; the output holds only warnings of the input;
    and a list of two warnings collapses to its first warning exactly when
    the two have the same identity, and is returned whole otherwise. *)
Theorem uniqueWarnings_collapse (ws : list BoardWarning.t) :
  Forall headFieldsPipeFree ws ->
  (forall w, In w (uniqueWarnings ws) -> In w ws) /\
  (forall w, In w ws ->
     exists w', In w' (uniqueWarnings ws) /\ sameIdentity w' w) /\
  (forall (i j : nat) (x y : BoardWarning.t),
     nth_error (uniqueWarnings ws) i = Some x ->
     nth_error (uniqueWarnings ws) j = Some y ->
     sameIdentity x y -> i = j) /\
  (forall w1 w2 : BoardWarning.t,
     ws = [w1; w2] ->
     (uniqueWarnings ws = [w1] <-> sameIdentity w1 w2) /\
     (~ sameIdentity w1 w2 -> uniqueWarnings ws = [w1; w2])).
Proof.
  intros Hfree. rewrite Forall_forall in Hfree.
  assert (Hsound : forall w, In w (uniqueWarnings ws) -> In w ws).
  { intros w Hin. rewrite uniqueWarnings_keptFrom in Hin.
    apply keptFrom_sound in Hin. tauto. }
  split; [exact Hsound|]. split; [|split].
  - intros w Hin.
    destruct (keptFrom_complete ws [] w Hin) as [[] | (w' & Hw' & Hk)].
    rewrite <- uniqueWarnings_keptFrom in Hw'.
    exists w'. split; [exact Hw'|].
    apply warningKey_identity; auto.
  - intros i j x y Hi Hj Hsame.
    assert (Hx : In x ws) by (apply Hsound; eapply nth_error_In; eassumption).
    assert (Hy : In y ws) by (apply Hsound; eapply nth_error_In; eassumption).
    apply warningKey_identity in Hsame; auto.
    pose proof (keptFrom_keys_NoDup ws []) as Hnd.
    rewrite <- uniqueWarnings_keptFrom in Hnd.
    rewrite NoDup_nth_error in Hnd. apply Hnd.
    + rewrite length_map. apply nth_error_Some. rewrite Hi. discriminate.
    + rewrite !nth_error_map, Hi, Hj. cbn [option_map]. rewrite Hsame.
      reflexivity.
  - intros w1 w2 ->.
    assert (H1 : headFieldsPipeFree w1) by (apply Hfree; left; reflexivity).
    assert (H2 : headFieldsPipeFree w2)
      by (apply Hfree; right; left; reflexivity).
    rewrite <- (warningKey_identity w1 w2 H1 H2), uniqueWarnings_pair.
    destruct (String.eqb (warningKey w1) (warningKey w2)) eqn:E.
    + apply String.eqb_eq in E. split; [tauto | intros H; contradiction].
    + apply String.eqb_neq in E. split; [|reflexivity].
      split; [intros H; discriminate H | intros H; contradiction].
Qed.

Lemma pipeFree_decide (s : string) :
  existsb (fun c => Ascii.eqb c "|") (list_ascii_of_string s) = false ->
  pipeFree s.
Proof.
  induction s as [|c s IH]; intros H n; [destruct n; discriminate|].
  cbn [list_ascii_of_string existsb] in H.
  apply Bool.orb_false_iff in H. destruct H as [Hc Hs].
  destruct n as [|n]; cbn [String.get].
  - intros E. injection E as ->. discriminate Hc.
  - apply (IH Hs).
Qed.

(** Two advisories that differ only in a non-empty context both remain. *)
Lemma uniqueWarnings_collapse_witness :
  uniqueWarnings [advisoryFor "/workspace/a"; advisoryFor "/workspace/b"]
  = [advisoryFor "/workspace/a"; advisoryFor "/workspace/b"].
Proof.
  assert (Hfree : Forall headFieldsPipeFree
                    [advisoryFor "/workspace/a"; advisoryFor "/workspace/b"]).
  { repeat constructor; apply pipeFree_decide; reflexivity. }
  destruct (uniqueWarnings_collapse _ Hfree) as (_ & _ & _ & Hpair).
  apply (Hpair _ _ eq_refl).
  intros (_ & _ & _ & E). discriminate E.
Defined.

(** Two warnings that differ only in their context, one without a
    context and one whose context is the empty string, collapse into one. *)
Lemma uniqueWarnings_context_counterexample :
  BoardWarning.source advisoryWithoutContext
    = BoardWarning.source advisoryWithEmptyContext /\
  BoardWarning.code advisoryWithoutContext
    = BoardWarning.code advisoryWithEmptyContext /\
  BoardWarning.reason advisoryWithoutContext
    = BoardWarning.reason advisoryWithEmptyContext /\
  BoardWarning.severity advisoryWithoutContext
    = BoardWarning.severity advisoryWithEmptyContext /\
  BoardWarning.context advisoryWithoutContext
    <> BoardWarning.context advisoryWithEmptyContext /\
  uniqueWarnings [advisoryWithoutContext; advisoryWithEmptyContext]
    = [advisoryWithoutContext] /\
  ~ In advisoryWithEmptyContext
       (uniqueWarnings [advisoryWithoutContext; advisoryWithEmptyContext]).
Proof.
  repeat split; try reflexivity.
  - discriminate.
  - vm_compute. intros [H | []]. discriminate H.
Qed.

(** The key is a plain join: a ["|"] inside a field is not told apart
    from the separator. *)
Lemma warningKey_separator :
  warningKey (buildWarning "a|b" "c" "r" sev_warn None)
  = warningKey (buildWarning "a" "b|c" "r" sev_warn None).
Proof.
  reflexivity.
Qed.

End DedupFacts.

(* ================================================================== *)
(** * Properties of the dotted-numeric comparison *)
(* ================================================================== *)

Section VersionDriftFacts.

Import VersionDrift.

Lemma Qle_bool_compare (a b : Q) :
  Qle_bool a b = match (a ?= b)%Q with
                 | Gt => false
                 | _ => true
                 end.
Proof.
  destruct (a ?= b)%Q eqn:C.
  - apply Qle_bool_iff, Qle_alt. rewrite C. discriminate.
  - apply Qle_bool_iff, Qle_alt. rewrite C. discriminate.
  - apply Bool.not_true_is_false. intros H.
    apply Qle_bool_iff, Qle_alt in H. apply H. exact C.
Qed.

(** One step of the loop on finite parts, read through the three-way
    comparison. *)
Lemma loop_step (a b : Q) (k : Z) :
  (if Js.gt (Js.Finite a) (Js.Finite b) then 1
   else if Js.lt (Js.Finite a) (Js.Finite b) then -1 else k) =
  match (a ?= b)%Q with
  | Gt => 1
  | Lt => -1
  | Eq => k
  end.
Proof.
  unfold Js.gt, Js.lt. rewrite !Qle_bool_compare, <- (Qcompare_antisym a b).
  destruct (a ?= b)%Q; reflexivity.
Qed.

(** After [toParts] every part is finite: it is the component of the
    specification. *)
Lemma toParts_specComponents (v : string) :
  toParts v = map Js.Finite (specComponents v).
Proof.
  unfold toParts, specComponents. rewrite !map_map.
  apply map_ext. intros c. destruct (Js.Number_ c); reflexivity.
Qed.

Lemma partAt_succ (parts : list Js.number) (index : nat) :
  partAt parts (S index) = partAt (tl parts) index.
Proof.
  unfold partAt. destruct parts as [|p rest]; [destruct index|]; reflexivity.
Qed.

Lemma compareFrom_succ (l r : list Js.number) (remaining index : nat) :
  compareFrom l r remaining (S index)
  = compareFrom (tl l) (tl r) remaining index.
Proof.
  revert index. induction remaining as [|n IH]; intros index; [reflexivity|].
  cbn [compareFrom]. rewrite !partAt_succ, IH. reflexivity.
Qed.

Lemma tl_map_Finite (parts : list Q) :
  tl (map Js.Finite parts) = map Js.Finite (tl parts).
Proof.
  destruct parts; reflexivity.
Qed.

Lemma partAt_zero (parts : list Q) :
  partAt (map Js.Finite parts) 0 = Js.Finite (hd 0%Q parts).
Proof.
  destruct parts; reflexivity.
Qed.

Lemma padTo_succ (n : nat) (parts : list Q) :
  (List.length parts <= S n)%nat ->
  padTo (S n) parts = hd 0%Q parts :: padTo n (tl parts).
Proof.
  unfold padTo. destruct parts as [|p rest]; intros H.
  - cbn [List.length tl hd app Nat.sub repeat].
    rewrite Nat.sub_0_r. reflexivity.
  - cbn [List.length tl hd app Nat.sub]. reflexivity.
Qed.

(** The indexed loop over [maxLength] positions is the lexicographic
    comparison of the zero-padded lists. *)
Lemma compareFrom_lexCompare (n : nat) :
  forall l r : list Q,
    (List.length l <= n)%nat -> (List.length r <= n)%nat ->
    compareFrom (map Js.Finite l) (map Js.Finite r) n 0
    = lexCompare (padTo n l) (padTo n r).
Proof.
  induction n as [|n IH]; intros l r Hl Hr.
  - destruct l, r; cbn in Hl, Hr; try lia. reflexivity.
  - rewrite (padTo_succ n l Hl), (padTo_succ n r Hr).
    cbn [compareFrom lexCompare].
    rewrite compareFrom_succ, !partAt_zero, loop_step.
    rewrite !tl_map_Finite, IH; [reflexivity| |].
    + destruct l; cbn in *; lia.
    + destruct r; cbn in *; lia.
Qed.

Lemma lexCompare_range (l r : list Q) :
  lexCompare l r = -1 \/ lexCompare l r = 0 \/ lexCompare l r = 1.
Proof.
  revert r. induction l as [|a l IH]; intros [|b r]; cbn [lexCompare]; auto.
  destruct (a ?= b)%Q; auto.
Qed.

(** C9. [compareDotVersions] is the comparison the specification words:
    both strings split on ".", each component coerced to a number with a
    non-numeric component counted as 0, the shorter list padded with 0 to
    the longer length, and the two compared component by component from
    the left; the result is -1, 0 or 1. On the three versions of the
    test-suite it gives -1, 0 and 1. *)
Theorem compareDotVersions_spec :
  (forall left right : string,
     compareDotVersions left right = specCompareDotVersions left right /\
     (compareDotVersions left right = -1 \/
      compareDotVersions left right = 0 \/
      compareDotVersions left right = 1)) /\
  compareDotVersions "2026.2.9" "2026.2.12" = -1 /\
  compareDotVersions "1.2.3" "1.2.3" = 0 /\
  compareDotVersions "2.0.0" "1.9.9" = 1.
Proof.
  split; [|repeat split; vm_compute; reflexivity].
  intros left right.
  assert (E : compareDotVersions left right = specCompareDotVersions left right).
  { unfold compareDotVersions, specCompareDotVersions.
    rewrite !toParts_specComponents, !length_map.
    apply compareFrom_lexCompare; lia. }
  split; [exact E|]. rewrite E. apply lexCompare_range.
Qed.

End VersionDriftFacts.

(* ================================================================== *)
(** * Properties of the command bridge and of the security collector *)
(* ================================================================== *)

Section BridgeFacts.

Import OpenClaw.

Variable JSON_parse : string -> Js.parseResult.

Lemma contains_suffix (prefix needle : string) :
  contains (prefix ++ needle) needle.
Proof.
  exists prefix, EmptyString.
  assert (H : forall s : string, (s ++ "")%string = s).
  { induction s as [|c s IH]; [reflexivity|]. simpl. rewrite IH. reflexivity. }
  rewrite H. reflexivity.
Qed.

Lemma string_app_assoc (a b c : string) :
  ((a ++ b) ++ c)%string = (a ++ b ++ c)%string.
Proof.
  induction a as [|x a IH]; [reflexivity|]. simpl. rewrite IH. reflexivity.
Qed.

Lemma string_app_inv_head (a b c : string) :
  (a ++ b)%string = (a ++ c)%string -> b = c.
Proof.
  induction a as [|x a IH]; intros E; [exact E|].
  simpl in E. injection E as E. apply IH. exact E.
Qed.

Lemma trim_nonempty_length (s : string) :
  s <> EmptyString -> (String.length s =? 0)%nat = false.
Proof.
  destruct s; [congruence | reflexivity].
Qed.

Lemma contains_middle (before needle after : string) :
  contains (before ++ needle ++ after) needle.
Proof. exists before, after. reflexivity. Qed.

(** C7. The JSON metric of a command result, case by case.
    - not ok: unknown, with the label, a colon and the failure cause. The
      cause is the recorded reason of the result when it has one; without
      one it is the command, "exited with code", the exit code (or
      "null") and, when the trimmed error output is not empty, that
      output in parentheses. The reason contains the recorded cause,
      respectively the command, the exit code and the error output;
    - ok and blank output: unknown, with "empty output" after the label;
    - ok and output that parses: known with the validated data when the
      schema accepts it, unknown with "schema mismatch" after the label
      when it does not;
    - ok and output that does not parse: unknown, with the message of the
      thrown value after the label ("invalid json" when the thrown value
      is not an error). That reason coincides with the schema-mismatch
      reason exactly when the engine's message is itself the text
      "schema mismatch"; for a thrown value that is not an error it never
      does. *)
Theorem jsonMetricFromCommand_outcomes {T : Type}
    (result : CommandResult) (schema : Schema T) (label : string) :
  (ok result = false ->
     (forall cause : string,
        reason result = Some cause ->
        jsonMetricFromCommand JSON_parse result schema label
          = unknownMetric (label ++ ": " ++ cause)%string /\
        contains (label ++ ": " ++ cause)%string cause) /\
     (reason result = None -> Js.trim (stderr result) = EmptyString ->
        jsonMetricFromCommand JSON_parse result schema label
          = unknownMetric
              (label ++ ": " ++ command result ++ " exited with code "
                 ++ exitCodeText (code result))%string) /\
     (reason result = None -> Js.trim (stderr result) <> EmptyString ->
        jsonMetricFromCommand JSON_parse result schema label
          = unknownMetric
              (label ++ ": " ++ command result ++ " exited with code "
                 ++ exitCodeText (code result)
                 ++ " (" ++ Js.trim (stderr result) ++ ")")%string) /\
     (reason result = None ->
        exists why,
          jsonMetricFromCommand JSON_parse result schema label
            = unknownMetric why /\
          contains why (command result) /\
          contains why (exitCodeText (code result)) /\
          contains why (Js.trim (stderr result)))) /\
  (ok result = true -> Js.trim (stdout result) = EmptyString ->
     jsonMetricFromCommand JSON_parse result schema label
       = unknownMetric (label ++ ": empty output")%string) /\
  (ok result = true -> Js.trim (stdout result) <> EmptyString ->
     forall j : Js.json,
       JSON_parse (Js.trim (stdout result)) = Js.Parsed j ->
       (forall data : T,
          schema j = Some data ->
          jsonMetricFromCommand JSON_parse result schema label
            = knownMetric data) /\
       (schema j = None ->
          jsonMetricFromCommand JSON_parse result schema label
            = unknownMetric (label ++ ": schema mismatch")%string)) /\
  (ok result = true -> Js.trim (stdout result) <> EmptyString ->
     forall e : Js.thrown,
       JSON_parse (Js.trim (stdout result)) = Js.Threw e ->
       jsonMetricFromCommand JSON_parse result schema label
         = unknownMetric (label ++ ": " ++ thrownMessage e)%string /\
       (jsonMetricFromCommand JSON_parse result schema label
          = unknownMetric (label ++ ": schema mismatch")%string <->
        thrownMessage e = "schema mismatch") /\
       (e = Js.ThrownOther ->
        jsonMetricFromCommand JSON_parse result schema label
          = unknownMetric (label ++ ": invalid json")%string /\
        jsonMetricFromCommand JSON_parse result schema label
          <> unknownMetric (label ++ ": schema mismatch")%string)).
Proof.
  unfold jsonMetricFromCommand. split; [|split; [|split]].
  - intros Hok. rewrite Hok. cbn [negb]. unfold commandReason.
    split; [|split; [|split]].
    + intros cause Hc. rewrite Hc. split; [reflexivity|].
      replace (label ++ ": " ++ cause)%string
        with ((label ++ ": ") ++ cause)%string by apply string_app_assoc.
      apply contains_suffix.
    + intros Hnone Herr. rewrite Hnone, Herr. cbn [String.length Nat.ltb Nat.leb].
      unfold exitCodeText.
      assert (H : forall x : string, (x ++ "")%string = x).
      { induction x as [|c x IH]; [reflexivity|]. simpl. rewrite IH. reflexivity. }
      rewrite H. reflexivity.
    + intros Hnone Herr. rewrite Hnone.
      destruct (Js.trim (stderr result)) as [|c rest] eqn:Etrim;
        [congruence|]. reflexivity.
    + intros Hnone. rewrite Hnone. eexists. split; [reflexivity|].
      unfold exitCodeText. split; [|split].
      * exists (label ++ ": ")%string. eexists.
        rewrite string_app_assoc. reflexivity.
      * exists (label ++ ": " ++ command result ++ " exited with code ")%string.
        eexists. rewrite !string_app_assoc. reflexivity.
      * destruct (Js.trim (stderr result)) as [|c rest] eqn:Etrim.
        -- exists EmptyString. eexists. reflexivity.
        -- cbn [String.length Nat.ltb Nat.leb].
           exists (label ++ ": " ++ command result ++ " exited with code "
                     ++ match code result with
                        | Some c0 => Js.stringOfInt c0
                        | None => "null"
                        end ++ " (")%string, ")"%string.
           rewrite !string_app_assoc. reflexivity.
  - intros Hok Hblank. rewrite Hok, Hblank. reflexivity.
  - intros Hok Hout j Hparse.
    rewrite Hok, (trim_nonempty_length _ Hout), Hparse. cbn [negb]. split.
    + intros data Hs. rewrite Hs. reflexivity.
    + intros Hs. rewrite Hs. reflexivity.
  - intros Hok Hout e Hparse.
    rewrite Hok, (trim_nonempty_length _ Hout), Hparse. cbn [negb].
    assert (Hreason :
              unknownMetric (T := T)
                (label ++ ": " ++ match e with
                                  | Js.ThrownError message => message
                                  | Js.ThrownOther => "invalid json"
                                  end)%string
              = unknownMetric (label ++ ": " ++ thrownMessage e)%string)
      by (destruct e; reflexivity).
    split; [exact Hreason|]. rewrite Hreason.
    assert (Hiff : unknownMetric (T := T) (label ++ ": " ++ thrownMessage e)%string
                   = unknownMetric (label ++ ": schema mismatch")%string <->
                   thrownMessage e = "schema mismatch").
    { split.
      - intros E. unfold unknownMetric in E. injection E as E.
        apply string_app_inv_head in E.
        apply (string_app_inv_head ": ") in E. exact E.
      - intros ->. reflexivity. }
    split; [exact Hiff|].
    intros ->. split; [reflexivity|].
    intros E. apply Hiff in E. discriminate E.
Qed.

End BridgeFacts.

(** One run per outcome, read against [z.number()]: a missing binary, a
    non-zero exit that left error output between blanks, blank output, a text that is
    not JSON, JSON of the wrong shape, and a number between blanks. *)
Lemma jsonMetricFromCommand_outcomes_witness :
  OpenClaw.jsonMetricFromCommand OpenClaw.literalParse
    (OpenClaw.failedBecause "openclaw not found") OpenClaw.numberSchema "status"
  = unknownMetric "status: openclaw not found" /\
  OpenClaw.jsonMetricFromCommand OpenClaw.literalParse
    (OpenClaw.exitedWith 2 "  unknown command ")
    OpenClaw.numberSchema "status"
  = unknownMetric "status: openclaw exited with code 2 (unknown command)" /\
  OpenClaw.jsonMetricFromCommand OpenClaw.literalParse
    (OpenClaw.succeeded "  ") OpenClaw.numberSchema "status"
  = unknownMetric "status: empty output" /\
  (OpenClaw.jsonMetricFromCommand OpenClaw.literalParse
     (OpenClaw.succeeded "{") OpenClaw.numberSchema "status"
   = unknownMetric "status: Unexpected token in JSON" /\
   OpenClaw.jsonMetricFromCommand OpenClaw.literalParse
     (OpenClaw.succeeded "{") OpenClaw.numberSchema "status"
   <> unknownMetric "status: schema mismatch") /\
  OpenClaw.jsonMetricFromCommand OpenClaw.literalParse
    (OpenClaw.succeeded "true") OpenClaw.numberSchema "status"
  = unknownMetric "status: schema mismatch" /\
  OpenClaw.jsonMetricFromCommand OpenClaw.literalParse
    (OpenClaw.succeeded " 7 ") OpenClaw.numberSchema "status"
  = knownMetric 7.
Proof.
  split; [|split; [|split; [|split; [|split]]]].
  - destruct (jsonMetricFromCommand_outcomes OpenClaw.literalParse
                (OpenClaw.failedBecause "openclaw not found")
                OpenClaw.numberSchema "status") as (Hfailed & _).
    destruct (Hfailed eq_refl) as (Hrecorded & _).
    apply (Hrecorded "openclaw not found" eq_refl).
  - destruct (jsonMetricFromCommand_outcomes OpenClaw.literalParse
                (OpenClaw.exitedWith 2 "  unknown command ")
    OpenClaw.numberSchema "status") as (Hfailed & _).
    destruct (Hfailed eq_refl) as (_ & _ & Hexit & _).
    apply (Hexit eq_refl). vm_compute. discriminate.
  - destruct (jsonMetricFromCommand_outcomes OpenClaw.literalParse
                (OpenClaw.succeeded "  ") OpenClaw.numberSchema "status")
      as (_ & Hblank & _).
    apply (Hblank eq_refl). reflexivity.
  - destruct (jsonMetricFromCommand_outcomes OpenClaw.literalParse
                (OpenClaw.succeeded "{") OpenClaw.numberSchema "status")
      as (_ & _ & _ & Hthrew).
    assert (Hout : Js.trim (OpenClaw.stdout (OpenClaw.succeeded "{"))
                   <> EmptyString)
      by (vm_compute; discriminate).
    destruct (Hthrew eq_refl Hout
                (Js.ThrownError "Unexpected token in JSON") eq_refl)
      as (Hreason & Hiff & _).
    split; [exact Hreason|].
    intros E. apply Hiff in E. discriminate E.
  - destruct (jsonMetricFromCommand_outcomes OpenClaw.literalParse
                (OpenClaw.succeeded "true") OpenClaw.numberSchema "status")
      as (_ & _ & Hparsed & _).
    assert (Hout : Js.trim (OpenClaw.stdout (OpenClaw.succeeded "true"))
                   <> EmptyString)
      by (vm_compute; discriminate).
    destruct (Hparsed eq_refl Hout (Js.JBool true) eq_refl) as [_ Hmismatch].
    apply Hmismatch. reflexivity.
  - destruct (jsonMetricFromCommand_outcomes OpenClaw.literalParse
                (OpenClaw.succeeded " 7 ") OpenClaw.numberSchema "status")
      as (_ & _ & Hparsed & _).
    assert (Hout : Js.trim (OpenClaw.stdout (OpenClaw.succeeded " 7 "))
                   <> EmptyString)
      by (vm_compute; discriminate).
    destruct (Hparsed eq_refl Hout (Js.JNumber 7) eq_refl) as [Hknown _].
    apply Hknown. reflexivity.
Defined.

Section SecurityFacts.

Import Security.

Variable runCommand : OpenClaw.CommandRequest -> OpenClaw.CommandResult.
Variable JSON_parse : string -> Js.parseResult.
Variable securityAuditSchema : OpenClaw.Schema AuditPayload.

Local Abbreviation securityAuditMetric :=
  (securityAuditMetricOf runCommand JSON_parse securityAuditSchema).

Lemma securityCardFrom_failed (audit : Metric AuditPayload)
    (status : Metric StatusSource.t) :
  primaryFailed audit ->
  securityCardFrom audit status =
    match fallbackSummaryOf status with
    | Some fallbackSummary =>
        {| CollectorOutput.card := securityFromSummary fallbackSummary;
           CollectorOutput.warnings :=
             [ buildWarning "security" "security_audit_fallback_status"
                 (nullish (reason audit) "security audit command unavailable")
                 sev_warn None ] |}
    | None =>
        {| CollectorOutput.card :=
             unknownSecurityCard
               (chainedReason (reason audit) (reason status));
           CollectorOutput.warnings :=
             [ buildWarning "security" "security_summary_unknown"
                 (chainedReason (reason audit) (reason status))
                 sev_warn None ] |}
    end.
Proof.
  unfold primaryFailed, securityCardFrom, chainedReason, nullish.
  intros [Hk | Hv].
  - rewrite Hk. destruct (reason audit), (reason status); reflexivity.
  - rewrite Hv.
    destruct (known audit), (reason audit), (reason status); reflexivity.
Qed.

Lemma fallbackSummaryOf_embedded (status : Metric StatusSource.t)
    (s : StatusSource.Summary) :
  fallbackSummaryOf status = Some s <-> embeddedSummary status s.
Proof.
  unfold fallbackSummaryOf, embeddedSummary. split.
  - destruct (value status) as [payload|]; [|discriminate].
    destruct (StatusSource.securityAudit payload) as [audit|] eqn:Ea;
      [|discriminate].
    intros Hs. exists payload, audit. auto.
  - intros (payload & audit & -> & -> & Hs). exact Hs.
Qed.

(** Each way of failing leaves the audit metric unknown with its reason. *)
Lemma auditFails_metric (why : string) :
  auditFails (runCommand auditRequest) JSON_parse securityAuditSchema why ->
  securityAuditMetric = unknownMetric why.
Proof.
  unfold securityAuditMetricOf, OpenClaw.runOpenClawJson,
    OpenClaw.jsonMetricFromCommand, OpenClaw.commandReason.
  fold auditRequest. fold auditLabel.
  intros H. destruct H as [cause Hok Hr | Hok Hr He | Hok Hr He | Hok Hb
                          | e Hok Hb Hp | j Hok Hb Hp Hs];
    rewrite Hok; cbn [negb].
  - rewrite Hr. reflexivity.
  - rewrite Hr, He. cbn [String.length Nat.ltb Nat.leb].
    unfold OpenClaw.exitCodeText.
    assert (H : forall x : string, (x ++ "")%string = x).
    { induction x as [|c x IH]; [reflexivity|]. simpl. rewrite IH. reflexivity. }
    rewrite H. reflexivity.
  - rewrite Hr.
    destruct (Js.trim (OpenClaw.stderr (runCommand auditRequest)))
      as [|c rest]; [congruence|]. reflexivity.
  - rewrite Hb. reflexivity.
  - rewrite (trim_nonempty_length _ Hb), Hp. destruct e; reflexivity.
  - rewrite (trim_nonempty_length _ Hb), Hp, Hs. reflexivity.
Qed.

(** The audit metric is unknown only in one of these ways. *)
Lemma primaryFailed_auditFails :
  primaryFailed securityAuditMetric ->
  exists why,
    auditFails (runCommand auditRequest) JSON_parse securityAuditSchema why.
Proof.
  unfold primaryFailed, securityAuditMetricOf, OpenClaw.runOpenClawJson,
    OpenClaw.jsonMetricFromCommand.
  fold auditRequest.
  destruct (OpenClaw.ok (runCommand auditRequest)) eqn:Hok; cbn [negb].
  - destruct (Js.trim (OpenClaw.stdout (runCommand auditRequest)))
      as [|c rest] eqn:Hb.
    + intros _. eexists. apply outputBlank; assumption.
    + cbn [String.length Nat.eqb].
      destruct (JSON_parse (String c rest)) as [j | e] eqn:Hp.
      * destruct (securityAuditSchema j) as [data|] eqn:Hs.
        -- intros [H | H]; discriminate H.
        -- intros _. eexists.
           apply (outputRejected _ _ _ j); try assumption;
             rewrite Hb; [discriminate | exact Hp].
      * intros _. eexists.
        apply (outputUnparsed _ _ _ e); try assumption;
          rewrite Hb; [discriminate | exact Hp].
  - intros _.
    destruct (OpenClaw.reason (runCommand auditRequest)) as [cause|] eqn:Hr.
    + eexists. apply (commandFailed _ _ _ cause); assumption.
    + destruct (Js.trim (OpenClaw.stderr (runCommand auditRequest)))
        as [|c rest] eqn:He.
      * eexists. apply commandExited; assumption.
      * eexists. apply commandExitedWithOutput; try assumption.
        rewrite He. discriminate.
Qed.

(** C10, as the code has it. The audit command fails to deliver a summary
    in exactly six ways, each leaving its own failure reason [why].
    Whenever it does:
    - if the status-source payload embeds no audit summary, the three
      metrics of the card are unknown and share the reason [why], the
      audit command's failure reason alone, and the collector emits
      exactly one warning, of severity warn, carrying [why]; the reason
      of the status source plays no part;
    - if the status-source payload embeds an audit summary, the card is
      built from that summary and exactly one warning of severity warn is
      emitted, carrying [why]. *)
Theorem collectSecurityCard_fallback (statusSourceMetric : Metric StatusSource.t) :
  (primaryFailed securityAuditMetric <->
   exists why,
     auditFails (runCommand auditRequest) JSON_parse securityAuditSchema why) /\
  (forall why : string,
     auditFails (runCommand auditRequest) JSON_parse securityAuditSchema why ->
     ((forall s, ~ embeddedSummary statusSourceMetric s) ->
      collectSecurityCard runCommand JSON_parse securityAuditSchema
        statusSourceMetric
      = {| CollectorOutput.card :=
             {| SecurityCard.critical := unknownMetric why;
                SecurityCard.info := unknownMetric why;
                SecurityCard.warning := unknownMetric why |};
           CollectorOutput.warnings :=
             [ {| BoardWarning.code := "security_summary_unknown";
                  BoardWarning.context := None;
                  BoardWarning.reason := why;
                  BoardWarning.severity := sev_warn;
                  BoardWarning.source := "security" |} ] |}) /\
     (forall s : StatusSource.Summary,
        embeddedSummary statusSourceMetric s ->
        collectSecurityCard runCommand JSON_parse securityAuditSchema
          statusSourceMetric
        = {| CollectorOutput.card :=
               {| SecurityCard.critical := knownMetric (StatusSource.critical s);
                  SecurityCard.info := knownMetric (StatusSource.info s);
                  SecurityCard.warning := knownMetric (StatusSource.warn s) |};
             CollectorOutput.warnings :=
               [ {| BoardWarning.code := "security_audit_fallback_status";
                    BoardWarning.context := None;
                    BoardWarning.reason := why;
                    BoardWarning.severity := sev_warn;
                    BoardWarning.source := "security" |} ] |})).
Proof.
  split.
  - split; [apply primaryFailed_auditFails|].
    intros (why & Hfails). rewrite (auditFails_metric why Hfails).
    left. reflexivity.
  - intros why Hfails. unfold collectSecurityCard.
    rewrite (auditFails_metric why Hfails).
    rewrite (securityCardFrom_failed (unknownMetric why) statusSourceMetric
               (or_introl eq_refl)).
    split.
    + intros Hnone.
      destruct (fallbackSummaryOf statusSourceMetric) as [s|] eqn:Ef.
      * exfalso. apply (Hnone s). apply fallbackSummaryOf_embedded. exact Ef.
      * destruct (reason statusSourceMetric); reflexivity.
    + intros s Hs. apply fallbackSummaryOf_embedded in Hs. rewrite Hs.
      reflexivity.
Qed.

End SecurityFacts.

(** The [openclaw] binary is missing. With a status source that embeds an
    audit summary the card is built from it and the warning cites the
    audit failure; with a status source that timed out the card is
    unknown with the audit's reason. *)
Lemma collectSecurityCard_fallback_witness :
  Security.collectSecurityCard Security.binaryMissing OpenClaw.literalParse
    Security.rejectAll
    (Security.statusWithSummary
       {| StatusSource.critical := 1; StatusSource.info := 2;
          StatusSource.warn := 3 |})
  = {| CollectorOutput.card :=
         {| SecurityCard.critical := knownMetric 1;
            SecurityCard.info := knownMetric 2;
            SecurityCard.warning := knownMetric 3 |};
       CollectorOutput.warnings :=
         [ {| BoardWarning.code := "security_audit_fallback_status";
              BoardWarning.context := None;
              BoardWarning.reason :=
                "openclaw security audit --json: openclaw not found";
              BoardWarning.severity := sev_warn;
              BoardWarning.source := "security" |} ] |} /\
  Security.collectSecurityCard Security.binaryMissing OpenClaw.literalParse
    Security.rejectAll Security.statusTimedOut
  = {| CollectorOutput.card :=
         Security.unknownSecurityCard
           "openclaw security audit --json: openclaw not found";
       CollectorOutput.warnings :=
         [ {| BoardWarning.code := "security_summary_unknown";
              BoardWarning.context := None;
              BoardWarning.reason :=
                "openclaw security audit --json: openclaw not found";
              BoardWarning.severity := sev_warn;
              BoardWarning.source := "security" |} ] |}.
Proof.
  assert (Hfails : Security.auditFails
                     (Security.binaryMissing Security.auditRequest)
                     OpenClaw.literalParse Security.rejectAll
                     "openclaw security audit --json: openclaw not found")
    by (apply (Security.commandFailed _ _ _ "openclaw not found");
        reflexivity).
  split.
  - destruct (collectSecurityCard_fallback Security.binaryMissing
                OpenClaw.literalParse Security.rejectAll
                (Security.statusWithSummary
                   {| StatusSource.critical := 1; StatusSource.info := 2;
                      StatusSource.warn := 3 |})) as (_ & Hcases).
    destruct (Hcases _ Hfails) as (_ & Hembedded).
    apply (Hembedded
             {| StatusSource.critical := 1; StatusSource.info := 2;
                StatusSource.warn := 3 |}).
    eexists. eexists. repeat split.
  - destruct (collectSecurityCard_fallback Security.binaryMissing
                OpenClaw.literalParse Security.rejectAll
                Security.statusTimedOut) as (_ & Hcases).
    destruct (Hcases _ Hfails) as (Hnone & _).
    apply Hnone. intros s (payload & audit & Hv & _). discriminate Hv.
Defined.

(** A text that occurs in another is found by the search from the left. *)
Lemma prefix_append (needle after : string) :
  String.prefix needle (needle ++ after) = true.
Proof.
  induction needle as [|c needle IH]; [destruct after; reflexivity|].
  cbn [append String.prefix].
  destruct (Ascii.ascii_dec c c); [exact IH | congruence].
Qed.

Lemma contains_includes (s needle : string) :
  OpenClaw.contains s needle -> GitFailure.includes s needle = true.
Proof.
  intros (before & after & ->).
  induction before as [|c before IH].
  - cbn [append]. destruct (needle ++ after)%string eqn:E;
      cbn [GitFailure.includes]; rewrite <- E, prefix_append; reflexivity.
  - cbn [append GitFailure.includes]. rewrite IH. apply Bool.orb_true_r.
Qed.

(** The claim as written fails: the audit subcommand is rejected with exit
    code 2 and the status source timed out. The shared unknown reason is
    the audit command's failure reason, and the status source's failure
    reason does not occur in it. *)
Lemma collectSecurityCard_chain_counterexample :
  Security.collectSecurityCard Security.commandRejected OpenClaw.literalParse
    Security.rejectAll Security.statusTimedOut
  = {| CollectorOutput.card :=
         Security.unknownSecurityCard
           "openclaw security audit --json: openclaw exited with code 2";
       CollectorOutput.warnings :=
         [ {| BoardWarning.code := "security_summary_unknown";
              BoardWarning.context := None;
              BoardWarning.reason :=
                "openclaw security audit --json: openclaw exited with code 2";
              BoardWarning.severity := sev_warn;
              BoardWarning.source := "security" |} ] |} /\
  reason Security.statusTimedOut
  = Some "openclaw status --json: openclaw timed out after 10000ms" /\
  ~ OpenClaw.contains
      "openclaw security audit --json: openclaw exited with code 2"
      "openclaw status --json: openclaw timed out after 10000ms".
Proof.
  split; [reflexivity|]. split; [reflexivity|].
  intros H. apply contains_includes in H. vm_compute in H. discriminate H.
Qed.

(* ================================================================== *)
(** * Further properties of the deriver *)
(* ================================================================== *)

Section StatusLevelFacts.

Import BoardSnapshot Status StatusLevels.

Ltac split_red s :=
  destruct (metricGreaterThan (SecurityCard.critical (security s)) 0),
           (metricGreaterThan (CronCard.failingOrRecentErrorCount (cron s)) 0),
           (metricEqualsBoolean (GatewayCard.reachable (gateway s)) false).

Ltac split_amber s :=
  destruct (metricGreaterThan (SecurityCard.warning (security s)) 0),
           (criticalUnknown s),
           (metricEqualsBoolean (RepoDriftCard.clean (repoDrift s)) false),
           (metricGreaterThan (RepoDriftCard.behindCount (repoDrift s)) 0).

Ltac eval_reasons :=
  cbn [filter nonEmpty String.length Nat.ltb Nat.leb List.length
       OverallCard.reasons OverallCard.level].

(** The level, read off the seven triggers. *)
Lemma deriveOverallCard_level_triggers (s : withoutOverall) :
  OverallCard.level (deriveOverallCard s) =
    if metricGreaterThan (SecurityCard.critical (security s)) 0
       || metricGreaterThan (CronCard.failingOrRecentErrorCount (cron s)) 0
       || metricEqualsBoolean (GatewayCard.reachable (gateway s)) false
    then RED
    else if metricGreaterThan (SecurityCard.warning (security s)) 0
            || criticalUnknown s
            || metricEqualsBoolean (RepoDriftCard.clean (repoDrift s)) false
            || metricGreaterThan (RepoDriftCard.behindCount (repoDrift s)) 0
    then AMBER
    else GREEN.
Proof.
  unfold deriveOverallCard, redReasons, amberReasons.
  split_red s; eval_reasons; try reflexivity;
    split_amber s; eval_reasons; reflexivity.
Qed.

Lemma amber_triggers_reflect (s : withoutOverall) :
  amberValueCondition s \/ watchListUnknown s <->
  metricGreaterThan (SecurityCard.warning (security s)) 0
  || criticalUnknown s
  || metricEqualsBoolean (RepoDriftCard.clean (repoDrift s)) false
  || metricGreaterThan (RepoDriftCard.behindCount (repoDrift s)) 0 = true.
Proof.
  rewrite amberValueCondition_reflect, <- criticalUnknown_watchList,
    !Bool.orb_true_iff. tauto.
Qed.

Lemma red_triggers_reflect (s : withoutOverall) :
  redCondition s <->
  metricGreaterThan (SecurityCard.critical (security s)) 0
  || metricGreaterThan (CronCard.failingOrRecentErrorCount (cron s)) 0
  || metricEqualsBoolean (GatewayCard.reachable (gateway s)) false = true.
Proof.
  rewrite redCondition_reflect, !Bool.orb_true_iff. tauto.
Qed.

(** GREEN needs every trigger to be off. *)
Lemma green_only_if (s : withoutOverall) :
  OverallCard.level (deriveOverallCard s) = GREEN ->
  ~ redCondition s /\ ~ amberValueCondition s /\ ~ watchListUnknown s.
Proof.
  rewrite deriveOverallCard_level_triggers.
  pose proof (red_triggers_reflect s) as Hr.
  pose proof (amber_triggers_reflect s) as Ha.
  destruct (_ || _ || _); [discriminate|].
  destruct (_ || _ || _ || _); [discriminate|].
  intros _. intuition discriminate.
Qed.

(** X1. The verdict is AMBER exactly when no RED condition holds and a
    value-based AMBER trigger holds or a watch-list metric is unknown; it
    is GREEN exactly when none of the conditions holds. An AMBER verdict
    lists exactly the AMBER reasons whose trigger holds. *)
Theorem deriveOverallCard_amber_green (s : withoutOverall) :
  (OverallCard.level (deriveOverallCard s) = AMBER <->
     ~ redCondition s /\ (amberValueCondition s \/ watchListUnknown s)) /\
  (OverallCard.level (deriveOverallCard s) = GREEN <->
     ~ redCondition s /\ ~ amberValueCondition s /\ ~ watchListUnknown s) /\
  (OverallCard.level (deriveOverallCard s) = AMBER ->
     forall r : string,
       In r (OverallCard.reasons (deriveOverallCard s)) <->
       (r = "warning findings > 0" /\
          knownPositive (SecurityCard.warning (security s))) \/
       (r = "unknown state in critical cards" /\ watchListUnknown s) \/
       (r = "repo drift: dirty repository" /\
          knownFalse (RepoDriftCard.clean (repoDrift s))) \/
       (r = "repo drift: behind upstream" /\
          knownPositive (RepoDriftCard.behindCount (repoDrift s)))).
Proof.
  assert (Hamber : OverallCard.level (deriveOverallCard s) = AMBER <->
            ~ redCondition s /\ (amberValueCondition s \/ watchListUnknown s)).
  { rewrite deriveOverallCard_level_triggers, red_triggers_reflect,
      amber_triggers_reflect.
    destruct (_ || _ || _); [intuition discriminate|].
    destruct (_ || _ || _ || _); intuition discriminate. }
  split; [exact Hamber|]. split.
  - split; [apply green_only_if|].
    rewrite deriveOverallCard_level_triggers.
    pose proof (red_triggers_reflect s) as Hr.
    pose proof (amber_triggers_reflect s) as Ha.
    destruct (_ || _ || _); [intuition|].
    destruct (_ || _ || _ || _); intuition.
  - intros Hlevel. apply Hamber in Hlevel. destruct Hlevel as [Hred Hcond].
    unfold amberValueCondition in Hcond. clear Hamber.
    pose proof (metricGreaterThan_zero (SecurityCard.warning (security s))) as E1.
    pose proof (criticalUnknown_watchList s) as E2.
    pose proof (metricEqualsBoolean_false (RepoDriftCard.clean (repoDrift s))) as E3.
    pose proof (metricGreaterThan_zero
                  (RepoDriftCard.behindCount (repoDrift s))) as E4.
    unfold deriveOverallCard. rewrite (redReasons_nil s Hred).
    cbn [List.length Nat.ltb Nat.leb]. unfold amberReasons.
    split_amber s; eval_reasons; intros r; cbn [In];
      destruct E1, E2, E3, E4;
      intuition (subst; try discriminate; auto).
Qed.

(** X2. Every verdict carries at least one reason; no reason is the empty
    string, no reason is listed twice, and every reason belongs to the
    class of the verdict's level. *)
Theorem deriveOverallCard_reasons_invariant (s : withoutOverall) :
  OverallCard.reasons (deriveOverallCard s) <> [] /\
  ~ In "" (OverallCard.reasons (deriveOverallCard s)) /\
  NoDup (OverallCard.reasons (deriveOverallCard s)) /\
  (forall r : string,
     In r (OverallCard.reasons (deriveOverallCard s)) ->
     In r (reasonClass (OverallCard.level (deriveOverallCard s)))).
Proof.
  unfold deriveOverallCard, redReasons, amberReasons.
  split_red s; eval_reasons;
    try (split; [discriminate|];
         split; [cbn [In]; intuition discriminate|];
         split; [repeat constructor; cbn [In]; intuition discriminate|];
         intros r; cbn [reasonClass In]; tauto);
    split_amber s; eval_reasons;
    (split; [discriminate|];
     split; [cbn [In]; intuition discriminate|];
     split; [repeat constructor; cbn [In]; intuition discriminate|];
     intros r; cbn [reasonClass]; try unfold amberClass; cbn [In]; tauto).
Qed.

End StatusLevelFacts.

(* ================================================================== *)
(** * Further properties of the warning deduplication *)
(* ================================================================== *)

Section DedupMoreFacts.

Import Dedup.

(** A list whose keys are pairwise distinct and unseen is kept whole. *)
Lemma keptFrom_distinct (ws : list BoardWarning.t) :
  forall seen : list string,
    NoDup (map warningKey ws) ->
    (forall w, In w ws -> ~ In (warningKey w) seen) ->
    keptFrom seen ws = ws.
Proof.
  induction ws as [|w rest IH]; intros seen Hnd Hseen; [reflexivity|].
  cbn [keptFrom]. cbn [map] in Hnd. inversion Hnd as [|k ks Hk Hrest]; subst.
  destruct (existsb (fun k => String.eqb k (warningKey w)) seen) eqn:E.
  - apply seen_reflect in E. exfalso. apply (Hseen w); [left; reflexivity | exact E].
  - f_equal. apply IH; [exact Hrest|].
    intros w' Hin Hs. apply in_app_or in Hs. destruct Hs as [Hs | [Hs | []]].
    + apply (Hseen w'); [right; exact Hin | exact Hs].
    + apply Hk. rewrite Hs. apply in_map. exact Hin.
Qed.

Lemma keptFrom_length (ws : list BoardWarning.t) :
  forall seen : list string,
    (List.length (keptFrom seen ws) <= List.length ws)%nat.
Proof.
  induction ws as [|w rest IH]; intros seen; cbn [keptFrom List.length]; [lia|].
  destruct (existsb (fun k => String.eqb k (warningKey w)) seen).
  - specialize (IH seen). lia.
  - cbn [List.length]. specialize (IH (seen ++ [warningKey w])). lia.
Qed.

(** X3. [uniqueWarnings] returns its input unchanged exactly when the
    keys of the input are pairwise distinct, so deduplicating twice
    changes nothing more; its output is never longer than its input, and
    it starts with the first warning of the input. *)
Theorem uniqueWarnings_fixpoint (ws : list BoardWarning.t) :
  (uniqueWarnings ws = ws <-> NoDup (map warningKey ws)) /\
  uniqueWarnings (uniqueWarnings ws) = uniqueWarnings ws /\
  (List.length (uniqueWarnings ws) <= List.length ws)%nat /\
  hd_error (uniqueWarnings ws) = hd_error ws.
Proof.
  split; [|split; [|split]].
  - split.
    + intros E. rewrite <- E, uniqueWarnings_keptFrom.
      apply keptFrom_keys_NoDup.
    + intros Hnd. rewrite uniqueWarnings_keptFrom.
      apply keptFrom_distinct; [exact Hnd | intros w _ []].
  - rewrite (uniqueWarnings_keptFrom (uniqueWarnings ws)).
    apply keptFrom_distinct.
    + rewrite uniqueWarnings_keptFrom. apply keptFrom_keys_NoDup.
    + intros w _ [].
  - rewrite uniqueWarnings_keptFrom. apply keptFrom_length.
  - rewrite uniqueWarnings_keptFrom. destruct ws; reflexivity.
Qed.

End DedupMoreFacts.

(* ================================================================== *)
(** * Further properties of the repo-drift aggregator *)
(* ================================================================== *)

Section RepoDriftMoreFacts.

Import RepoWorkspaceDrift RepoDrift RepoDriftTotals.

Lemma filter_nonempty_existsb {A : Type} (f : A -> bool) (l : list A) :
  (0 <? List.length (filter f l))%nat = existsb f l.
Proof.
  induction l as [|x rest IH]; [reflexivity|].
  cbn [filter existsb]. destruct (f x); [reflexivity | exact IH].
Qed.

Lemma fold_left_add (l : list Z) (a : Z) :
  fold_left (fun sum v => sum + v) l a = a + fold_right Z.add 0 l.
Proof.
  revert a. induction l as [|x rest IH]; intros a; cbn [fold_left fold_right].
  - lia.
  - rewrite IH. lia.
Qed.

Lemma missingb_spec (m : Metric Z) : missingb m = true <-> countMissing m.
Proof.
  unfold missingb, countMissing, hasValue.
  destruct (known m), (value m); simpl; intuition discriminate.
Qed.

(** The aggregated count, by the first workspace that lacks it. *)
Lemma aggregateCountMetric_firstMissing
    (field : RepoWorkspaceDrift.t -> Metric Z)
    (ws : list RepoWorkspaceDrift.t) (r : string) :
  aggregateCountMetric (map field ws) r =
    match firstMissing field ws with
    | Some w => unknownMetric (nullish (reason (field w)) r)
    | None => knownMetric (totalOf field ws)
    end.
Proof.
  unfold aggregateCountMetric.
  induction ws as [|w rest IH]; [reflexivity|].
  cbn [map filter firstMissing].
  destruct (negb (known (field w)) || negb (hasValue (field w))) eqn:E.
  - reflexivity.
  - destruct (filter _ (map field rest)) as [|m ms] eqn:Hf.
    + cbn [List.length Nat.ltb Nat.leb] in *.
      destruct (firstMissing field rest); [discriminate IH|].
      unfold knownMetric in *. injection IH as IH.
      cbn [map fold_left totalOf]. rewrite fold_left_add.
      rewrite fold_left_add in IH. f_equal. f_equal. lia.
    + cbn [List.length Nat.ltb Nat.leb firstReason] in *.
      destruct (firstMissing field rest); [exact IH | discriminate IH].
Qed.

Lemma firstMissing_none (field : RepoWorkspaceDrift.t -> Metric Z)
    (ws : list RepoWorkspaceDrift.t) :
  firstMissing field ws = None <->
  forall w, In w ws -> ~ countMissing (field w).
Proof.
  induction ws as [|w rest IH]; cbn [firstMissing].
  - split; [intros _ w [] | reflexivity].
  - pose proof (missingb_spec (field w)) as Hm. unfold missingb in Hm.
    destruct (negb (known (field w)) || negb (hasValue (field w))).
    + split; [discriminate|]. intros H. exfalso.
      apply (H w); [left; reflexivity | apply Hm; reflexivity].
    + rewrite IH. split.
      * intros H w' [<- | Hin]; [intros Hc; apply Hm in Hc; discriminate|].
        apply H. exact Hin.
      * intros H w' Hin. apply H. right. exact Hin.
Qed.

Lemma firstMissing_some (field : RepoWorkspaceDrift.t -> Metric Z)
    (ws : list RepoWorkspaceDrift.t) (w : RepoWorkspaceDrift.t) :
  firstMissing field ws = Some w ->
  exists before after,
    ws = before ++ w :: after /\
    countMissing (field w) /\
    forall w', In w' before -> ~ countMissing (field w').
Proof.
  induction ws as [|w0 rest IH]; cbn [firstMissing]; [discriminate|].
  pose proof (missingb_spec (field w0)) as Hm. unfold missingb in Hm.
  destruct (negb (known (field w0)) || negb (hasValue (field w0))).
  - intros E. injection E as <-. exists [], rest.
    split; [reflexivity|]. split; [apply Hm; reflexivity | intros w' []].
  - intros E. destruct (IH E) as (before & after & -> & Hw & Hbefore).
    exists (w0 :: before), after. split; [reflexivity|]. split; [exact Hw|].
    intros w' [<- | Hin]; [intros Hc; apply Hm in Hc; discriminate|].
    apply Hbefore. exact Hin.
Qed.

(** X4. On a non-empty workspace list, [aheadCount] and [behindCount] of
    the card are known exactly when no workspace lacks the count, and then
    hold the sum over the workspaces; otherwise they are unknown with the
    reason of the first workspace, in list order, that lacks the count (or
    the fixed text when that workspace recorded no reason). *)
Theorem aggregateRepoDrift_counts
    (ws : list RepoWorkspaceDrift.t) (r : string) :
  ws <> [] ->
  (RepoDriftCard.aheadCount (aggregateRepoDrift ws r) =
     match firstMissing aheadCount ws with
     | Some w => unknownMetric (nullish (reason (aheadCount w))
                                        "ahead count unknown")
     | None => knownMetric (totalOf aheadCount ws)
     end) /\
  (RepoDriftCard.behindCount (aggregateRepoDrift ws r) =
     match firstMissing behindCount ws with
     | Some w => unknownMetric (nullish (reason (behindCount w))
                                        "behind count unknown")
     | None => knownMetric (totalOf behindCount ws)
     end) /\
  (forall field : RepoWorkspaceDrift.t -> Metric Z,
     (firstMissing field ws = None <->
        forall w, In w ws -> ~ countMissing (field w)) /\
     (forall w, firstMissing field ws = Some w ->
        exists before after,
          ws = before ++ w :: after /\
          countMissing (field w) /\
          forall w', In w' before -> ~ countMissing (field w'))).
Proof.
  intros Hne. unfold aggregateRepoDrift. rewrite (nonempty_length ws Hne).
  cbn [RepoDriftCard.aheadCount RepoDriftCard.behindCount].
  split; [apply (aggregateCountMetric_firstMissing aheadCount)|].
  split; [apply (aggregateCountMetric_firstMissing behindCount)|].
  intros field. split; [apply firstMissing_none | apply firstMissing_some].
Qed.

(** Ahead by 1, behind by 2: the sums are known; a third workspace
    without upstream makes both unknown with its reason. *)
Lemma aggregateRepoDrift_counts_witness :
  RepoDriftCard.aheadCount
    (aggregateRepoDrift [aheadWorkspace; behindWorkspace] "missing")
  = knownMetric 1 /\
  RepoDriftCard.behindCount
    (aggregateRepoDrift
       [aheadWorkspace; noUpstreamWorkspace; behindWorkspace] "missing")
  = unknownMetric "upstream is not configured for repository: /repo/c".
Proof.
  split.
  - apply (aggregateRepoDrift_counts [aheadWorkspace; behindWorkspace] "missing").
    discriminate.
  - apply (aggregateRepoDrift_counts
             [aheadWorkspace; noUpstreamWorkspace; behindWorkspace] "missing").
    discriminate.
Defined.

End RepoDriftMoreFacts.

Section RepoDriftOrderFacts.

Import RepoWorkspaceDrift RepoDrift RepoDriftTotals.

Lemma existsb_permutation {A : Type} (f : A -> bool) (l l' : list A) :
  Permutation l l' -> existsb f l = existsb f l'.
Proof.
  induction 1 as [|x l l' _ IH|x y l|l l' l'' _ IH1 _ IH2]; cbn [existsb].
  - reflexivity.
  - rewrite IH. reflexivity.
  - destruct (f x), (f y); reflexivity.
  - rewrite IH1. exact IH2.
Qed.

Lemma forallb_permutation {A : Type} (f : A -> bool) (l l' : list A) :
  Permutation l l' -> forallb f l = forallb f l'.
Proof.
  induction 1 as [|x l l' _ IH|x y l|l l' l'' _ IH1 _ IH2]; cbn [forallb].
  - reflexivity.
  - rewrite IH. reflexivity.
  - destruct (f x), (f y); reflexivity.
  - rewrite IH1. exact IH2.
Qed.

Lemma filter_length_permutation {A : Type} (f : A -> bool) (l l' : list A) :
  Permutation l l' ->
  List.length (filter f l) = List.length (filter f l').
Proof.
  induction 1 as [|x l l' _ IH|x y l|l l' l'' _ IH1 _ IH2]; cbn [filter].
  - reflexivity.
  - destruct (f x); cbn [List.length]; rewrite IH; reflexivity.
  - destruct (f x), (f y); reflexivity.
  - rewrite IH1. exact IH2.
Qed.

Lemma sum_permutation (l l' : list Z) :
  Permutation l l' -> fold_right Z.add 0 l = fold_right Z.add 0 l'.
Proof.
  induction 1 as [|x l l' _ IH|x y l|l l' l'' _ IH1 _ IH2]; cbn [fold_right].
  - reflexivity.
  - rewrite IH. reflexivity.
  - lia.
  - rewrite IH1. exact IH2.
Qed.

(** The known flag and the value of an aggregated boolean. *)
Lemma aggregateBooleanMetric_reading (metrics : list (Metric bool)) (r : string) :
  known (aggregateBooleanMetric metrics r)
  = (existsb (fun metric => known metric && valueIs metric false) metrics
     || negb (existsb (fun metric => negb (known metric)) metrics)) /\
  value (aggregateBooleanMetric metrics r)
  = if existsb (fun metric => known metric && valueIs metric false) metrics
    then Some false
    else if existsb (fun metric => negb (known metric)) metrics
         then None else Some true.
Proof.
  unfold aggregateBooleanMetric.
  rewrite knownValues_include_false, filter_nonempty_existsb.
  destruct (existsb (fun metric => known metric && valueIs metric false) metrics);
    [split; reflexivity|].
  destruct (existsb (fun metric => negb (known metric)) metrics);
    split; reflexivity.
Qed.

(** The known flag and the value of an aggregated count. *)
Lemma aggregateCountMetric_reading (metrics : list (Metric Z)) (r : string) :
  known (aggregateCountMetric metrics r) = negb (existsb missingb metrics) /\
  value (aggregateCountMetric metrics r)
  = if existsb missingb metrics then None
    else Some (fold_right Z.add 0
                 (map (fun metric => nullish (value metric) 0) metrics)).
Proof.
  unfold aggregateCountMetric. unfold missingb.
  rewrite filter_nonempty_existsb.
  destruct (existsb _ metrics); [split; reflexivity|].
  rewrite fold_left_add. split; reflexivity.
Qed.

Lemma aggregateBooleanMetric_permutation
    (l l' : list (Metric bool)) (r : string) :
  Permutation l l' ->
  sameReading (aggregateBooleanMetric l r) (aggregateBooleanMetric l' r).
Proof.
  intros Hp. unfold sameReading.
  destruct (aggregateBooleanMetric_reading l r) as [-> ->].
  destruct (aggregateBooleanMetric_reading l' r) as [-> ->].
  rewrite !(existsb_permutation _ l l' Hp). split; reflexivity.
Qed.

Lemma aggregateCountMetric_permutation
    (l l' : list (Metric Z)) (r : string) :
  Permutation l l' ->
  sameReading (aggregateCountMetric l r) (aggregateCountMetric l' r).
Proof.
  intros Hp. unfold sameReading.
  destruct (aggregateCountMetric_reading l r) as [-> ->].
  destruct (aggregateCountMetric_reading l' r) as [-> ->].
  rewrite (existsb_permutation _ l l' Hp).
  rewrite (sum_permutation _ _ (Permutation_map _ Hp)). split; reflexivity.
Qed.

(** X5. The aggregation does not depend on the order of the workspaces:
    for any rearrangement of the list, [dirtyCount] and [repositoryCount]
    are the same metrics, and [clean], [aheadCount] and [behindCount] have
    the same known flag and the same value. *)
Theorem aggregateRepoDrift_permutation
    (ws ws' : list RepoWorkspaceDrift.t) (r : string) :
  Permutation ws ws' ->
  RepoDriftCard.dirtyCount (aggregateRepoDrift ws r)
    = RepoDriftCard.dirtyCount (aggregateRepoDrift ws' r) /\
  RepoDriftCard.repositoryCount (aggregateRepoDrift ws r)
    = RepoDriftCard.repositoryCount (aggregateRepoDrift ws' r) /\
  sameReading (RepoDriftCard.clean (aggregateRepoDrift ws r))
              (RepoDriftCard.clean (aggregateRepoDrift ws' r)) /\
  sameReading (RepoDriftCard.aheadCount (aggregateRepoDrift ws r))
              (RepoDriftCard.aheadCount (aggregateRepoDrift ws' r)) /\
  sameReading (RepoDriftCard.behindCount (aggregateRepoDrift ws r))
              (RepoDriftCard.behindCount (aggregateRepoDrift ws' r)).
Proof.
  intros Hp. unfold aggregateRepoDrift.
  rewrite <- (Permutation_length Hp).
  destruct (List.length ws =? 0)%nat;
    [repeat split; reflexivity|].
  cbn [RepoDriftCard.dirtyCount RepoDriftCard.repositoryCount
       RepoDriftCard.clean RepoDriftCard.aheadCount RepoDriftCard.behindCount].
  split; [|split; [|split; [|split]]].
  - rewrite (forallb_permutation _ ws ws' Hp).
    rewrite (filter_length_permutation _ ws ws' Hp). reflexivity.
  - rewrite (filter_length_permutation _ ws ws' Hp). reflexivity.
  - apply aggregateBooleanMetric_permutation, Permutation_map, Hp.
  - apply aggregateCountMetric_permutation, Permutation_map, Hp.
  - apply aggregateCountMetric_permutation, Permutation_map, Hp.
Qed.

(** Three workspaces, rotated. *)
Lemma aggregateRepoDrift_permutation_witness :
  sameReading
    (RepoDriftCard.behindCount
       (aggregateRepoDrift
          [aheadWorkspace; behindWorkspace; noUpstreamWorkspace] "missing"))
    (RepoDriftCard.behindCount
       (aggregateRepoDrift
          [noUpstreamWorkspace; aheadWorkspace; behindWorkspace] "missing")).
Proof.
  apply (aggregateRepoDrift_permutation
           [aheadWorkspace; behindWorkspace; noUpstreamWorkspace]
           [noUpstreamWorkspace; aheadWorkspace; behindWorkspace] "missing").
  apply Permutation_sym.
  apply (Permutation_cons_append [aheadWorkspace; behindWorkspace]
                                 noUpstreamWorkspace).
Defined.

(** With every cleanliness known, the dirty workspaces are the ones
    counted. *)
Lemma dirtyWorkspaces_zero (ws : list RepoWorkspaceDrift.t) :
  0 <= dirtyWorkspaces ws <= Z.of_nat (List.length ws) /\
  (dirtyWorkspaces ws = 0 <-> existsb knownDirtyb ws = false).
Proof.
  induction ws as [|w rest [IHb IHz]]; cbn [dirtyWorkspaces existsb List.length].
  - split; [lia | tauto].
  - destruct (knownDirtyb w); cbn [orb].
    + split; [lia|]. split; [lia | discriminate].
    + split; [lia|]. rewrite <- IHz. split; lia.
Qed.

(** X6. The card is coherent: on a non-empty list, when [dirtyCount] is
    known with value [n] then [n] lies between 0 and the number of
    workspaces, [clean] is known-true exactly when [n = 0] and known-false
    exactly when [n > 0]; so a known dirty count never comes with an
    unknown [clean]. *)
Theorem aggregateRepoDrift_coherent
    (ws : list RepoWorkspaceDrift.t) (r : string) (n : Z) :
  ws <> [] ->
  RepoDriftCard.dirtyCount (aggregateRepoDrift ws r) = knownMetric n ->
  0 <= n <= Z.of_nat (List.length ws) /\
  (n = 0 <-> RepoDriftCard.clean (aggregateRepoDrift ws r) = knownMetric true) /\
  (0 < n <-> RepoDriftCard.clean (aggregateRepoDrift ws r) = knownMetric false).
Proof.
  intros Hne. unfold aggregateRepoDrift. rewrite (nonempty_length ws Hne).
  cbn [RepoDriftCard.dirtyCount RepoDriftCard.clean].
  destruct (forallb (fun workspace => known (clean workspace)) ws) eqn:Hall;
    [|discriminate].
  assert (Hknown : forall w, In w ws -> known (clean w) = true)
    by (apply forallb_forall; exact Hall).
  rewrite (dirtyWorkspaces_filter ws Hknown).
  intros E. unfold knownMetric in E. injection E as <-.
  destruct (dirtyWorkspaces_zero ws) as [Hb Hz].
  split; [exact Hb|].
  unfold aggregateBooleanMetric.
  rewrite knownValues_include_false, existsb_knownDirtyb, filter_nonempty_existsb.
  assert (Hunk : existsb (fun metric => negb (known metric))
                         (map (fun workspace => clean workspace) ws) = false).
  { destruct (existsb _ (map _ ws)) eqn:E; [|reflexivity].
    apply existsb_exists in E. destruct E as (m & Hm & Hk).
    apply in_map_iff in Hm. destruct Hm as (w & <- & Hin).
    rewrite (Hknown w Hin) in Hk. discriminate. }
  rewrite Hunk.
  destruct (existsb knownDirtyb ws).
  - assert (Hpos : dirtyWorkspaces ws <> 0) by (rewrite Hz; discriminate).
    split; split; intros H; try reflexivity; try discriminate; lia.
  - assert (Hzero : dirtyWorkspaces ws = 0) by (apply Hz; reflexivity).
    split; split; intros H; try reflexivity; try discriminate; lia.
Qed.

Lemma aggregateRepoDrift_coherent_witness :
  (1 = 0 <->
   RepoDriftCard.clean
     (aggregateRepoDrift [aheadWorkspace; behindWorkspace] "missing")
   = knownMetric true) /\
  (0 < 1 <->
   RepoDriftCard.clean
     (aggregateRepoDrift [aheadWorkspace; behindWorkspace] "missing")
   = knownMetric false).
Proof.
  apply (aggregateRepoDrift_coherent
           [aheadWorkspace; behindWorkspace] "missing" 1).
  - discriminate.
  - reflexivity.
Defined.

End RepoDriftOrderFacts.

(* ================================================================== *)
(** * Further properties of the version comparison *)
(* ================================================================== *)

Section VersionOrderFacts.

Import VersionDrift UpdateAvailability.

Lemma lexCompare_refl (l : list Q) : lexCompare l l = 0.
Proof.
  induction l as [|a l IH]; [reflexivity|]. cbn [lexCompare].
  assert (E : (a ?= a)%Q = Eq) by (apply Qeq_alt; reflexivity).
  rewrite E. exact IH.
Qed.

Lemma lexCompare_antisym (l r : list Q) :
  lexCompare l r = - lexCompare r l.
Proof.
  revert r. induction l as [|a l IH]; intros [|b r]; cbn [lexCompare];
    try reflexivity.
  rewrite <- (Qcompare_antisym b a).
  destruct (b ?= a)%Q; cbn [CompOpp]; [apply IH | reflexivity | reflexivity].
Qed.

Lemma lexCompare_trans (l : list Q) :
  forall m r : list Q,
    List.length l = List.length m -> List.length m = List.length r ->
    lexCompare l m <= 0 -> lexCompare m r <= 0 -> lexCompare l r <= 0.
Proof.
  induction l as [|a l IH]; intros [|b m] [|c r] Hlm Hmr;
    cbn [List.length] in Hlm, Hmr; try discriminate; cbn [lexCompare];
    try lia.
  destruct (Qcompare_spec a b) as [Hab|Hab|Hab],
           (Qcompare_spec b c) as [Hbc|Hbc|Hbc],
           (Qcompare_spec a c) as [Hac|Hac|Hac];
    intros H1 H2; try lia; try (exfalso; lra).
  apply (IH m r); congruence.
Qed.

Lemma lexCompare_snoc (a : Q) (l : list Q) :
  forall r : list Q,
    List.length l = List.length r ->
    lexCompare (l ++ [a]) (r ++ [a]) = lexCompare l r.
Proof.
  induction l as [|x l IH]; intros [|y r] Hlen;
    cbn [List.length] in Hlen; try discriminate.
  - cbn [app lexCompare].
    assert (E : (a ?= a)%Q = Eq) by (apply Qeq_alt; reflexivity).
    rewrite E. reflexivity.
  - cbn [app lexCompare]. rewrite IH by congruence. reflexivity.
Qed.

Lemma padTo_length (n : nat) (l : list Q) :
  (List.length l <= n)%nat -> List.length (padTo n l) = n.
Proof.
  intros H. unfold padTo. rewrite length_app, repeat_length. lia.
Qed.

Lemma padTo_snoc (n : nat) (l : list Q) :
  (List.length l <= n)%nat -> padTo (S n) l = padTo n l ++ [0%Q].
Proof.
  intros H. unfold padTo.
  replace (S n - List.length l)%nat with (S (n - List.length l)) by lia.
  rewrite <- app_assoc. f_equal.
  generalize (n - List.length l)%nat as k. intros k.
  induction k as [|k IH]; [reflexivity|].
  cbn [repeat app]. f_equal. exact IH.
Qed.

(** Padding further than the longer list does not change the comparison. *)
Lemma lexCompare_pad (d n : nat) (l r : list Q) :
  (List.length l <= n)%nat -> (List.length r <= n)%nat ->
  lexCompare (padTo (d + n) l) (padTo (d + n) r)
  = lexCompare (padTo n l) (padTo n r).
Proof.
  intros Hl Hr. induction d as [|d IH]; [reflexivity|].
  cbn [Nat.add]. rewrite !padTo_snoc by lia.
  rewrite lexCompare_snoc; [exact IH|].
  rewrite !padTo_length by lia. reflexivity.
Qed.

(** The comparison, padded to any length that covers both versions. *)
Lemma compareDotVersions_padded (left right : string) (n : nat) :
  (List.length (specComponents left) <= n)%nat ->
  (List.length (specComponents right) <= n)%nat ->
  compareDotVersions left right
  = lexCompare (padTo n (specComponents left)) (padTo n (specComponents right)).
Proof.
  intros Hl Hr. unfold compareDotVersions.
  rewrite !toParts_specComponents, !length_map.
  rewrite compareFrom_lexCompare by lia.
  set (m := Nat.max (List.length (specComponents left))
                    (List.length (specComponents right))).
  replace n with ((n - m) + m)%nat by lia.
  symmetry. apply lexCompare_pad; lia.
Qed.

Lemma compareDotVersions_same (v : string) : compareDotVersions v v = 0.
Proof.
  rewrite (compareDotVersions_padded v v (List.length (specComponents v)))
    by lia.
  apply lexCompare_refl.
Qed.

Lemma compareDotVersions_swap (a b : string) :
  compareDotVersions a b = - compareDotVersions b a.
Proof.
  set (n := Nat.max (List.length (specComponents a))
                    (List.length (specComponents b))).
  rewrite (compareDotVersions_padded a b n),
          (compareDotVersions_padded b a n) by lia.
  apply lexCompare_antisym.
Qed.

(** X7. [compareDotVersions] orders versions consistently: a version
    compares equal to itself, swapping the arguments negates the result,
    and the order is transitive (if [a] is not newer than [b] and [b] not
    newer than [c], then [a] is not newer than [c]). *)
Theorem compareDotVersions_order :
  (forall v : string, compareDotVersions v v = 0) /\
  (forall a b : string, compareDotVersions a b = - compareDotVersions b a) /\
  (forall a b c : string,
     compareDotVersions a b <= 0 -> compareDotVersions b c <= 0 ->
     compareDotVersions a c <= 0).
Proof.
  split; [exact compareDotVersions_same|].
  split; [exact compareDotVersions_swap|].
  intros a b c.
    set (n := Nat.max (List.length (specComponents a))
                (Nat.max (List.length (specComponents b))
                         (List.length (specComponents c)))).
    rewrite (compareDotVersions_padded a b n),
            (compareDotVersions_padded b c n),
            (compareDotVersions_padded a c n) by lia.
  apply lexCompare_trans; rewrite !padTo_length by lia; reflexivity.
Qed.

Lemma split_append_zero (v : string) :
  Js.split "." (v ++ ".0") = Js.split "." v ++ ["0"].
Proof.
  induction v as [|c v IH]; [reflexivity|].
  cbn [String.append Js.split]. rewrite IH.
  destruct (Ascii.eqb c "."); [reflexivity|].
  destruct (Js.split "." v) as [|h t] eqn:E; [|reflexivity].
  destruct v as [|c' v']; cbn [Js.split] in E; [discriminate|].
  destruct (Ascii.eqb c' "."); [discriminate|].
  destruct (Js.split "." v'); discriminate.
Qed.

(** X8. A trailing [.0] component does not change a version: [v.0]
    compares equal to [v], and compares against any other version exactly
    as [v] does. *)
Theorem compareDotVersions_trailing_zero (v w : string) :
  compareDotVersions (v ++ ".0") v = 0 /\
  compareDotVersions (v ++ ".0") w = compareDotVersions v w /\
  compareDotVersions w (v ++ ".0") = compareDotVersions w v.
Proof.
  assert (Hc : specComponents (v ++ ".0") = specComponents v ++ [0%Q]).
  { unfold specComponents. rewrite split_append_zero, map_app. reflexivity. }
  assert (Hpad : forall n, (S (List.length (specComponents v)) <= n)%nat ->
                 padTo n (specComponents (v ++ ".0")) = padTo n (specComponents v)).
  { intros n Hn. rewrite Hc. unfold padTo. rewrite length_app. cbn [List.length].
    rewrite <- app_assoc. f_equal.
    replace (n - List.length (specComponents v))%nat
      with (S (n - (List.length (specComponents v) + 1))) by lia.
    reflexivity. }
  assert (Hlen : List.length (specComponents (v ++ ".0"))
                 = S (List.length (specComponents v))).
  { rewrite Hc, length_app. cbn [List.length]. lia. }
  split; [|split].
  - rewrite (compareDotVersions_padded _ _ (S (List.length (specComponents v))))
      by lia.
    rewrite Hpad by lia. apply lexCompare_refl.
  - set (n := Nat.max (S (List.length (specComponents v)))
                      (List.length (specComponents w))).
    rewrite (compareDotVersions_padded (v ++ ".0") w n),
            (compareDotVersions_padded v w n) by lia.
    rewrite Hpad by lia. reflexivity.
  - set (n := Nat.max (S (List.length (specComponents v)))
                      (List.length (specComponents w))).
    rewrite (compareDotVersions_padded w (v ++ ".0") n),
            (compareDotVersions_padded w v n) by lia.
    rewrite Hpad by lia. reflexivity.
Qed.

Lemma deriveUpdateAvailabilityMetric_cases
    (installedVersion latestVersion : Metric string) :
  (exists installed latest,
     value installedVersion = Some installed /\
     value latestVersion = Some latest /\
     available installedVersion /\ available latestVersion /\
     deriveUpdateAvailabilityMetric installedVersion latestVersion
     = knownMetric (compareDotVersions latest installed >? 0)) \/
  (~ available installedVersion /\
   deriveUpdateAvailabilityMetric installedVersion latestVersion
   = unknownMetric (nullish (reason installedVersion)
                            "installed version unknown")) \/
  (available installedVersion /\ ~ available latestVersion /\
   deriveUpdateAvailabilityMetric installedVersion latestVersion
   = unknownMetric (nullish (reason latestVersion) "latest version unknown")).
Proof.
  unfold deriveUpdateAvailabilityMetric, available.
  destruct installedVersion as [ki ri [iv|]], latestVersion as [kl rl [lv|]];
    destruct ki, kl; cbn [known value reason];
    first
      [ left; exists iv, lv; repeat split; eauto; fail
      | right; left; split; [intros [H [x Hx]]; discriminate | reflexivity]
      | right; right; split; [split; eauto|];
        split; [intros [H [x Hx]]; discriminate | reflexivity] ].
Qed.

(** X9. Update availability is known exactly when both versions are
    available; an unavailable installed version decides the reason before
    the latest version is looked at; the same version text on both sides
    gives known-false; and two versions are never each an update of the
    other. *)
Theorem deriveUpdateAvailabilityMetric_behaviour
    (installedVersion latestVersion : Metric string) :
  (known (deriveUpdateAvailabilityMetric installedVersion latestVersion) = true
   <-> available installedVersion /\ available latestVersion) /\
  (~ available installedVersion ->
     deriveUpdateAvailabilityMetric installedVersion latestVersion
     = unknownMetric (nullish (reason installedVersion)
                              "installed version unknown")) /\
  (available installedVersion -> ~ available latestVersion ->
     deriveUpdateAvailabilityMetric installedVersion latestVersion
     = unknownMetric (nullish (reason latestVersion)
                              "latest version unknown")) /\
  (forall v : string,
     deriveUpdateAvailabilityMetric (knownMetric v) (knownMetric v)
     = knownMetric false) /\
  (deriveUpdateAvailabilityMetric installedVersion latestVersion
     = knownMetric true ->
   deriveUpdateAvailabilityMetric latestVersion installedVersion
     = knownMetric false).
Proof.
  split; [|split; [|split; [|split]]].
  - destruct (deriveUpdateAvailabilityMetric_cases installedVersion latestVersion)
      as [(iv & lv & _ & _ & Hi & Hl & ->) | [(Hi & ->) | (Hi & Hl & ->)]];
      cbn [known knownMetric unknownMetric]; split; try discriminate; tauto.
  - intros Hno.
    destruct (deriveUpdateAvailabilityMetric_cases installedVersion latestVersion)
      as [(iv & lv & _ & _ & Hi & Hl & E) | [(Hi & E) | (Hi & Hl & E)]];
      [contradiction | exact E | contradiction].
  - intros Hyes Hno.
    destruct (deriveUpdateAvailabilityMetric_cases installedVersion latestVersion)
      as [(iv & lv & _ & _ & Hi & Hl & E) | [(Hi & E) | (Hi & Hl & E)]];
      [contradiction | contradiction | exact E].
  - intros v. unfold deriveUpdateAvailabilityMetric. cbn [known value knownMetric].
    rewrite compareDotVersions_same. reflexivity.
  - intros Htrue.
    destruct (deriveUpdateAvailabilityMetric_cases installedVersion latestVersion)
      as [(iv & lv & Ei & El & Hi & Hl & E) | [(Hi & E) | (Hi & Hl & E)]];
      rewrite E in Htrue; try discriminate.
    unfold knownMetric in Htrue. injection Htrue as Hgt.
    unfold deriveUpdateAvailabilityMetric.
    destruct Hi as [Hki _], Hl as [Hkl _].
    rewrite Hki, Hkl, Ei, El. unfold knownMetric. do 2 f_equal.
    rewrite (compareDotVersions_swap iv lv).
    destruct (compareDotVersions lv iv); try discriminate. reflexivity.
Qed.

End VersionOrderFacts.

(* ================================================================== *)
(** * Properties of the gateway and cron collectors *)
(* ================================================================== *)

Section GatewayFacts.

Import BoardSnapshot Status StatusLevels Gateway.

(** Each RED reason is listed exactly when its own condition holds,
    whatever the other triggers are. *)
Lemma red_reason_listed (s : withoutOverall) :
  (In "critical security findings > 0"
      (OverallCard.reasons (deriveOverallCard s)) <->
   knownPositive (SecurityCard.critical (security s))) /\
  (In "failing cron jobs > 0" (OverallCard.reasons (deriveOverallCard s)) <->
   knownPositive (CronCard.failingOrRecentErrorCount (cron s))) /\
  (In "gateway unreachable" (OverallCard.reasons (deriveOverallCard s)) <->
   knownFalse (GatewayCard.reachable (gateway s))).
Proof.
  rewrite <- !metricGreaterThan_zero, <- metricEqualsBoolean_false.
  unfold deriveOverallCard, redReasons, amberReasons.
  destruct (metricGreaterThan (SecurityCard.critical (security s)) 0),
           (metricGreaterThan (CronCard.failingOrRecentErrorCount (cron s)) 0),
           (metricEqualsBoolean (GatewayCard.reachable (gateway s)) false);
    cbn [filter nonEmpty String.length Nat.ltb Nat.leb List.length
         OverallCard.reasons];
    try (cbn [In]; intuition discriminate).
  destruct (metricGreaterThan (SecurityCard.warning (security s)) 0),
           (criticalUnknown s),
           (metricEqualsBoolean (RepoDriftCard.clean (repoDrift s)) false),
           (metricGreaterThan (RepoDriftCard.behindCount (repoDrift s)) 0);
    cbn [filter nonEmpty String.length Nat.ltb Nat.leb List.length
         OverallCard.reasons In];
    intuition discriminate.
Qed.

Lemma collectGatewayCard_cases (m : Metric StatusSource.t) :
  (exists payload b,
     delivered m /\ value m = Some payload /\
     reachableOf payload = Some (Some b) /\
     GatewayCard.reachable (CollectorOutput.card (collectGatewayCard m))
       = knownMetric b /\
     CollectorOutput.warnings (collectGatewayCard m)
       = if b then []
         else [ buildWarning "gateway" "gateway_unreachable"
                  "gateway unreachable" sev_error None ]) \/
  (exists why,
     ~ (exists payload b, delivered m /\ value m = Some payload /\
                          reachableOf payload = Some (Some b)) /\
     GatewayCard.reachable (CollectorOutput.card (collectGatewayCard m))
       = unknownMetric why /\
     CollectorOutput.warnings (collectGatewayCard m)
       = [ buildWarning "gateway" "gateway_reachability_unknown" why
             sev_warn None ]).
Proof.
  unfold collectGatewayCard, delivered.
  destruct m as [k why [payload|]]; destruct k; cbn [known value reason].
  - unfold gatewayFromStatus.
    destruct (reachableOf payload) as [[b|]|] eqn:Hr.
    + left. exists payload, b. repeat split; eauto.
      destruct b; reflexivity.
    + right. eexists. split; [|split; reflexivity].
      intros (p & b & _ & E & Hb). injection E as <-. congruence.
    + right. eexists. split; [|split; reflexivity].
      intros (p & b & _ & E & Hb). injection E as <-. congruence.
  - right. eexists. split; [|split; reflexivity].
    intros (p & b & [Hk _] & _). discriminate.
  - right. eexists. split; [|split; reflexivity].
    intros (p & b & _ & E & _). discriminate.
  - right. eexists. split; [|split; reflexivity].
    intros (p & b & [Hk _] & _). discriminate.
Qed.

(** X10. The gateway collector emits at most one warning, tied to the
    reachability it reports: none exactly when the gateway is known
    reachable, a warning of severity error exactly when it is known
    unreachable (which needs a delivered payload whose [reachable] is the
    boolean false), and a warning of severity warn carrying the metric's
    own reason exactly when reachability is unknown. *)
Theorem collectGatewayCard_warnings (m : Metric StatusSource.t) :
  (List.length (CollectorOutput.warnings (collectGatewayCard m)) <= 1)%nat /\
  (CollectorOutput.warnings (collectGatewayCard m) = [] <->
   GatewayCard.reachable (CollectorOutput.card (collectGatewayCard m))
     = knownMetric true) /\
  (hasError (CollectorOutput.warnings (collectGatewayCard m)) <->
   knownFalse
     (GatewayCard.reachable (CollectorOutput.card (collectGatewayCard m)))) /\
  (knownFalse
     (GatewayCard.reachable (CollectorOutput.card (collectGatewayCard m))) <->
   exists payload, delivered m /\ value m = Some payload /\
                   reachableOf payload = Some (Some false)) /\
  (known (GatewayCard.reachable (CollectorOutput.card (collectGatewayCard m)))
     = false <->
   exists why,
     reason (GatewayCard.reachable (CollectorOutput.card (collectGatewayCard m)))
       = Some why /\
     CollectorOutput.warnings (collectGatewayCard m)
       = [ buildWarning "gateway" "gateway_reachability_unknown" why
             sev_warn None ]).
Proof.
  unfold hasError, knownFalse.
  destruct (collectGatewayCard_cases m)
    as [(payload & b & Hd & Hv & Hr & -> & ->) | (why & Hno & -> & ->)].
  - destruct b; cbn [List.length known value reason knownMetric].
    + split; [lia|]. split; [tauto|]. split; [|split].
      * split; [intros (w & [] & _) | intros [_ E]; discriminate].
      * split; [intros [_ E]; discriminate|].
        intros (p & _ & E & Hp). rewrite Hv in E. injection E as <-.
        rewrite Hr in Hp. discriminate.
      * split; [discriminate | intros (w & E & _); discriminate].
    + split; [lia|]. split; [split; discriminate|]. split; [|split].
      * split; [tauto|]. intros _. eexists.
        split; [left; reflexivity | reflexivity].
      * split; [intros _; exists payload; auto | tauto].
      * split; [discriminate | intros (w & E & _); discriminate].
  - cbn [List.length known value reason unknownMetric].
    split; [lia|]. split; [split; discriminate|]. split; [|split].
    + split; [|intros [E _]; discriminate].
      intros (w & [<- | []] & E). discriminate.
    + split; [intros [E _]; discriminate|].
      intros (p & Hd & Hv & Hr). exfalso. apply Hno. eauto.
    + split; [intros _; exists why; split; reflexivity | reflexivity].
Qed.

(** X11. On a board whose gateway card comes from the gateway collector,
    the collector's error-severity warning and the verdict's "gateway
    unreachable" reason go together, and with it the verdict is RED; and
    when the status source delivered no payload the verdict is never
    GREEN. *)
Theorem collectGatewayCard_verdict
    (m : Metric StatusSource.t) (s : withoutOverall) :
  gateway s = CollectorOutput.card (collectGatewayCard m) ->
  (hasError (CollectorOutput.warnings (collectGatewayCard m)) <->
   In "gateway unreachable" (OverallCard.reasons (deriveOverallCard s))) /\
  (hasError (CollectorOutput.warnings (collectGatewayCard m)) ->
   OverallCard.level (deriveOverallCard s) = RED) /\
  (~ delivered m -> OverallCard.level (deriveOverallCard s) <> GREEN).
Proof.
  intros Hg.
  destruct (red_reason_listed s) as (_ & _ & Hlisted).
  assert (Herr : hasError (CollectorOutput.warnings (collectGatewayCard m)) <->
                 knownFalse (GatewayCard.reachable (gateway s))).
  { rewrite Hg. unfold hasError, knownFalse.
    destruct (collectGatewayCard_cases m)
      as [(payload & b & Hd & Hv & Hr & -> & ->) | (why & Hno & -> & ->)].
    - destruct b; cbn [known value knownMetric].
      + split; [intros (w & [] & _) | intros [_ E]; discriminate].
      + split; [tauto|]. intros _. eexists.
        split; [left; reflexivity | reflexivity].
    - cbn [known unknownMetric]. split; [|intros [E _]; discriminate].
      intros (w & [<- | []] & E). discriminate. }
  split; [rewrite Herr, Hlisted; tauto|]. split.
  - intros He. apply Herr in He.
    rewrite deriveOverallCard_level_triggers.
    apply metricEqualsBoolean_false in He. rewrite He.
    rewrite !Bool.orb_true_r. reflexivity.
  - intros Hno Hgreen. apply green_only_if in Hgreen.
    destruct Hgreen as (_ & _ & Hwatch). apply Hwatch.
    unfold watchListUnknown, isUnknown. do 4 right. left. rewrite Hg.
    destruct (collectGatewayCard_cases m)
      as [(payload & b & Hd & _) | (why & _ & -> & _)];
      [contradiction | reflexivity].
Qed.

(** The payload reports an unreachable gateway: error warning, RED. *)
Lemma collectGatewayCard_verdict_witness :
  OverallCard.level
    (deriveOverallCard
       (withGateway healthySnapshot
          (CollectorOutput.card
             (collectGatewayCard
                (knownMetric (payloadWithGateway (Some (Some false)) None))))))
  = RED.
Proof.
  apply (collectGatewayCard_verdict
           (knownMetric (payloadWithGateway (Some (Some false)) None))
           (withGateway healthySnapshot
              (CollectorOutput.card
                 (collectGatewayCard
                    (knownMetric (payloadWithGateway (Some (Some false)) None)))))
           eq_refl).
  eexists. split; [left; reflexivity | reflexivity].
Defined.

End GatewayFacts.

Section CronFacts.

Import BoardSnapshot Status StatusLevels Cron.

Lemma failing_reflect (job : CronJob) :
  isEnabled job && (hasConsecutiveErrors job || hasNonOkLastStatus job) = true
  <-> failing job.
Proof.
  unfold isEnabled, hasConsecutiveErrors, hasNonOkLastStatus, failing, nullish.
  destruct job as [[[|]|] i [[[n|] [status|]]|]]; cbn [enabled state
    consecutiveErrors lastStatus andb orb];
    try (split; [discriminate | intros [E _]; discriminate]).
  - rewrite Bool.orb_true_iff, Bool.negb_true_iff, String.eqb_neq. split.
    + intros [H | H]; (split; [reflexivity|]).
      * left. eexists _, n. repeat split; try reflexivity. lia.
      * right. eexists _, status. repeat split; try reflexivity. exact H.
    + intros [_ [(st & n' & E & En & Hn) | (st & s' & E & Es & Hs)]];
        injection E as <-; cbn in *.
      * injection En as <-. left. lia.
      * injection Es as <-. right. exact Hs.
  - rewrite Bool.orb_false_r. split.
    + intros H. split; [reflexivity|]. left. eexists _, n.
      repeat split; try reflexivity. lia.
    + intros [_ [(st & n' & E & En & Hn) | (st & s' & E & Es & Hs)]];
        injection E as <-; cbn in *; [injection En as <-; lia | discriminate].
  - cbn [Z.gtb Z.compare orb]. rewrite Bool.negb_true_iff, String.eqb_neq. split.
    + intros H. split; [reflexivity|]. right. eexists _, status.
      repeat split; try reflexivity. exact H.
    + intros [_ [(st & n' & E & En & Hn) | (st & s' & E & Es & Hs)]];
        injection E as <-; cbn in *; [discriminate | injection Es as <-; exact Hs].
  - cbn. split; [discriminate|].
    intros [_ [(st & n' & E & En & Hn) | (st & s' & E & Es & Hs)]];
      injection E as <-; cbn in *; discriminate.
  - cbn. split; [discriminate|].
    intros [_ [(st & n' & E & En & Hn) | (st & s' & E & Es & Hs)]];
      discriminate.
Qed.

Lemma filter_filter_length {A : Type} (f g : A -> bool) (l : list A) :
  (List.length (filter g (filter f l)) <= List.length (filter f l)
   <= List.length l)%nat /\
  (List.length (filter g (filter f l)) = 0%nat <->
   forall x, In x l -> f x && g x = false).
Proof.
  induction l as [|x rest [IHb IHz]].
  - cbn. split; [lia|]. split; [intros _ x [] | reflexivity].
  - cbn [filter]. destruct (f x) eqn:Hf; cbn [filter List.length].
    + destruct (g x) eqn:Hg; cbn [List.length].
      * split; [lia|]. split; [discriminate|].
        intros H. specialize (H x (or_introl eq_refl)).
        rewrite Hf, Hg in H. discriminate.
      * split; [lia|]. rewrite IHz. split.
        -- intros H y [<- | Hin]; [rewrite Hf, Hg; reflexivity | auto].
        -- intros H y Hin. apply H. right. exact Hin.
    + split; [lia|]. rewrite IHz. split.
      * intros H y [<- | Hin]; [rewrite Hf; reflexivity | auto].
      * intros H y Hin. apply H. right. exact Hin.
Qed.

Lemma failingCount_le_enabled (jobs : list CronJob) :
  0 <= collectFailingCount jobs
    <= Z.of_nat (List.length (filter (fun job => isEnabled job) jobs)).
Proof.
  unfold collectFailingCount.
  destruct (filter_filter_length
              (fun job => isEnabled job)
              (fun job => hasConsecutiveErrors job || hasNonOkLastStatus job)
              jobs) as [Hb _].
  lia.
Qed.

(** X12. The failing count lies between 0 and the number of enabled
    jobs, which is at most the number of jobs; it is 0 exactly when no job
    is both enabled and failing (a positive consecutive-error count, or a
    last status that is present and not "ok"); and it is additive over
    concatenated job lists. *)
Theorem collectFailingCount_bounds (jobs more : list CronJob) :
  0 <= collectFailingCount jobs
    <= Z.of_nat (List.length (filter (fun job => isEnabled job) jobs)) /\
  (List.length (filter (fun job => isEnabled job) jobs) <= List.length jobs)%nat /\
  (collectFailingCount jobs = 0 <->
   forall job, In job jobs -> ~ failing job) /\
  collectFailingCount (jobs ++ more)
    = collectFailingCount jobs + collectFailingCount more.
Proof.
  unfold collectFailingCount.
  destruct (filter_filter_length
              (fun job => isEnabled job)
              (fun job => hasConsecutiveErrors job || hasNonOkLastStatus job)
              jobs) as [Hb Hz].
  split; [lia|]. split; [lia|]. split.
  - split.
    + intros H job Hin Hf. apply failing_reflect in Hf.
      assert (H0 : List.length
                (filter (fun job => hasConsecutiveErrors job || hasNonOkLastStatus job)
                        (filter (fun job => isEnabled job) jobs)) = 0%nat) by lia.
      rewrite (proj1 Hz H0 job Hin) in Hf. discriminate.
    + intros H.
      assert (H0 : List.length
                (filter (fun job => hasConsecutiveErrors job || hasNonOkLastStatus job)
                        (filter (fun job => isEnabled job) jobs)) = 0%nat).
      { apply Hz. intros job Hin.
        destruct (isEnabled job && _) eqn:E; [|reflexivity].
        exfalso. apply (H job Hin). apply failing_reflect. exact E. }
      rewrite H0. reflexivity.
  - rewrite !filter_app, length_app. lia.
Qed.

Lemma cronCardFrom_cases (st : Metric CronStatus) (l : Metric CronList) :
  (exists payload,
     listed l /\ value l = Some payload /\
     CollectorOutput.card (cronCardFrom st l)
     = {| CronCard.enabledCount :=
            knownMetric (Z.of_nat (List.length
                           (filter (fun job => isEnabled job) (jobs payload))));
          CronCard.failingOrRecentErrorCount :=
            knownMetric (collectFailingCount (jobs payload)) |} /\
     (CollectorOutput.warnings (cronCardFrom st l) = [] <-> known st = true)) \/
  (~ listed l /\
   known (CronCard.failingOrRecentErrorCount
            (CollectorOutput.card (cronCardFrom st l))) = false /\
   exists w, CollectorOutput.warnings (cronCardFrom st l) = [w] /\
             BoardWarning.severity w = sev_warn).
Proof.
  unfold cronCardFrom, listed.
  destruct l as [kl rl [payload|]]; destruct kl; cbn [known value reason].
  - left. exists payload. repeat split; eauto.
    + destruct (known st); [reflexivity | discriminate].
    + intros ->. reflexivity.
  - right. split; [intros [E _]; discriminate|].
    destruct st as [ks rs [status|]]; destruct ks; cbn [known value reason];
      (split; [reflexivity|]); eexists; (split; [reflexivity|]); reflexivity.
  - right. split; [intros [_ [p E]]; discriminate|].
    destruct st as [ks rs [status|]]; destruct ks; cbn [known value reason];
      (split; [reflexivity|]); eexists; (split; [reflexivity|]); reflexivity.
  - right. split; [intros [E _]; discriminate|].
    destruct st as [ks rs [status|]]; destruct ks; cbn [known value reason];
      (split; [reflexivity|]); eexists; (split; [reflexivity|]); reflexivity.
Qed.

(** X13. The cron card prefers the job list. When the list command
    delivered, both counts are known, the failing count does not exceed
    the enabled count, and the card does not depend on the status command
    at all; the failing count is known only in that case; and whenever a
    count of the card is unknown the collector emits a warning. *)
Theorem cronCardFrom_list_preferred
    (st : Metric CronStatus) (l : Metric CronList) :
  (listed l ->
     (forall st' : Metric CronStatus,
        CollectorOutput.card (cronCardFrom st' l)
        = CollectorOutput.card (cronCardFrom st l)) /\
     exists enabledCount failingCount,
       CollectorOutput.card (cronCardFrom st l)
       = {| CronCard.enabledCount := knownMetric enabledCount;
            CronCard.failingOrRecentErrorCount := knownMetric failingCount |} /\
       0 <= failingCount <= enabledCount) /\
  (known (CronCard.failingOrRecentErrorCount
            (CollectorOutput.card (cronCardFrom st l))) = true <-> listed l) /\
  (known (CronCard.enabledCount
            (CollectorOutput.card (cronCardFrom st l))) = false \/
   known (CronCard.failingOrRecentErrorCount
            (CollectorOutput.card (cronCardFrom st l))) = false ->
   CollectorOutput.warnings (cronCardFrom st l) <> []).
Proof.
  split; [|split].
  - intros Hl. split.
    + intros st'.
      destruct (cronCardFrom_cases st l) as [(p & _ & Hv & -> & _) | (Hno & _)];
        [|contradiction].
      destruct (cronCardFrom_cases st' l) as [(p' & _ & Hv' & -> & _) | (Hno & _)];
        [|contradiction].
      rewrite Hv in Hv'. injection Hv' as <-. reflexivity.
    + destruct (cronCardFrom_cases st l) as [(p & _ & Hv & -> & _) | (Hno & _)];
        [|contradiction].
      eexists _, _. split; [reflexivity|].
      apply failingCount_le_enabled.
  - destruct (cronCardFrom_cases st l) as [(p & Hl & _ & -> & _) | (Hno & -> & _)].
    + cbn. tauto.
    + split; [discriminate | contradiction].
  - destruct (cronCardFrom_cases st l)
      as [(p & Hl & _ & -> & _) | (Hno & _ & w & -> & _)].
    + cbn. intros [E | E]; discriminate.
    + intros _. discriminate.
Qed.

End CronFacts.

Section CronVerdictFacts.

Import BoardSnapshot Status StatusLevels Cron.

Lemma failingCount_positive (jobs : list CronJob) :
  0 < collectFailingCount jobs <->
  exists job, In job jobs /\ failing job.
Proof.
  unfold collectFailingCount.
  assert (E : forall l : list CronJob,
            filter (fun job => hasConsecutiveErrors job || hasNonOkLastStatus job)
                   (filter (fun job => isEnabled job) l)
            = filter (fun job => isEnabled job &&
                        (hasConsecutiveErrors job || hasNonOkLastStatus job)) l).
  { induction l as [|x rest IH]; [reflexivity|]. cbn [filter].
    destruct (isEnabled x); cbn [filter andb]; rewrite IH; reflexivity. }
  rewrite E.
  pose proof (filter_nonempty_existsb
                (fun job => isEnabled job &&
                   (hasConsecutiveErrors job || hasNonOkLastStatus job)) jobs) as Hn.
  split.
  - intros Hpos.
    assert (Hex : existsb (fun job => isEnabled job &&
                    (hasConsecutiveErrors job || hasNonOkLastStatus job)) jobs = true).
    { rewrite <- Hn. apply Nat.ltb_lt. lia. }
    apply existsb_exists in Hex. destruct Hex as (job & Hin & Hf).
    exists job. split; [exact Hin | apply failing_reflect; exact Hf].
  - intros (job & Hin & Hf).
    assert (Hex : existsb (fun job => isEnabled job &&
                    (hasConsecutiveErrors job || hasNonOkLastStatus job)) jobs = true).
    { apply existsb_exists. exists job.
      split; [exact Hin | apply failing_reflect; exact Hf]. }
    rewrite <- Hn in Hex. apply Nat.ltb_lt in Hex. lia.
Qed.

(** X14. On a board whose cron card comes from the cron collector, the
    verdict lists "failing cron jobs > 0" exactly when the job list was
    delivered and holds a job that is enabled and failing; and when the
    job list was not delivered the verdict is never GREEN. *)
Theorem cronCardFrom_verdict
    (st : Metric CronStatus) (l : Metric CronList) (s : withoutOverall) :
  cron s = CollectorOutput.card (cronCardFrom st l) ->
  (In "failing cron jobs > 0" (OverallCard.reasons (deriveOverallCard s)) <->
   exists payload job,
     listed l /\ value l = Some payload /\
     In job (jobs payload) /\ failing job) /\
  (~ listed l -> OverallCard.level (deriveOverallCard s) <> GREEN).
Proof.
  intros Hc.
  destruct (red_reason_listed s) as (_ & Hlisted & _).
  rewrite Hlisted, Hc. unfold knownPositive. split.
  - destruct (cronCardFrom_cases st l)
      as [(p & Hl & Hv & -> & _) | (Hno & Hk & _)].
    + cbn [CronCard.failingOrRecentErrorCount known value knownMetric]. split.
      * intros [_ (v & E & Hpos)]. injection E as <-.
        apply failingCount_positive in Hpos. destruct Hpos as (job & Hin & Hf).
        exists p, job. auto.
      * intros (p' & job & _ & Hv' & Hin & Hf).
        rewrite Hv in Hv'. injection Hv' as <-.
        split; [reflexivity|]. eexists. split; [reflexivity|].
        apply failingCount_positive. exists job. auto.
    + split.
      * intros [E _]. rewrite Hk in E. discriminate.
      * intros (p & job & Hl & _). contradiction.
  - intros Hno Hgreen. apply green_only_if in Hgreen.
    destruct Hgreen as (_ & _ & Hwatch). apply Hwatch.
    unfold watchListUnknown, isUnknown. do 2 right. left. rewrite Hc.
    destruct (cronCardFrom_cases st l) as [(p & Hl & _) | (_ & Hk & _)];
      [contradiction | exact Hk].
Qed.

(** One of three listed jobs is enabled and erroring. *)
Lemma cronCardFrom_verdict_witness :
  In "failing cron jobs > 0"
     (OverallCard.reasons
        (deriveOverallCard
           (withCron healthySnapshot
              (CollectorOutput.card
                 (cronCardFrom (unknownMetric "openclaw cron status --json: empty output")
                    (knownMetric
                       {| jobs := [healthyJob; erroringJob; disabledJob] |})))))).
Proof.
  apply (cronCardFrom_verdict
           (unknownMetric "openclaw cron status --json: empty output")
           (knownMetric {| jobs := [healthyJob; erroringJob; disabledJob] |})
           (withCron healthySnapshot
              (CollectorOutput.card
                 (cronCardFrom (unknownMetric "openclaw cron status --json: empty output")
                    (knownMetric
                       {| jobs := [healthyJob; erroringJob; disabledJob] |}))))
           eq_refl).
  exists {| jobs := [healthyJob; erroringJob; disabledJob] |}, erroringJob.
  split; [split; [reflexivity | eexists; reflexivity]|].
  split; [reflexivity|]. split; [right; left; reflexivity|].
  split; [reflexivity|]. left. eexists _, 3. repeat split; try reflexivity.
Defined.

End CronVerdictFacts.

(* ================================================================== *)
(** * Properties of the channels and agents collectors *)
(* ================================================================== *)

Section ChannelsFacts.

Import Channels.

Lemma filter_length_le {A : Type} (f : A -> bool) (l : list A) :
  (List.length (filter f l) <= List.length l)%nat.
Proof.
  induction l as [|x rest IH]; cbn [filter List.length]; [lia|].
  destruct (f x); cbn [List.length]; lia.
Qed.

(** X15. The channels card. When the status command delivered:
    [configuredCount] is known and at most the number of channels;
    [connectedCount] is known exactly when some channel exposes a
    [connected] boolean, and is then at most the number of channels that
    do; the collector emits no warning when it is known and exactly one
    warning, of severity info, when it is not. When the command did not
    deliver: [connectedCount] is unknown, [configuredCount] is whatever
    the config file gives, and exactly one warning of severity warn is
    emitted. *)
Theorem channelsCardFrom_behaviour
    (channelsMetric : Metric ChannelsStatus)
    (configMetric : Metric OpenClawConfig.t) :
  (forall payload : ChannelsStatus,
     known channelsMetric = true -> value channelsMetric = Some payload ->
     (exists n,
        ChannelsCard.configuredCount
          (CollectorOutput.card (channelsCardFrom channelsMetric configMetric))
        = knownMetric n /\
        0 <= n <= Z.of_nat (List.length (channels payload))) /\
     (known (ChannelsCard.connectedCount
               (CollectorOutput.card
                  (channelsCardFrom channelsMetric configMetric))) = true <->
      exists name entry b,
        In (name, entry) (channels payload) /\ connected entry = Some b) /\
     (forall c,
        ChannelsCard.connectedCount
          (CollectorOutput.card (channelsCardFrom channelsMetric configMetric))
        = knownMetric c ->
        0 <= c <= Z.of_nat (List.length
                   (filter (fun entry => exposesConnected entry)
                           (map snd (channels payload))))) /\
     (CollectorOutput.warnings (channelsCardFrom channelsMetric configMetric)
        = [] <->
      known (ChannelsCard.connectedCount
               (CollectorOutput.card
                  (channelsCardFrom channelsMetric configMetric))) = true) /\
     (known (ChannelsCard.connectedCount
               (CollectorOutput.card
                  (channelsCardFrom channelsMetric configMetric))) = false ->
      exists w,
        CollectorOutput.warnings (channelsCardFrom channelsMetric configMetric)
          = [w] /\
        BoardWarning.severity w = sev_info)) /\
  (~ reported channelsMetric ->
     known (ChannelsCard.connectedCount
              (CollectorOutput.card
                 (channelsCardFrom channelsMetric configMetric))) = false /\
     ChannelsCard.configuredCount
       (CollectorOutput.card (channelsCardFrom channelsMetric configMetric))
     = configuredCountFromConfig configMetric /\
     exists w,
       CollectorOutput.warnings (channelsCardFrom channelsMetric configMetric)
         = [w] /\
       BoardWarning.severity w = sev_warn).
Proof.
  split.
  - intros payload Hk Hv. unfold channelsCardFrom. rewrite Hk, Hv.
    cbn [CollectorOutput.card CollectorOutput.warnings
         ChannelsCard.configuredCount ChannelsCard.connectedCount].
    rewrite filter_nonempty_existsb.
    split; [|split; [|split; [|split]]].
    + eexists. split; [reflexivity|].
      pose proof (filter_length_le (fun entry => isConfigured entry)
                    (map snd (channels payload))) as H.
      rewrite length_map in H. lia.
    + destruct (existsb (fun entry => exposesConnected entry)
                        (map snd (channels payload))) eqn:E.
      * split; [intros _|reflexivity].
        apply existsb_exists in E. destruct E as (entry & Hin & He).
        apply in_map_iff in Hin. destruct Hin as ([name entry'] & <- & Hin).
        unfold exposesConnected in He. cbn [snd] in He.
        destruct (connected entry') as [b|] eqn:Hc; [|discriminate].
        exists name, entry', b. auto.
      * split; [discriminate|]. intros (name & entry & b & Hin & Hc).
        assert (Hex : existsb (fun entry => exposesConnected entry)
                        (map snd (channels payload)) = true).
        { apply existsb_exists. exists entry. split.
          - apply in_map_iff. exists (name, entry). auto.
          - unfold exposesConnected. rewrite Hc. reflexivity. }
        rewrite Hex in E. discriminate.
    + destruct (existsb (fun entry => exposesConnected entry)
                        (map snd (channels payload))); [|discriminate].
      intros c E. unfold knownMetric in E. injection E as <-.
      pose proof (filter_length_le (fun entry => isConnected entry)
                    (filter (fun entry => exposesConnected entry)
                            (map snd (channels payload)))) as H.
      lia.
    + destruct (existsb (fun entry => exposesConnected entry)
                        (map snd (channels payload)));
        cbn [known knownMetric unknownMetric]; split; try reflexivity;
        discriminate.
    + destruct (existsb (fun entry => exposesConnected entry)
                        (map snd (channels payload)));
        cbn [known knownMetric unknownMetric]; [discriminate|].
      intros _. eexists. split; reflexivity.
  - intros Hno. unfold channelsCardFrom, reported in *.
    destruct channelsMetric as [k why [payload|]]; destruct k;
      cbn [known value reason] in *;
      try (exfalso; apply Hno; split; [reflexivity | eexists; reflexivity]);
      (split; [reflexivity|]); (split; [reflexivity|]);
      eexists; split; reflexivity.
Qed.

End ChannelsFacts.

Section AgentsFacts.

Import Agents.

(** X16. The agents card takes the first source that has a list, in the
    order list command, status source, config file. With the list command
    delivered the count is its length and no warning is emitted, whatever
    the other two sources hold; without it, a list in the status source
    decides, whatever the config holds; without both, the config decides;
    and the count is unknown exactly when none of the three has a list.
    Every outcome but the first emits exactly one warning of severity
    warn. *)
Theorem agentsCardFrom_priority
    (agentsListMetric : Metric (list AgentListEntry))
    (statusSourceMetric : Metric StatusSource.t)
    (configMetric : Metric OpenClawConfig.t) :
  (forall agentsList,
     known agentsListMetric = true -> value agentsListMetric = Some agentsList ->
     agentsCardFrom agentsListMetric statusSourceMetric configMetric
     = {| CollectorOutput.card :=
            {| AgentsCard.configuredCount :=
                 knownMetric (Z.of_nat (List.length agentsList)) |};
          CollectorOutput.warnings := [] |}) /\
  (~ listedAgents agentsListMetric ->
     (forall agents,
        statusAgents statusSourceMetric = Some agents ->
        AgentsCard.configuredCount
          (CollectorOutput.card
             (agentsCardFrom agentsListMetric statusSourceMetric configMetric))
        = knownMetric (Z.of_nat (List.length agents))) /\
     (forall agents,
        statusAgents statusSourceMetric = None ->
        configAgents configMetric = Some agents ->
        AgentsCard.configuredCount
          (CollectorOutput.card
             (agentsCardFrom agentsListMetric statusSourceMetric configMetric))
        = knownMetric (Z.of_nat (List.length agents))) /\
     (statusAgents statusSourceMetric = None ->
      configAgents configMetric = None ->
      AgentsCard.configuredCount
        (CollectorOutput.card
           (agentsCardFrom agentsListMetric statusSourceMetric configMetric))
      = unknownMetric
          (nullish (reason agentsListMetric)
             (nullish (reason statusSourceMetric)
                (nullish (reason configMetric) "agent count unavailable")))) /\
     exists w,
       CollectorOutput.warnings
         (agentsCardFrom agentsListMetric statusSourceMetric configMetric)
       = [w] /\
       BoardWarning.severity w = sev_warn) /\
  (known (AgentsCard.configuredCount
            (CollectorOutput.card
               (agentsCardFrom agentsListMetric statusSourceMetric configMetric)))
   = false <->
   ~ listedAgents agentsListMetric /\
   statusAgents statusSourceMetric = None /\
   configAgents configMetric = None).
Proof.
  assert (Hfall :
    ~ listedAgents agentsListMetric ->
    agentsCardFrom agentsListMetric statusSourceMetric configMetric =
      match statusAgents statusSourceMetric with
      | Some agents =>
          {| CollectorOutput.card :=
               {| AgentsCard.configuredCount :=
                    knownMetric (Z.of_nat (List.length agents)) |};
             CollectorOutput.warnings :=
               [ buildWarning "agents" "agents_list_unavailable"
                   (nullish (reason agentsListMetric)
                            "agents list command unavailable")
                   sev_warn None ] |}
      | None =>
          match configAgents configMetric with
          | Some agents =>
              {| CollectorOutput.card :=
                   {| AgentsCard.configuredCount :=
                        knownMetric (Z.of_nat (List.length agents)) |};
                 CollectorOutput.warnings :=
                   [ buildWarning "agents" "agents_list_unavailable"
                       (nullish (reason agentsListMetric)
                                "agents list command unavailable")
                       sev_warn None ] |}
          | None =>
              {| CollectorOutput.card :=
                   {| AgentsCard.configuredCount :=
                        unknownMetric
                          (nullish (reason agentsListMetric)
                             (nullish (reason statusSourceMetric)
                                (nullish (reason configMetric)
                                         "agent count unavailable"))) |};
                 CollectorOutput.warnings :=
                   [ buildWarning "agents" "agents_unknown"
                       (nullish (reason agentsListMetric)
                          (nullish (reason statusSourceMetric)
                             (nullish (reason configMetric)
                                      "agent count unavailable")))
                       sev_warn None ] |}
          end
      end).
  { intros Hno. unfold agentsCardFrom, countFromStatusSource, listedAgents in *.
    destruct agentsListMetric as [k why [agentsList|]]; destruct k;
      cbn [known value reason] in *;
      try (exfalso; apply Hno; split; [reflexivity | eexists; reflexivity]);
      destruct (statusAgents statusSourceMetric); cbn [known knownMetric unknownMetric];
      reflexivity. }
  split; [|split].
  - intros agentsList Hk Hv. unfold agentsCardFrom. rewrite Hk, Hv. reflexivity.
  - intros Hno. rewrite (Hfall Hno). split; [|split; [|split]].
    + intros agents ->. reflexivity.
    + intros agents -> ->. reflexivity.
    + intros -> ->. reflexivity.
    + destruct (statusAgents statusSourceMetric);
        [|destruct (configAgents configMetric)];
        eexists; split; reflexivity.
  - split.
    + intros Hunknown.
      assert (Hno : ~ listedAgents agentsListMetric).
      { intros [Hk [agentsList Hv]]. unfold agentsCardFrom in Hunknown.
        rewrite Hk, Hv in Hunknown. discriminate. }
      split; [exact Hno|]. rewrite (Hfall Hno) in Hunknown.
      destruct (statusAgents statusSourceMetric); [discriminate|].
      destruct (configAgents configMetric); [discriminate|]. auto.
    + intros (Hno & Hs & Hc). rewrite (Hfall Hno), Hs, Hc. reflexivity.
Qed.

End AgentsFacts.

(* ================================================================== *)
(** * Invariants shared by the bridge and the collectors *)
(* ================================================================== *)

Section ShapeFacts.

Import MetricShape.

Lemma wellFormed_known {T : Type} (v : T) : wellFormed (knownMetric v).
Proof.
  left. repeat split. exists v. reflexivity.
Qed.

Lemma wellFormed_unknown {T : Type} (r : string) :
  wellFormed (unknownMetric (T := T) r).
Proof.
  right. repeat split. exists r. reflexivity.
Qed.

Ltac shape :=
  first [ apply wellFormed_known | apply wellFormed_unknown ].

(** X17. Whatever metrics their sources hand in, even ill-formed ones,
    every metric the collectors and the aggregator put on a card is
    well-formed: known with a value and no reason, or unknown with a
    reason and no value. *)
Theorem cards_wellFormed :
  (forall (audit : Metric Security.AuditPayload) (status : Metric StatusSource.t),
     wellFormed (SecurityCard.critical
                   (CollectorOutput.card (Security.securityCardFrom audit status))) /\
     wellFormed (SecurityCard.info
                   (CollectorOutput.card (Security.securityCardFrom audit status))) /\
     wellFormed (SecurityCard.warning
                   (CollectorOutput.card (Security.securityCardFrom audit status)))) /\
  (forall (st : Metric Cron.CronStatus) (l : Metric Cron.CronList),
     wellFormed (CronCard.enabledCount
                   (CollectorOutput.card (Cron.cronCardFrom st l))) /\
     wellFormed (CronCard.failingOrRecentErrorCount
                   (CollectorOutput.card (Cron.cronCardFrom st l)))) /\
  (forall (ch : Metric Channels.ChannelsStatus) (cfg : Metric OpenClawConfig.t),
     wellFormed (ChannelsCard.configuredCount
                   (CollectorOutput.card (Channels.channelsCardFrom ch cfg))) /\
     wellFormed (ChannelsCard.connectedCount
                   (CollectorOutput.card (Channels.channelsCardFrom ch cfg)))) /\
  (forall (al : Metric (list Agents.AgentListEntry))
          (status : Metric StatusSource.t) (cfg : Metric OpenClawConfig.t),
     wellFormed (AgentsCard.configuredCount
                   (CollectorOutput.card (Agents.agentsCardFrom al status cfg)))) /\
  (forall (m : Metric Sessions.SessionsPayload) (window : Z),
     wellFormed (SessionsCard.activeCount
                   (CollectorOutput.card (Sessions.sessionsCardFrom m window)))) /\
  (forall status : Metric StatusSource.t,
     wellFormed (GatewayCard.reachable
                   (CollectorOutput.card (Gateway.collectGatewayCard status))) /\
     wellFormed (GatewayCard.error
                   (CollectorOutput.card (Gateway.collectGatewayCard status)))) /\
  (forall (ws : list RepoWorkspaceDrift.t) (r : string),
     wellFormed (RepoDriftCard.clean (RepoDrift.aggregateRepoDrift ws r)) /\
     wellFormed (RepoDriftCard.dirtyCount (RepoDrift.aggregateRepoDrift ws r)) /\
     wellFormed (RepoDriftCard.aheadCount (RepoDrift.aggregateRepoDrift ws r)) /\
     wellFormed (RepoDriftCard.behindCount (RepoDrift.aggregateRepoDrift ws r)) /\
     wellFormed (RepoDriftCard.repositoryCount
                   (RepoDrift.aggregateRepoDrift ws r))) /\
  (forall installed latest : Metric string,
     wellFormed (UpdateAvailability.deriveUpdateAvailabilityMetric
                   installed latest)).
Proof.
  split; [|split; [|split; [|split; [|split; [|split; [|split]]]]]].
  - intros audit status. unfold Security.securityCardFrom.
    destruct (known audit), (value audit);
      try destruct (Security.fallbackSummaryOf status);
      cbn; repeat split; shape.
  - intros st l. unfold Cron.cronCardFrom.
    destruct (known l), (value l), (known st), (value st);
      cbn; split; shape.
  - intros ch cfg. unfold Channels.channelsCardFrom,
      Channels.configuredCountFromConfig.
    destruct (known ch), (value ch); cbn [CollectorOutput.card
      ChannelsCard.configuredCount ChannelsCard.connectedCount];
      try (destruct (known cfg), (value cfg); split; shape).
    split; [shape|].
    destruct (0 <? _)%nat; shape.
  - intros al status cfg. unfold Agents.agentsCardFrom,
      Agents.countFromStatusSource.
    destruct (known al), (value al);
      try destruct (Agents.statusAgents status);
      cbn [known knownMetric unknownMetric];
      try destruct (Agents.configAgents cfg); cbn; shape.
  - intros m window. unfold Sessions.sessionsCardFrom.
    destruct (known m), (value m); cbn; shape.
  - intros status. unfold Gateway.collectGatewayCard, Gateway.gatewayFromStatus.
    destruct (known status), (value status) as [payload|];
      try (cbn; split; shape).
    destruct (Gateway.reachableOf payload) as [[b|]|],
             (Gateway.errorOf payload) as [[e|]|]; cbn; split; shape.
  - intros ws r. unfold RepoDrift.aggregateRepoDrift.
    destruct (List.length ws =? 0)%nat;
      cbn [RepoDriftCard.clean RepoDriftCard.dirtyCount RepoDriftCard.aheadCount
           RepoDriftCard.behindCount RepoDriftCard.repositoryCount];
      [repeat split; shape|].
    unfold RepoDrift.aggregateBooleanMetric, RepoDrift.aggregateCountMetric.
    repeat split;
      repeat match goal with
             | |- context [if ?b then _ else _] => destruct b
             end; shape.
  - intros installed latest.
    unfold UpdateAvailability.deriveUpdateAvailabilityMetric.
    destruct (known installed), (value installed), (known latest),
      (value latest); shape.
Qed.

(** X18. An unknown metric is never silent: whenever a collector puts an
    unknown metric on its card (for the gateway: an unknown
    reachability), it also emits at least one warning. *)
Theorem unknown_metric_has_warning :
  (forall (audit : Metric Security.AuditPayload) (status : Metric StatusSource.t),
     known (SecurityCard.critical
              (CollectorOutput.card (Security.securityCardFrom audit status)))
       = false \/
     known (SecurityCard.warning
              (CollectorOutput.card (Security.securityCardFrom audit status)))
       = false \/
     known (SecurityCard.info
              (CollectorOutput.card (Security.securityCardFrom audit status)))
       = false ->
     CollectorOutput.warnings (Security.securityCardFrom audit status) <> []) /\
  (forall (ch : Metric Channels.ChannelsStatus) (cfg : Metric OpenClawConfig.t),
     known (ChannelsCard.configuredCount
              (CollectorOutput.card (Channels.channelsCardFrom ch cfg))) = false \/
     known (ChannelsCard.connectedCount
              (CollectorOutput.card (Channels.channelsCardFrom ch cfg))) = false ->
     CollectorOutput.warnings (Channels.channelsCardFrom ch cfg) <> []) /\
  (forall (al : Metric (list Agents.AgentListEntry))
          (status : Metric StatusSource.t) (cfg : Metric OpenClawConfig.t),
     known (AgentsCard.configuredCount
              (CollectorOutput.card (Agents.agentsCardFrom al status cfg)))
       = false ->
     CollectorOutput.warnings (Agents.agentsCardFrom al status cfg) <> []) /\
  (forall (m : Metric Sessions.SessionsPayload) (window : Z),
     known (SessionsCard.activeCount
              (CollectorOutput.card (Sessions.sessionsCardFrom m window)))
       = false ->
     CollectorOutput.warnings (Sessions.sessionsCardFrom m window) <> []) /\
  (forall status : Metric StatusSource.t,
     known (GatewayCard.reachable
              (CollectorOutput.card (Gateway.collectGatewayCard status)))
       = false ->
     CollectorOutput.warnings (Gateway.collectGatewayCard status) <> []).
Proof.
  split; [|split; [|split; [|split]]].
  - intros audit status. unfold Security.securityCardFrom.
    destruct (known audit), (value audit);
      try destruct (Security.fallbackSummaryOf status);
      cbn; intuition discriminate.
  - intros ch cfg. unfold Channels.channelsCardFrom.
    destruct (known ch), (value ch);
      cbn [CollectorOutput.card CollectorOutput.warnings
           ChannelsCard.configuredCount ChannelsCard.connectedCount];
      try (intros _; discriminate).
    destruct (0 <? _)%nat; cbn; intuition discriminate.
  - intros al status cfg. unfold Agents.agentsCardFrom,
      Agents.countFromStatusSource.
    destruct (known al), (value al);
      try destruct (Agents.statusAgents status);
      cbn [known knownMetric unknownMetric];
      try destruct (Agents.configAgents cfg); cbn; intuition discriminate.
  - intros m window. unfold Sessions.sessionsCardFrom.
    destruct (known m), (value m); cbn; intuition discriminate.
  - intros status. unfold Gateway.collectGatewayCard, Gateway.gatewayFromStatus.
    destruct (known status), (value status) as [payload|];
      try (cbn; intuition discriminate).
    destruct (Gateway.reachableOf payload) as [[[|]|]|]; cbn;
      intuition discriminate.
Qed.

End ShapeFacts.

Section BridgeShapeFacts.

Import MetricShape OpenClawText.

Lemma trimEnd_idempotent (s : string) : Js.trimEnd (Js.trimEnd s) = Js.trimEnd s.
Proof.
  induction s as [|c rest IH]; [reflexivity|].
  cbn [Js.trimEnd].
  destruct (Js.trimEnd rest) as [|d t] eqn:E.
  - destruct (Js.isWhiteSpace c) eqn:Hc; [reflexivity|].
    cbn [Js.trimEnd]. rewrite Hc. reflexivity.
  - cbn [Js.trimEnd]. cbn [Js.trimEnd] in IH. rewrite IH. reflexivity.
Qed.

Lemma trimStart_head (s : string) :
  Js.trimStart s = EmptyString \/
  exists c rest, Js.trimStart s = String c rest /\ Js.isWhiteSpace c = false.
Proof.
  induction s as [|c rest IH]; [left; reflexivity|].
  cbn [Js.trimStart]. destruct (Js.isWhiteSpace c) eqn:Hc; [exact IH|].
  right. exists c, rest. auto.
Qed.

Lemma trimEnd_head (c : ascii) (rest : string) :
  Js.isWhiteSpace c = false ->
  exists rest', Js.trimEnd (String c rest) = String c rest'.
Proof.
  intros Hc. cbn [Js.trimEnd]. rewrite Hc.
  destruct (Js.trimEnd rest); eexists; reflexivity.
Qed.

(** Trimming a trimmed string changes nothing. *)
Lemma trim_idempotent (s : string) : Js.trim (Js.trim s) = Js.trim s.
Proof.
  unfold Js.trim.
  destruct (trimStart_head s) as [-> | (c & rest & -> & Hc)]; [reflexivity|].
  destruct (trimEnd_head c rest Hc) as [rest' E].
  rewrite E. cbn [Js.trimStart]. rewrite Hc. rewrite <- E.
  apply trimEnd_idempotent.
Qed.

(** X19. The text metric of a command result is known exactly when the
    command succeeded and its output is not blank; its value is then the
    trimmed output, which is not empty and which trimming leaves
    unchanged; an unknown text metric has a reason that starts with the
    label. *)
Theorem textMetricFromCommand_behaviour
    (result : OpenClaw.CommandResult) (label : string) :
  (known (textMetricFromCommand result label) = true <->
   OpenClaw.ok result = true /\ Js.trim (OpenClaw.stdout result) <> EmptyString) /\
  (forall v : string,
     value (textMetricFromCommand result label) = Some v ->
     v = Js.trim (OpenClaw.stdout result) /\ v <> EmptyString /\ Js.trim v = v) /\
  (known (textMetricFromCommand result label) = false ->
   exists r,
     reason (textMetricFromCommand result label) = Some r /\
     startsWith r (label ++ ": ")) /\
  wellFormed (textMetricFromCommand result label).
Proof.
  unfold textMetricFromCommand, startsWith.
  destruct (OpenClaw.ok result); cbn [negb].
  - destruct (Js.trim (OpenClaw.stdout result)) as [|c rest] eqn:E;
      cbn [String.length Nat.eqb].
    + split; [split; [discriminate | intros [_ H]; congruence]|].
      split; [discriminate|].
      split; [|apply wellFormed_unknown].
      intros _. eexists. split; [reflexivity|].
      exists "empty output". rewrite string_app_assoc. reflexivity.
    + split; [split; [intros _; split; [reflexivity | discriminate] | reflexivity]|].
      split; [|split; [discriminate | apply wellFormed_known]].
      intros v Hv. cbn in Hv. injection Hv as <-.
      split; [reflexivity|]. split; [discriminate|].
      rewrite <- E. apply trim_idempotent.
  - split; [split; [discriminate | intros [H _]; discriminate]|].
    split; [discriminate|].
    split; [|apply wellFormed_unknown].
    intros _. eexists. split; [reflexivity|].
    exists (OpenClaw.commandReason result). rewrite string_app_assoc. reflexivity.
Qed.

(** X20. The JSON metric is never known unless the command succeeded, its
    trimmed output is not empty, the output parsed and the schema accepted
    the parsed value, whose validated data it then carries; an unknown
    JSON metric has a reason that starts with the label; and the metric is
    always well-formed. *)
Theorem jsonMetricFromCommand_shape
    (JSON_parse : string -> Js.parseResult) {T : Type}
    (result : OpenClaw.CommandResult) (schema : OpenClaw.Schema T) (label : string) :
  (forall data : T,
     value (OpenClaw.jsonMetricFromCommand JSON_parse result schema label) = Some data ->
     OpenClaw.ok result = true /\
     Js.trim (OpenClaw.stdout result) <> EmptyString /\
     exists j, JSON_parse (Js.trim (OpenClaw.stdout result)) = Js.Parsed j /\
               schema j = Some data) /\
  (known (OpenClaw.jsonMetricFromCommand JSON_parse result schema label) = true <->
   exists data, value (OpenClaw.jsonMetricFromCommand JSON_parse result schema label)
                = Some data) /\
  (known (OpenClaw.jsonMetricFromCommand JSON_parse result schema label) = false ->
   exists r,
     reason (OpenClaw.jsonMetricFromCommand JSON_parse result schema label) = Some r /\
     startsWith r (label ++ ": ")) /\
  wellFormed (OpenClaw.jsonMetricFromCommand JSON_parse result schema label).
Proof.
  unfold OpenClaw.jsonMetricFromCommand, startsWith.
  assert (Hunknown : forall why : string,
            (forall data : T, value (unknownMetric (T := T) (label ++ ": " ++ why))
                              = Some data ->
               OpenClaw.ok result = true /\
               Js.trim (OpenClaw.stdout result) <> EmptyString /\
               exists j, JSON_parse (Js.trim (OpenClaw.stdout result)) = Js.Parsed j /\
                         schema j = Some data) /\
            (known (unknownMetric (T := T) (label ++ ": " ++ why)) = true <->
             exists data, value (unknownMetric (T := T) (label ++ ": " ++ why))
                          = Some data) /\
            (known (unknownMetric (T := T) (label ++ ": " ++ why)) = false ->
             exists r,
               reason (unknownMetric (T := T) (label ++ ": " ++ why)) = Some r /\
               exists rest, r = ((label ++ ": ") ++ rest)%string) /\
            wellFormed (unknownMetric (T := T) (label ++ ": " ++ why))).
  { intros why. split; [discriminate|].
    split; [split; [discriminate | intros [d E]; discriminate]|].
    split; [|apply wellFormed_unknown].
    intros _. eexists. split; [reflexivity|].
    exists why. rewrite string_app_assoc. reflexivity. }
  destruct (OpenClaw.ok result); cbn [negb]; [|apply Hunknown].
  destruct (Js.trim (OpenClaw.stdout result)) as [|c rest] eqn:E;
    cbn [String.length Nat.eqb]; [apply Hunknown|].
  destruct (JSON_parse (String c rest)) as [j|e] eqn:Hp; [|apply Hunknown].
  destruct (schema j) as [data|] eqn:Hs; [|apply Hunknown].
  split; [|split; [|split; [discriminate | apply wellFormed_known]]].
  - intros d Hd. cbn in Hd. injection Hd as <-.
    split; [reflexivity|]. split; [discriminate|]. exists j. auto.
  - split; [intros _; exists data; reflexivity | reflexivity].
Qed.

End BridgeShapeFacts.

(* ================================================================== *)
(** * Properties of the git-failure classification *)
(* ================================================================== *)

Section GitFailureFacts.

Import GitFailure.

(** X21. Whatever git reported, the classified failure is coherent: the
    warning carries the same reason as the metric, comes from "repoDrift"
    and always has a context path, which the reason text names and which
    is the workspace path or the resolved repository root; the severity is
    error exactly when the lower-cased reason and first stderr line
    contain "not found" (that test wins over every other pattern), which
    is exactly the code "git_not_found"; the severity is info exactly for
    the code "repo_upstream_missing"; and a workspace that is not a git
    repository is reported against the workspace path. *)
Theorem describeGitFailure_coherent
    (workspacePath resultReason stderr : string)
    (repositoryRoot : option string) :
  BoardWarning.reason
    (warning (describeGitFailure workspacePath resultReason stderr repositoryRoot))
  = reason (describeGitFailure workspacePath resultReason stderr repositoryRoot) /\
  BoardWarning.source
    (warning (describeGitFailure workspacePath resultReason stderr repositoryRoot))
  = "repoDrift" /\
  (exists path,
     BoardWarning.context
       (warning (describeGitFailure workspacePath resultReason stderr
                   repositoryRoot)) = Some path /\
     OpenClaw.contains
       (reason (describeGitFailure workspacePath resultReason stderr
                  repositoryRoot)) path /\
     (path = workspacePath \/ repositoryRoot = Some path)) /\
  (BoardWarning.severity
     (warning (describeGitFailure workspacePath resultReason stderr
                 repositoryRoot)) = sev_error <->
   includes (searchableOf resultReason stderr) "not found" = true) /\
  (BoardWarning.severity
     (warning (describeGitFailure workspacePath resultReason stderr
                 repositoryRoot)) = sev_error <->
   BoardWarning.code
     (warning (describeGitFailure workspacePath resultReason stderr
                 repositoryRoot)) = "git_not_found") /\
  (BoardWarning.severity
     (warning (describeGitFailure workspacePath resultReason stderr
                 repositoryRoot)) = sev_info <->
   BoardWarning.code
     (warning (describeGitFailure workspacePath resultReason stderr
                 repositoryRoot)) = "repo_upstream_missing") /\
  (BoardWarning.code
     (warning (describeGitFailure workspacePath resultReason stderr
                 repositoryRoot)) = "workspace_not_git_repo" ->
   BoardWarning.context
     (warning (describeGitFailure workspacePath resultReason stderr
                 repositoryRoot)) = Some workspacePath).
Proof.
  assert (Hpath : nullish repositoryRoot workspacePath = workspacePath \/
                  repositoryRoot = Some (nullish repositoryRoot workspacePath))
    by (destruct repositoryRoot; cbn; auto).
  unfold describeGitFailure, searchableOf.
  destruct (includes _ "not found") eqn:H1;
    [|destruct (includesAny _ ["not a git repository"; "not in a git directory"]);
      [|destruct (includesAny _ _)]];
    cbn [warning reason buildWarning BoardWarning.reason BoardWarning.source
         BoardWarning.context BoardWarning.severity BoardWarning.code];
    (split; [reflexivity|]); (split; [reflexivity|]);
    (split; [eexists; split; [reflexivity|]; split; [|auto] |]).
  - apply contains_suffix.
  - repeat split; try reflexivity; try discriminate; auto.
  - apply contains_suffix.
  - repeat split; try reflexivity; try discriminate; auto.
  - apply contains_suffix.
  - repeat split; try reflexivity; try discriminate; auto.
  - eexists "git command failed for ", _. reflexivity.
  - repeat split; try reflexivity; try discriminate; auto.
Qed.

End GitFailureFacts.

(* ================================================================== *)
(** * The aggregated repo-drift card under the deriver *)
(* ================================================================== *)

Section RepoVerdictFacts.

Import BoardSnapshot Status StatusLevels RepoWorkspaceDrift RepoDrift
       RepoDriftTotals.

(** X22. On a board whose repo-drift card is the aggregate of a workspace
    list: an empty list never gives GREEN; a workspace that is known to be
    dirty never gives GREEN, and gives the reason "repo drift: dirty
    repository" unless a RED condition holds; and a GREEN verdict means
    that every workspace has a known cleanliness, none is known-dirty, no
    workspace lacks its behind count and the behind counts sum to at
    most 0. *)
Theorem aggregateRepoDrift_verdict
    (ws : list RepoWorkspaceDrift.t) (r : string) (s : withoutOverall) :
  repoDrift s = aggregateRepoDrift ws r ->
  (ws = [] -> OverallCard.level (deriveOverallCard s) <> GREEN) /\
  ((exists w, In w ws /\ knownDirty w) ->
     OverallCard.level (deriveOverallCard s) <> GREEN /\
     (~ redCondition s ->
      In "repo drift: dirty repository"
         (OverallCard.reasons (deriveOverallCard s)))) /\
  (OverallCard.level (deriveOverallCard s) = GREEN ->
     (forall w, In w ws -> known (clean w) = true /\ ~ knownDirty w) /\
     (forall w, In w ws -> ~ countMissing (behindCount w)) /\
     totalOf behindCount ws <= 0).
Proof.
  intros Hr.
  assert (Hdirty : (exists w, In w ws /\ knownDirty w) ->
                   knownFalse (RepoDriftCard.clean (repoDrift s))).
  { intros (w & Hin & Hw). rewrite Hr.
    assert (Hne : ws <> []) by (intros ->; destruct Hin).
    unfold aggregateRepoDrift. rewrite (nonempty_length ws Hne).
    cbn [RepoDriftCard.clean]. unfold aggregateBooleanMetric.
    rewrite knownValues_include_false, existsb_knownDirtyb.
    replace (existsb knownDirtyb ws) with true; [split; reflexivity|].
    symmetry. apply existsb_exists. exists w.
    split; [exact Hin | apply knownDirtyb_spec; exact Hw]. }
  split; [|split].
  - intros -> Hgreen. apply green_only_if in Hgreen.
    destruct Hgreen as (_ & _ & Hwatch). apply Hwatch.
    unfold watchListUnknown, isUnknown. do 5 right. left. rewrite Hr. reflexivity.
  - intros Hex. pose proof (Hdirty Hex) as Hfalse. split.
    + intros Hgreen. apply green_only_if in Hgreen.
      destruct Hgreen as (_ & Hamber & _). apply Hamber.
      unfold amberValueCondition. auto.
    + intros Hred. unfold deriveOverallCard. rewrite (redReasons_nil s Hred).
      cbn [List.length Nat.ltb Nat.leb]. unfold amberReasons.
      apply metricEqualsBoolean_false in Hfalse. rewrite Hfalse.
      destruct (metricGreaterThan (SecurityCard.warning (security s)) 0),
               (criticalUnknown s),
               (metricGreaterThan (RepoDriftCard.behindCount (repoDrift s)) 0);
        cbn [filter nonEmpty String.length Nat.ltb Nat.leb List.length
             OverallCard.reasons In]; tauto.
  - intros Hgreen. apply green_only_if in Hgreen.
    destruct Hgreen as (_ & Hamber & Hwatch).
    assert (Hne : ws <> []).
    { intros ->. apply Hwatch. unfold watchListUnknown, isUnknown.
      do 5 right. left. rewrite Hr. reflexivity. }
    assert (Hcleanknown : known (RepoDriftCard.clean (repoDrift s)) = true).
    { destruct (known (RepoDriftCard.clean (repoDrift s))) eqn:E; [reflexivity|].
      exfalso. apply Hwatch. unfold watchListUnknown, isUnknown. tauto. }
    assert (Hbehindknown : known (RepoDriftCard.behindCount (repoDrift s)) = true).
    { destruct (known (RepoDriftCard.behindCount (repoDrift s))) eqn:E;
        [reflexivity|].
      exfalso. apply Hwatch. unfold watchListUnknown, isUnknown. tauto. }
    assert (Hnodirty : forall w, In w ws -> ~ knownDirty w).
    { intros w Hin Hw. apply Hamber. unfold amberValueCondition.
      right. left. apply Hdirty. eauto. }
    split; [|split].
    + intros w Hin. split; [|apply Hnodirty; exact Hin].
      rewrite Hr in Hcleanknown. unfold aggregateRepoDrift in Hcleanknown.
      rewrite (nonempty_length ws Hne) in Hcleanknown.
      cbn [RepoDriftCard.clean] in Hcleanknown.
      destruct (aggregateBooleanMetric_reading
                  (map (fun workspace => clean workspace) ws)
                  "repo cleanliness unknown") as [Hk _].
      rewrite Hk, existsb_knownDirtyb in Hcleanknown.
      assert (Hnone : existsb knownDirtyb ws = false).
      { destruct (existsb knownDirtyb ws) eqn:E; [|reflexivity].
        apply existsb_exists in E. destruct E as (w' & Hin' & Hw').
        exfalso. apply (Hnodirty w' Hin'). apply knownDirtyb_spec. exact Hw'. }
      rewrite Hnone in Hcleanknown. cbn [orb] in Hcleanknown.
      apply Bool.negb_true_iff in Hcleanknown.
      destruct (known (clean w)) eqn:E; [reflexivity|].
      assert (Hex : existsb (fun metric => negb (known metric))
                      (map (fun workspace => clean workspace) ws) = true).
      { apply existsb_exists. exists (clean w). split.
        - apply in_map_iff. exists w. auto.
        - rewrite E. reflexivity. }
      rewrite Hex in Hcleanknown. discriminate.
    + rewrite Hr in Hbehindknown. unfold aggregateRepoDrift in Hbehindknown.
      rewrite (nonempty_length ws Hne) in Hbehindknown.
      cbn [RepoDriftCard.behindCount] in Hbehindknown.
      rewrite (aggregateCountMetric_firstMissing behindCount) in Hbehindknown.
      destruct (firstMissing behindCount ws) eqn:E; [discriminate|].
      apply firstMissing_none. exact E.
    + rewrite Hr in Hbehindknown. unfold aggregateRepoDrift in Hbehindknown.
      rewrite (nonempty_length ws Hne) in Hbehindknown.
      cbn [RepoDriftCard.behindCount] in Hbehindknown.
      rewrite (aggregateCountMetric_firstMissing behindCount) in Hbehindknown.
      destruct (firstMissing behindCount ws) eqn:E; [discriminate|].
      destruct (Z_le_gt_dec (totalOf behindCount ws) 0) as [Hle | Hgt];
        [exact Hle|].
      exfalso. apply Hamber. unfold amberValueCondition. right. right.
      rewrite Hr. unfold aggregateRepoDrift. rewrite (nonempty_length ws Hne).
      cbn [RepoDriftCard.behindCount].
      rewrite (aggregateCountMetric_firstMissing behindCount), E.
      split; [reflexivity|]. eexists. split; [reflexivity|]. lia.
Qed.

(** The baseline with the aggregate of no workspace is not GREEN. *)
Lemma aggregateRepoDrift_verdict_witness :
  OverallCard.level
    (deriveOverallCard
       (withRepoDrift healthySnapshot
          (aggregateRepoDrift [] "no OpenClaw workspaces discovered")))
  <> GREEN.
Proof.
  destruct (aggregateRepoDrift_verdict [] "no OpenClaw workspaces discovered"
              (withRepoDrift healthySnapshot
                 (aggregateRepoDrift [] "no OpenClaw workspaces discovered"))
              eq_refl) as (Hempty & _ & _).
  apply Hempty. reflexivity.
Defined.

End RepoVerdictFacts.

(* ================================================================== *)
(** * Properties of the version token and of the version-drift collector *)
(* ================================================================== *)

Section VersionTokenFacts.

Import VersionToken.

Lemma dot_not_digit : isDigit "." = false.
Proof. reflexivity. Qed.

Lemma dottedRun_idempotent (s : string) :
  dottedRun (dottedRun s) = dottedRun s.
Proof.
  induction s as [|c rest IH]; [reflexivity|].
  cbn [dottedRun]. destruct (isDigit c) eqn:Hc.
  - cbn [dottedRun]. rewrite Hc, IH. reflexivity.
  - destruct (Ascii.eqb c ".") eqn:Hdot; [|reflexivity].
    destruct rest as [|d rest']; [reflexivity|].
    destruct (isDigit d) eqn:Hd; [|reflexivity].
    cbn [dottedRun] in IH |- *. rewrite Hd in IH |- *.
    cbn [dottedRun]. rewrite dot_not_digit. cbn [Ascii.eqb Bool.eqb].
    rewrite Hd. cbn [dottedRun] in IH. rewrite Hd in IH.
    injection IH as IH. rewrite IH. reflexivity.
Qed.

Lemma dottedRun_prefix (s : string) :
  exists rest, s = (dottedRun s ++ rest)%string.
Proof.
  induction s as [|c s IH]; [exists EmptyString; reflexivity|].
  cbn [dottedRun]. destruct IH as [r IH].
  destruct (isDigit c).
  - exists r. cbn [String.append]. rewrite <- IH. reflexivity.
  - destruct (Ascii.eqb c ".") eqn:Hdot; [|eexists; reflexivity].
    destruct s as [|d s']; [eexists; reflexivity|].
    destruct (isDigit d); [|eexists; reflexivity].
    apply Ascii.eqb_eq in Hdot. subst c.
    exists r. cbn [String.append]. rewrite <- IH. reflexivity.
Qed.

Lemma dottedRun_extend (p r : string) :
  exists r', dottedRun (p ++ r) = (dottedRun p ++ r')%string.
Proof.
  induction p as [|c p IH]; [exists (dottedRun r); reflexivity|].
  cbn [String.append dottedRun]. destruct IH as [r' IH].
  destruct (isDigit c).
  - exists r'. rewrite IH. reflexivity.
  - destruct (Ascii.eqb c "."); [|eexists; reflexivity].
    destruct p as [|d p']; [eexists; reflexivity|].
    cbn [String.append]. destruct (isDigit d); [|eexists; reflexivity].
    exists r'. cbn [String.append] in IH. rewrite IH. reflexivity.
Qed.

Lemma hasDot_append (a b : string) :
  hasDot (a ++ b) = hasDot a || hasDot b.
Proof.
  unfold hasDot. induction a as [|c a IH]; [reflexivity|].
  cbn [String.append list_ascii_of_string existsb]. rewrite IH.
  rewrite Bool.orb_assoc. reflexivity.
Qed.

Lemma matchAt_extend (p r t : string) :
  matchAt p = Some t -> exists t', matchAt (p ++ r) = Some t'.
Proof.
  unfold matchAt. destruct p as [|c p]; [discriminate|].
  cbn [String.append]. destruct (isDigit c); [|discriminate].
  destruct (hasDot (dottedRun (String c p))) eqn:Hd; [|discriminate].
  intros _. destruct (dottedRun_extend (String c p) r) as [r' E].
  cbn [String.append] in E. rewrite E, hasDot_append, Hd. eexists. reflexivity.
Qed.

Lemma versionToken_extend (p r t : string) :
  versionToken p = Some t -> exists t', versionToken (p ++ r) = Some t'.
Proof.
  revert t. induction p as [|c p IH]; intros t.
  - cbn. discriminate.
  - cbn [versionToken]. destruct (matchAt (String c p)) as [t0|] eqn:Hm.
    + intros _. destruct (matchAt_extend _ r _ Hm) as [t' E].
      cbn [String.append] in E |- *. cbn [versionToken]. rewrite E.
      eexists. reflexivity.
    + intros Hp. destruct (IH _ Hp) as [t' E].
      cbn [String.append versionToken].
      destruct (matchAt (String c (p ++ r))); eexists; [reflexivity | exact E].
Qed.

Lemma trimEnd_prefix (s : string) :
  exists rest, s = (Js.trimEnd s ++ rest)%string.
Proof.
  induction s as [|c s [r IH]]; [exists EmptyString; reflexivity|].
  cbn [Js.trimEnd]. destruct (Js.trimEnd s) as [|d t].
  - destruct (Js.isWhiteSpace c); eexists; reflexivity.
  - exists r. cbn [String.append] in IH |- *. rewrite <- IH. reflexivity.
Qed.

Lemma versionToken_none_trim (s : string) :
  versionToken s = None -> versionToken (Js.trim s) = None.
Proof.
  intros Hnone. unfold Js.trim.
  assert (Hstart : versionToken (Js.trimStart s) = None).
  { induction s as [|c s IH]; [reflexivity|].
    cbn [Js.trimStart]. destruct (Js.isWhiteSpace c); [|exact Hnone].
    apply IH. cbn [versionToken] in Hnone.
    destruct (matchAt (String c s)); [discriminate | exact Hnone]. }
  destruct (versionToken (Js.trimEnd (Js.trimStart s))) as [t|] eqn:E;
    [|reflexivity].
  destruct (trimEnd_prefix (Js.trimStart s)) as [r Hr].
  destruct (versionToken_extend _ r _ E) as [t' E'].
  rewrite <- Hr, Hstart in E'. discriminate.
Qed.

Lemma matchAt_head (c : ascii) (s : string) :
  matchAt (String c s) =
    if isDigit c
    then if hasDot (dottedRun (String c s))
         then Some (dottedRun (String c s)) else None
    else None.
Proof. reflexivity. Qed.

Lemma matchAt_dotted (s t : string) : matchAt s = Some t -> dotted t.
Proof.
  destruct s as [|c s]; [discriminate|]. rewrite matchAt_head.
  destruct (isDigit c) eqn:Hc; [|discriminate].
  destruct (hasDot (dottedRun (String c s))) eqn:Hd; [|discriminate].
  intros E. injection E as <-.
  assert (Hrun : dottedRun (String c s) = String c (dottedRun s))
    by (cbn [dottedRun]; rewrite Hc; reflexivity).
  rewrite Hc. unfold dotted. rewrite matchAt_head, Hc, <- Hrun.
  rewrite dottedRun_idempotent, Hd. reflexivity.
Qed.

Lemma versionToken_dotted (s t : string) : versionToken s = Some t -> dotted t.
Proof.
  induction s as [|c s IH]; [cbn; discriminate|].
  cbn [versionToken]. destruct (matchAt (String c s)) as [t0|] eqn:Hm.
  - intros E. injection E as <-. apply (matchAt_dotted _ _ Hm).
  - exact IH.
Qed.

Lemma string_app_nil_r (x : string) : (x ++ "")%string = x.
Proof.
  induction x as [|c x IH]; [reflexivity|]. cbn [append]. rewrite IH.
  reflexivity.
Qed.

Lemma string_length_app (a b : string) :
  String.length (a ++ b) = (String.length a + String.length b)%nat.
Proof.
  induction a as [|c a IH]; [reflexivity|].
  cbn [append String.length]. rewrite IH. reflexivity.
Qed.

Lemma digit_not_dot (c : ascii) :
  isDigit c = true -> Ascii.eqb c "." = false.
Proof.
  intros Hc. destruct (Ascii.eqb c ".") eqn:E; [|reflexivity].
  apply Ascii.eqb_eq in E. subst c. discriminate Hc.
Qed.

Lemma dottedRun_digit (c : ascii) (s : string) :
  isDigit c = true -> dottedRun (String c s) = String c (dottedRun s).
Proof. intros Hc. cbn [dottedRun]. rewrite Hc. reflexivity. Qed.

Lemma dottedRun_dot (d : ascii) (s : string) :
  isDigit d = true ->
  dottedRun (String "." (String d s)) = String "." (dottedRun (String d s)).
Proof.
  intros Hd. rewrite (dottedRun_digit d s Hd).
  cbn [dottedRun]. rewrite dot_not_digit. cbn [Ascii.eqb Bool.eqb].
  rewrite Hd. reflexivity.
Qed.

Lemma dottedRun_dot_stop (d : ascii) (s : string) :
  isDigit d = false -> dottedRun (String "." (String d s)) = EmptyString.
Proof.
  intros Hd. cbn [dottedRun]. rewrite dot_not_digit. cbn [Ascii.eqb Bool.eqb].
  rewrite Hd. reflexivity.
Qed.

Lemma dottedRun_other (x : ascii) (s : string) :
  isDigit x = false -> Ascii.eqb x "." = false ->
  dottedRun (String x s) = EmptyString.
Proof. intros Hx Hdot. cbn [dottedRun]. rewrite Hx, Hdot. reflexivity. Qed.

Lemma digits_head (d : string) :
  digits d -> exists c rest, d = String c rest /\ isDigit c = true.
Proof. intros [c Hc | c d' Hc _]; eauto. Qed.

Lemma digits_run (d : string) :
  digits d -> forall r, dottedRun (d ++ r) = (d ++ dottedRun r)%string.
Proof.
  induction 1 as [c Hc | c d Hc Hd IH]; intros r; cbn [append];
    rewrite (dottedRun_digit _ _ Hc); [reflexivity|].
  rewrite IH. reflexivity.
Qed.

Lemma digits_no_dot (d : string) : digits d -> hasDot d = false.
Proof.
  unfold hasDot.
  induction 1 as [c Hc | c d Hc Hd IH]; cbn [list_ascii_of_string existsb];
    rewrite (digit_not_dot c Hc); [reflexivity | exact IH].
Qed.

Lemma dotGroups_run (g : string) : dotGroups g -> dottedRun g = g.
Proof.
  induction 1 as [d Hd | d g Hd Hg IH].
  - destruct (digits_head d Hd) as (c & rest & E & Hc).
    pose proof (digits_run d Hd EmptyString) as Hrun.
    rewrite string_app_nil_r in Hrun. cbn [dottedRun append] in Hrun.
    rewrite string_app_nil_r in Hrun. subst d.
    rewrite (dottedRun_dot c rest Hc), Hrun. reflexivity.
  - destruct (digits_head d Hd) as (c & rest & E & Hc).
    pose proof (digits_run d Hd g) as Hrun. rewrite IH in Hrun. subst d.
    cbn [append] in Hrun |- *.
    rewrite (dottedRun_dot c (rest ++ g) Hc), Hrun. reflexivity.
Qed.

Lemma dotGroups_hasDot (g : string) : dotGroups g -> hasDot g = true.
Proof. intros [d Hd | d g' Hd Hg]; reflexivity. Qed.

Lemma versionShape_facts (t : string) :
  versionShape t ->
  dottedRun t = t /\ hasDot t = true /\
  exists c rest, t = String c rest /\ isDigit c = true.
Proof.
  intros (d & g & Hd & Hg & ->). split; [|split].
  - rewrite (digits_run d Hd), (dotGroups_run g Hg). reflexivity.
  - rewrite hasDot_append, (dotGroups_hasDot g Hg). apply Bool.orb_true_r.
  - destruct (digits_head d Hd) as (c & rest & -> & Hc).
    exists c, (rest ++ g)%string. split; [reflexivity | exact Hc].
Qed.

(** What the run after a digit looks like: digits only, or the shape of
    the pattern. *)
Lemma run_shape (n : nat) :
  forall (s : string) (c : ascii),
    (String.length s <= n)%nat -> isDigit c = true ->
    digits (dottedRun (String c s)) \/ versionShape (dottedRun (String c s)).
Proof.
  induction n as [|n IH]; intros s c Hlen Hc; rewrite (dottedRun_digit c s Hc).
  - destruct s; [|cbn in Hlen; lia]. left. apply digits_one. exact Hc.
  - destruct s as [|x s]; [left; apply digits_one; exact Hc|].
    cbn [String.length] in Hlen.
    destruct (isDigit x) eqn:Hx.
    + destruct (IH s x ltac:(lia) Hx) as [Hd | (d & g & Hd & Hg & E)].
      * left. apply digits_more; assumption.
      * right. exists (String c d), g. rewrite E.
        split; [apply digits_more; assumption|]. split; [exact Hg|reflexivity].
    + destruct (Ascii.eqb x ".") eqn:Hdot.
      * apply Ascii.eqb_eq in Hdot. subst x.
        destruct s as [|d s]; [left; apply digits_one; exact Hc|].
        cbn [String.length] in Hlen.
        destruct (isDigit d) eqn:Hd.
        -- rewrite (dottedRun_dot d s Hd). right.
           destruct (IH s d ltac:(lia) Hd) as [Hrun | (d1 & g1 & Hd1 & Hg1 & E)].
           ++ exists (String c EmptyString),
                     (String "." (dottedRun (String d s))).
              split; [apply digits_one; exact Hc|].
              split; [apply groups_one; exact Hrun | reflexivity].
           ++ exists (String c EmptyString), (String "." (d1 ++ g1)).
              split; [apply digits_one; exact Hc|].
              split; [apply groups_more; assumption|].
              rewrite E. reflexivity.
        -- rewrite (dottedRun_dot_stop d s Hd). left.
           apply digits_one. exact Hc.
      * rewrite (dottedRun_other x s Hx Hdot). left.
        apply digits_one. exact Hc.
Qed.

(** A match at the head of a text has the shape of the pattern and is the
    whole run found there. *)
Lemma matchAt_shape (s t : string) :
  matchAt s = Some t ->
  versionShape t /\ t = dottedRun s /\ exists after, s = (t ++ after)%string.
Proof.
  destruct s as [|c s]; [discriminate|]. rewrite matchAt_head.
  destruct (isDigit c) eqn:Hc; [|discriminate].
  destruct (hasDot (dottedRun (String c s))) eqn:Hdot; [|discriminate].
  intros E. injection E as <-. split; [|split].
  - destruct (run_shape (String.length s) s c (le_n _) Hc) as [Hd | Hs];
      [|exact Hs].
    rewrite (digits_no_dot _ Hd) in Hdot. discriminate Hdot.
  - reflexivity.
  - apply dottedRun_prefix.
Qed.

(** A text of the pattern's shape at the head is matched, by a run that
    extends it. *)
Lemma shape_matchAt (t r : string) :
  versionShape t ->
  exists r', matchAt (t ++ r) = Some (t ++ r')%string.
Proof.
  intros Ht. destruct (versionShape_facts t Ht) as (Hrun & Hdot & c & rest & -> & Hc).
  destruct (dottedRun_extend (String c rest) r) as [r' E].
  rewrite Hrun in E. exists r'.
  cbn [append] in E |- *. rewrite matchAt_head, Hc, E.
  change (String c (rest ++ r')) with (String c rest ++ r')%string.
  rewrite hasDot_append, Hdot. reflexivity.
Qed.

Lemma versionToken_matchAt (s t : string) :
  matchAt s = Some t -> versionToken s = Some t.
Proof.
  intros H. destruct s as [|c s]; [discriminate H|].
  cbn [versionToken]. rewrite H. reflexivity.
Qed.

Lemma versionShape_nonempty : ~ versionShape EmptyString.
Proof.
  intros H. destruct (versionShape_facts _ H) as (_ & _ & c & rest & E & _).
  discriminate E.
Qed.

Lemma versionToken_leftmostGreedy (s t : string) :
  versionToken s = Some t -> leftmostGreedy s t.
Proof.
  revert t. induction s as [|c s IH]; intros t; [cbn; discriminate|].
  cbn [versionToken]. destruct (matchAt (String c s)) as [t0|] eqn:Hm.
  - intros E. injection E as <-.
    destruct (matchAt_shape _ _ Hm) as (Hshape & Hrun & after & Hs).
    exists EmptyString, after. split; [exact Hs|]. split; [exact Hshape|].
    split.
    + intros skipped later other rest E Hne.
      destruct skipped; cbn [append] in E; [|discriminate E].
      congruence.
    + intros other rest Hother E.
      destruct (shape_matchAt other rest Hother) as [r' Hm'].
      rewrite <- E, <- Hs, Hm in Hm'. injection Hm' as ->.
      rewrite string_length_app. lia.
  - intros E. destruct (IH t E) as (before & after & Hs & Hshape & Hleft & Hgreedy).
    exists (String c before), after.
    split; [cbn [append]; rewrite <- Hs; reflexivity|].
    split; [exact Hshape|]. split; [|exact Hgreedy].
    intros skipped later other rest Esplit Hne Hother Eother.
    destruct skipped as [|x skipped]; cbn [append] in Esplit.
    + subst later. cbn [append] in Eother. rewrite <- Hs in Eother.
      destruct (shape_matchAt other rest Hother) as [r' Hm'].
      rewrite <- Eother, Hm in Hm'. discriminate Hm'.
    + injection Esplit as _ Esplit.
      apply (Hleft skipped later other rest Esplit Hne Hother Eother).
Qed.

Lemma leftmostGreedy_versionToken (s t : string) :
  leftmostGreedy s t -> versionToken s = Some t.
Proof.
  intros (before & after & Hs & Hshape & Hleft & Hgreedy).
  revert s Hs Hleft. induction before as [|c before IH]; intros s Hs Hleft.
  - cbn [append] in Hs. subst s. apply versionToken_matchAt.
    destruct (shape_matchAt t after Hshape) as [r' Hm].
    destruct (matchAt_shape _ _ Hm) as (Hshape' & _ & rest & Hprefix).
    pose proof (Hgreedy _ _ Hshape' Hprefix) as Hlen.
    rewrite string_length_app in Hlen.
    destruct r' as [|x r']; [|cbn [String.length] in Hlen; lia].
    rewrite string_app_nil_r in Hm. exact Hm.
  - cbn [append] in Hs. subst s. cbn [versionToken].
    destruct (matchAt (String c (before ++ t ++ after))) as [x|] eqn:Hm.
    + exfalso. destruct (matchAt_shape _ _ Hm) as (Hx & _ & rest & Hprefix).
      apply (Hleft EmptyString (String c before) x rest);
        [reflexivity | discriminate | exact Hx | exact Hprefix].
    + apply IH; [reflexivity|].
      intros skipped later other rest Esplit.
      apply (Hleft (String c skipped) later other rest).
      cbn [append]. rewrite Esplit. reflexivity.
Qed.

Lemma versionToken_noVersion (s : string) :
  versionToken s = None <-> noVersion s.
Proof.
  split.
  - induction s as [|c s IH]; intros Hnone before t after Hs Hshape.
    + destruct before; [|discriminate Hs]. cbn [append] in Hs.
      destruct t; [exact (versionShape_nonempty Hshape) | discriminate Hs].
    + cbn [versionToken] in Hnone.
      destruct (matchAt (String c s)) as [x|] eqn:Hm; [discriminate Hnone|].
      destruct before as [|x before]; cbn [append] in Hs.
      * destruct (shape_matchAt t after Hshape) as [r' Hm'].
        rewrite <- Hs, Hm in Hm'. discriminate Hm'.
      * injection Hs as _ Hs. apply (IH Hnone before t after Hs Hshape).
  - intros Hno. destruct (versionToken s) as [t|] eqn:E; [|reflexivity].
    exfalso. destruct (versionToken_leftmostGreedy _ _ E)
      as (before & after & Hs & Hshape & _).
    apply (Hno before t after Hs Hshape).
Qed.

(** X23. Normalizing a version text. [normalizeVersion] is idempotent.
    When some part of the text has the shape of the pattern (digits, then
    one or more groups of a dot and digits), the result is the leftmost
    such part, taken greedily: it occurs in the text, no part of that
    shape starts further left, and no longer part of that shape starts at
    the same place; this determines the result, and normalizing it again
    returns it unchanged. When no part of the text has that shape, the
    result is the trimmed text. [parseVersionNumber] finds the same
    token, and nothing in the second case. *)
Theorem normalizeVersion_idempotent (rawValue : string) :
  normalizeVersion (normalizeVersion rawValue) = normalizeVersion rawValue /\
  ((exists before t after,
      rawValue = (before ++ t ++ after)%string /\ versionShape t) ->
   exists token,
     leftmostGreedy rawValue token /\ normalizeVersion rawValue = token) /\
  (forall token : string,
     leftmostGreedy rawValue token ->
     normalizeVersion rawValue = token /\
     parseVersionNumber rawValue = Some token /\
     normalizeVersion token = token) /\
  (noVersion rawValue ->
   normalizeVersion rawValue = Js.trim rawValue /\
   parseVersionNumber rawValue = None).
Proof.
  assert (Hself : forall t, dotted t -> versionToken t = Some t).
  { intros t Ht. unfold dotted in Ht. destruct t as [|c t]; [discriminate|].
    cbn [versionToken]. rewrite Ht. reflexivity. }
  unfold normalizeVersion, parseVersionNumber. split; [|split; [|split]].
  - destruct (versionToken rawValue) as [t|] eqn:E; cbn [nullish].
    + rewrite (Hself t (versionToken_dotted _ _ E)). reflexivity.
    + rewrite (versionToken_none_trim _ E). cbn [nullish].
      apply trim_idempotent.
  - intros (before & t & after & Hs & Hshape).
    destruct (versionToken rawValue) as [token|] eqn:E.
    + exists token. split; [apply versionToken_leftmostGreedy; exact E|].
      reflexivity.
    + exfalso. apply versionToken_noVersion in E.
      apply (E before t after Hs Hshape).
  - intros token Htoken.
    pose proof (leftmostGreedy_versionToken _ _ Htoken) as E.
    rewrite E. cbn [nullish]. split; [reflexivity|]. split; [reflexivity|].
    rewrite (Hself token (versionToken_dotted _ _ E)). reflexivity.
  - intros Hno. apply versionToken_noVersion in Hno. rewrite Hno.
    split; reflexivity.
Qed.

(** A version banner, where the token sits in the middle of the text, and
    a text without a version. *)
Lemma normalizeVersion_idempotent_witness :
  (leftmostGreedy "openclaw v2026.2.12 (build 7)" "2026.2.12" /\
   normalizeVersion "openclaw v2026.2.12 (build 7)" = "2026.2.12") /\
  normalizeVersion " dev build " = "dev build".
Proof.
  split.
  - destruct (normalizeVersion_idempotent "openclaw v2026.2.12 (build 7)")
      as (_ & Hfound & _).
    destruct Hfound as (token & Hleft & Hresult).
    + exists "openclaw v", "2026.2.12", " (build 7)".
      split; [reflexivity|].
      exists "2026", ".2.12". split; [|split; [|reflexivity]].
      * apply digits_more; [reflexivity|].
        apply digits_more; [reflexivity|].
        apply digits_more; [reflexivity|].
        apply digits_one. reflexivity.
      * apply (groups_more "2" ".12").
        -- apply digits_one. reflexivity.
        -- apply groups_one. apply digits_more; [reflexivity|].
           apply digits_one. reflexivity.
    + vm_compute in Hresult. subst token. split; [exact Hleft | reflexivity].
  - destruct (normalizeVersion_idempotent " dev build ") as (_ & _ & _ & Hnone).
    destruct Hnone as [Hresult _].
    + apply versionToken_noVersion. reflexivity.
    + exact Hresult.
Defined.

End VersionTokenFacts.

(* ================================================================== *)
(** * Properties of the version-drift collector *)
(* ================================================================== *)

Section VersionDriftCollectorFacts.

Import BoardSnapshot Status VersionToken UpdateAvailability
       VersionDriftCollector MetricShape.

Lemma normalizeVersionMetric_known (m : Metric string) :
  known (normalizeVersionMetric m) = known m.
Proof.
  unfold normalizeVersionMetric.
  destruct m as [k why [v|]]; destruct k; reflexivity.
Qed.

Lemma normalizeVersionMetric_available (m : Metric string) :
  available (normalizeVersionMetric m) <-> available m.
Proof.
  unfold normalizeVersionMetric, available.
  destruct m as [k why [v|]]; destruct k; cbn [known value knownMetric];
    split; intros [Hk [x Hx]]; try discriminate; split; eauto.
Qed.

Lemma latestVersionFromStatus_cases (status : Metric StatusSource.t) :
  (exists v, registryLatest status = Some v /\ v <> "" /\
             latestVersionFromStatus status = knownMetric v) \/
  ((registryLatest status = None \/ registryLatest status = Some "") /\
   latestVersionFromStatus status
   = unknownMetric (nullish (reason status)
                            "latest version unavailable from status source")).
Proof.
  unfold latestVersionFromStatus.
  destruct (registryLatest status) as [[|c v]|].
  - right. split; [right; reflexivity | reflexivity].
  - left. exists (String c v). repeat split. discriminate.
  - right. split; [left; reflexivity | reflexivity].
Qed.

(** X24. The version-drift collector. It emits one warning per unknown
    metric of its card, all from source "version"; the update-availability
    warning is the only one of severity info, the two version warnings are
    of severity warn. It is silent exactly when update availability is
    known, which is exactly when both versions carry a value. A non-empty
    latest version in the status source wins over the state file and is
    shown normalized. *)
Theorem versionDriftCardFrom_behaviour
    (installedText : Metric string) (status : Metric StatusSource.t)
    (stateLatest : Metric string) :
  List.length
    (CollectorOutput.warnings
       (versionDriftCardFrom installedText status stateLatest))
  = unknownCount
      (CollectorOutput.card
         (versionDriftCardFrom installedText status stateLatest)) /\
  (forall w,
     In w (CollectorOutput.warnings
             (versionDriftCardFrom installedText status stateLatest)) ->
     BoardWarning.source w = "version" /\
     BoardWarning.context w = None /\
     ((BoardWarning.code w = "update_availability_unknown" /\
       BoardWarning.severity w = sev_info) \/
      ((BoardWarning.code w = "installed_version_unknown" \/
        BoardWarning.code w = "latest_version_unknown") /\
       BoardWarning.severity w = sev_warn))) /\
  (CollectorOutput.warnings
     (versionDriftCardFrom installedText status stateLatest) = [] <->
   known (VersionDriftCard.updateAvailable
            (CollectorOutput.card
               (versionDriftCardFrom installedText status stateLatest)))
   = true) /\
  (known (VersionDriftCard.updateAvailable
            (CollectorOutput.card
               (versionDriftCardFrom installedText status stateLatest)))
   = true <->
   available installedText /\
   available (VersionDriftCard.latestVersion
                (CollectorOutput.card
                   (versionDriftCardFrom installedText status stateLatest)))) /\
  (forall v, registryLatest status = Some v -> v <> "" ->
     VersionDriftCard.latestVersion
       (CollectorOutput.card
          (versionDriftCardFrom installedText status stateLatest))
     = knownMetric (normalizeVersion v)) /\
  ((registryLatest status = None \/ registryLatest status = Some "") ->
     VersionDriftCard.latestVersion
       (CollectorOutput.card
          (versionDriftCardFrom installedText status stateLatest))
     = normalizeVersionMetric stateLatest).
Proof.
  unfold versionDriftCardFrom, unknownCount.
  cbn [CollectorOutput.card CollectorOutput.warnings
       VersionDriftCard.installedVersion VersionDriftCard.latestVersion
       VersionDriftCard.updateAvailable].
  set (installed := normalizeVersionMetric installedText).
  set (latest := if known (latestVersionFromStatus status)
                 then normalizeVersionMetric (latestVersionFromStatus status)
                 else normalizeVersionMetric stateLatest).
  assert (Hup : known (deriveUpdateAvailabilityMetric installed latest) = true
                <-> available installed /\ available latest).
  { destruct (deriveUpdateAvailabilityMetric_cases installed latest)
      as [(iv & lv & _ & _ & Hi & Hl & ->) | [(Hi & ->) | (Hi & Hl & ->)]];
      cbn [known knownMetric unknownMetric]; split; try discriminate; tauto. }
  assert (Hki : available installed -> known installed = true)
    by (intros [H _]; exact H).
  assert (Hkl : available latest -> known latest = true)
    by (intros [H _]; exact H).
  split; [|split; [|split; [|split; [|split]]]].
  - unfold warningIfUnknown.
    destruct (known installed), (known latest),
      (known (deriveUpdateAvailabilityMetric installed latest)); reflexivity.
  - intros w Hw. unfold warningIfUnknown in Hw.
    destruct (known installed), (known latest),
      (known (deriveUpdateAvailabilityMetric installed latest));
      cbn [app In] in Hw;
      repeat match goal with
             | H : _ \/ _ |- _ => destruct H as [H | H]
             | H : False |- _ => destruct H
             end;
      subst w; cbn; (split; [reflexivity|]; split; [reflexivity|]); tauto.
  - unfold warningIfUnknown.
    destruct (known (deriveUpdateAvailabilityMetric installed latest)) eqn:Eu.
    + destruct (proj1 Hup eq_refl) as [Hi Hl].
      rewrite (Hki Hi), (Hkl Hl). cbn. tauto.
    + split; [|discriminate]. intros E. exfalso.
      destruct (known installed), (known latest); discriminate.
  - rewrite Hup. subst installed. rewrite normalizeVersionMetric_available.
    tauto.
  - intros v Hv Hne. subst latest.
    destruct (latestVersionFromStatus_cases status)
      as [(v' & Hv' & _ & ->) | ([E | E] & _)]; try congruence.
    rewrite Hv in Hv'. injection Hv' as <-. reflexivity.
  - intros Hnone. subst latest.
    destruct (latestVersionFromStatus_cases status)
      as [(v' & Hv' & Hne & _) | (_ & ->)]; [|reflexivity].
    destruct Hnone as [E | E]; rewrite E in Hv'; [discriminate|].
    injection Hv' as <-. contradiction.
Qed.

Lemma wellFormed_available (m : Metric string) :
  wellFormed m -> known m = true -> available m.
Proof.
  intros [(Hk & _ & Hv) | (Hk & _)] Hknown; [split; assumption | congruence].
Qed.

Lemma normalizeVersionMetric_wellFormed (m : Metric string) :
  wellFormed m -> wellFormed (normalizeVersionMetric m).
Proof.
  intros Hw. unfold normalizeVersionMetric.
  destruct (known m); [|exact Hw].
  destruct (value m); [|exact Hw].
  apply wellFormed_known.
Qed.

Lemma latestVersionFromStatus_wellFormed (status : Metric StatusSource.t) :
  wellFormed (latestVersionFromStatus status).
Proof.
  destruct (latestVersionFromStatus_cases status)
    as [(v & _ & _ & ->) | (_ & ->)];
    [apply wellFormed_known | apply wellFormed_unknown].
Qed.

Lemma versionDriftCardFrom_cases_known
    (installedText : Metric string) (status : Metric StatusSource.t)
    (stateLatest : Metric string) :
  wellFormed installedText -> wellFormed stateLatest ->
  (known (VersionDriftCard.installedVersion
            (CollectorOutput.card
               (versionDriftCardFrom installedText status stateLatest)))
   = false \/
   known (VersionDriftCard.latestVersion
            (CollectorOutput.card
               (versionDriftCardFrom installedText status stateLatest)))
   = false) \/
  CollectorOutput.warnings
    (versionDriftCardFrom installedText status stateLatest) = [].
Proof.
  intros Hwi Hws. unfold versionDriftCardFrom.
  cbn [CollectorOutput.card CollectorOutput.warnings
       VersionDriftCard.installedVersion VersionDriftCard.latestVersion].
  set (installed := normalizeVersionMetric installedText).
  set (latest := if known (latestVersionFromStatus status)
                 then normalizeVersionMetric (latestVersionFromStatus status)
                 else normalizeVersionMetric stateLatest).
  assert (Hi : wellFormed installed)
    by (apply normalizeVersionMetric_wellFormed; exact Hwi).
  assert (Hl : wellFormed latest).
  { subst latest. destruct (known (latestVersionFromStatus status));
      apply normalizeVersionMetric_wellFormed;
      [apply latestVersionFromStatus_wellFormed | exact Hws]. }
  destruct (known installed) eqn:Hki; [|left; left; reflexivity].
  destruct (known latest) eqn:Hkl; [|left; right; reflexivity].
  right. unfold warningIfUnknown. rewrite Hki, Hkl.
  destruct (deriveUpdateAvailabilityMetric_cases installed latest)
    as [(iv & lv & _ & _ & _ & _ & ->) | [(Hno & _) | (_ & Hno & _)]];
    [reflexivity | |]; exfalso; apply Hno;
    apply wellFormed_available; assumption.
Qed.

(** X25. On a board whose version card comes from the version-drift
    collector: a version warning of severity warn means the verdict is not
    GREEN, and on a GREEN board fed by well-formed metrics the collector
    emitted no warning at all. Update availability itself never enters the
    verdict: replacing it by any other metric leaves the verdict
    unchanged. *)
Theorem versionDriftCardFrom_verdict
    (installedText : Metric string) (status : Metric StatusSource.t)
    (stateLatest : Metric string) (s : withoutOverall) :
  versionDrift s
  = CollectorOutput.card (versionDriftCardFrom installedText status stateLatest) ->
  ((exists w,
      In w (CollectorOutput.warnings
              (versionDriftCardFrom installedText status stateLatest)) /\
      BoardWarning.severity w = sev_warn) ->
   OverallCard.level (deriveOverallCard s) <> GREEN) /\
  (wellFormed installedText -> wellFormed stateLatest ->
   OverallCard.level (deriveOverallCard s) = GREEN ->
   CollectorOutput.warnings
     (versionDriftCardFrom installedText status stateLatest) = []) /\
  (forall m : Metric bool,
     deriveOverallCard
       (withVersionDrift s
          {| VersionDriftCard.installedVersion :=
               VersionDriftCard.installedVersion (versionDrift s);
             VersionDriftCard.latestVersion :=
               VersionDriftCard.latestVersion (versionDrift s);
             VersionDriftCard.updateAvailable := m |})
     = deriveOverallCard s).
Proof.
  intros Hv.
  assert (Hwatch :
    known (VersionDriftCard.installedVersion (versionDrift s)) = false \/
    known (VersionDriftCard.latestVersion (versionDrift s)) = false ->
    OverallCard.level (deriveOverallCard s) <> GREEN).
  { intros Hun Hgreen. apply green_only_if in Hgreen.
    destruct Hgreen as (_ & _ & Hno). apply Hno.
    unfold watchListUnknown, isUnknown. do 7 right. tauto. }
  split; [|split].
  - intros (w & Hw & Hsev). apply Hwatch. rewrite Hv.
    unfold versionDriftCardFrom in *.
    cbn [CollectorOutput.card CollectorOutput.warnings
         VersionDriftCard.installedVersion VersionDriftCard.latestVersion] in *.
    unfold warningIfUnknown in Hw.
    destruct (known (normalizeVersionMetric installedText)); [|tauto].
    destruct (known (if known (latestVersionFromStatus status)
                     then normalizeVersionMetric (latestVersionFromStatus status)
                     else normalizeVersionMetric stateLatest)); [|tauto].
    exfalso. destruct (known (deriveUpdateAvailabilityMetric _ _));
      cbn [app In] in Hw; [destruct Hw|].
    destruct Hw as [<- | []]. discriminate.
  - intros Hwi Hws Hgreen.
    destruct (versionDriftCardFrom_cases_known installedText status stateLatest
                Hwi Hws) as [Hk | Hk].
    + exfalso. revert Hgreen. apply Hwatch. rewrite Hv. exact Hk.
    + exact Hk.
  - intros m. reflexivity.
Qed.

(** The version command failed while the status source names a latest
    version: a warn-severity warning, and the board is not GREEN. *)
Lemma versionDriftCardFrom_verdict_witness :
  OverallCard.level
    (deriveOverallCard
       (withVersionDrift healthySnapshot
          (CollectorOutput.card
             (versionDriftCardFrom
                (unknownMetric "openclaw --version: openclaw not found")
                (knownMetric (payloadWithLatest "2026.3.1"))
                (unknownMetric
                   "latest version unavailable from state update-check.json")))))
  <> GREEN.
Proof.
  destruct (versionDriftCardFrom_verdict
              (unknownMetric "openclaw --version: openclaw not found")
              (knownMetric (payloadWithLatest "2026.3.1"))
              (unknownMetric
                 "latest version unavailable from state update-check.json")
              (withVersionDrift healthySnapshot
                 (CollectorOutput.card
                    (versionDriftCardFrom
                       (unknownMetric "openclaw --version: openclaw not found")
                       (knownMetric (payloadWithLatest "2026.3.1"))
                       (unknownMetric
                          "latest version unavailable from state update-check.json"))))
              eq_refl) as (Hwarn & _ & _).
  apply Hwarn. eexists. split; [left; reflexivity | reflexivity].
Defined.

End VersionDriftCollectorFacts.

(* ================================================================== *)
(** * Properties of the compatibility check *)
(* ================================================================== *)

Section CompatibilityFacts.

Import OpenClaw VersionToken Compatibility.

Lemma whiteSpace_not_nameChar (w : ascii) :
  Js.isWhiteSpace w = true -> isNameChar w = false.
Proof.
  destruct w as [[] [] [] [] [] [] [] []]; vm_compute;
    intros H; first [reflexivity | discriminate H].
Qed.

Lemma nameRun_split (s name after : string) :
  nameRun s = (name, after) ->
  s = (name ++ after)%string /\
  Forall (fun x => isNameChar x = true) (list_ascii_of_string name).
Proof.
  revert name after. induction s as [|c rest IH]; intros name after E.
  - cbn in E. injection E as <- <-. split; [reflexivity | constructor].
  - cbn [nameRun] in E. destruct (isNameChar c) eqn:Hc.
    + destruct (nameRun rest) as [n a] eqn:Er. injection E as <- <-.
      destruct (IH n a eq_refl) as [-> Hall].
      split; [reflexivity | constructor; assumption].
    + injection E as <- <-. split; [reflexivity | constructor].
Qed.

Lemma nameRun_append (name : string) (w : ascii) (rest : string) :
  Forall (fun x => isNameChar x = true) (list_ascii_of_string name) ->
  isNameChar w = false ->
  nameRun (name ++ String w rest) = (name, String w rest).
Proof.
  intros Hall Hw. induction name as [|c tail IH].
  - cbn [append nameRun]. rewrite Hw. reflexivity.
  - cbn [list_ascii_of_string] in Hall. inversion Hall as [|x l Hc Htail]; subst.
    cbn [append nameRun]. rewrite Hc, (IH Htail). reflexivity.
Qed.

Lemma commandLineMatch_lists (line name : string) :
  commandLineMatch line = Some name <-> listsCommand line name.
Proof.
  split.
  - destruct line as [|w1 [|w2 [|c rest]]]; try discriminate.
    cbn [commandLineMatch].
    destruct (Js.isWhiteSpace w1) eqn:H1; [|discriminate].
    destruct (Js.isWhiteSpace w2) eqn:H2; [|discriminate].
    destruct (isLower c) eqn:Hc; [|discriminate]. cbn [andb].
    destruct (nameRun rest) as [n after] eqn:Er.
    destruct after as [|w after']; [discriminate|].
    destruct (Js.isWhiteSpace w) eqn:Hw; [|discriminate].
    intros E. injection E as <-.
    destruct (nameRun_split _ _ _ Er) as [-> Hall].
    exists w1, w2, w, after'. repeat split; try assumption.
    exists c, n. repeat split; assumption.
  - intros (w1 & w2 & w & rest & -> & H1 & H2 & Hw & c & tail & -> & Hc & Hall).
    cbn [append commandLineMatch]. rewrite H1, H2, Hc. cbn [andb].
    rewrite (nameRun_append tail w rest Hall (whiteSpace_not_nameChar w Hw)).
    rewrite Hw. reflexivity.
Qed.

Lemma parseCommandNames_In (helpOutput name : string) :
  In name (parseCommandNames helpOutput) <->
  exists line, In line (Js.split "010" helpOutput) /\ listsCommand line name.
Proof.
  unfold parseCommandNames. rewrite filter_In, in_map_iff. split.
  - intros [(line & E & Hin) Hne]. exists line. split; [exact Hin|].
    apply commandLineMatch_lists.
    destruct (commandLineMatch line) as [n|]; cbn [nullish] in E.
    + congruence.
    + subst name. discriminate.
  - intros (line & Hin & Hl). pose proof Hl as Hm.
    apply commandLineMatch_lists in Hm. split.
    + exists line. rewrite Hm. split; [reflexivity | exact Hin].
    + destruct Hl as (_ & _ & _ & _ & _ & _ & _ & _ & c & tail & -> & _).
      reflexivity.
Qed.

(** X26. Reading the help output. A name is among the parsed commands
    exactly when some line of the output consists of two white-space
    characters, that name, a white-space character and anything after it,
    the name being a lower-case letter followed by lower-case letters,
    digits and hyphens. A line lists at most one name, every parsed name
    has that shape, and there are no more names than lines. *)
Theorem parseCommandNames_spec (helpOutput : string) :
  (forall name,
     In name (parseCommandNames helpOutput) <->
     exists line,
       In line (Js.split "010" helpOutput) /\ listsCommand line name) /\
  (forall line name name',
     listsCommand line name -> listsCommand line name' -> name = name') /\
  (forall name, In name (parseCommandNames helpOutput) -> commandName name) /\
  (List.length (parseCommandNames helpOutput)
   <= List.length (Js.split "010" helpOutput))%nat.
Proof.
  split; [|split; [|split]].
  - intros name. apply parseCommandNames_In.
  - intros line name name' H H'.
    apply commandLineMatch_lists in H, H'. congruence.
  - intros name Hin. apply parseCommandNames_In in Hin.
    destruct Hin as (line & _ & Hl).
    destruct Hl as (_ & _ & _ & _ & _ & _ & _ & _ & Hname). exact Hname.
  - unfold parseCommandNames.
    rewrite <- (length_map (fun line => nullish (commandLineMatch line) "")
                           (Js.split "010" helpOutput)).
    apply filter_length_le.
Qed.

Lemma checkOpenClawVersion_cases (runCommand : CommandRequest -> CommandResult) :
  (checkOpenClawVersion runCommand = [] /\
   versionSupported (runCommand versionRequest)) \/
  (exists w, checkOpenClawVersion runCommand = [w] /\
             BoardWarning.severity w = sev_warn /\
             BoardWarning.context w = None /\
             BoardWarning.source w = "compatibility" /\
             BoardWarning.code w <> "openclaw_command_missing" /\
             ~ versionSupported (runCommand versionRequest)).
Proof.
  unfold checkOpenClawVersion, versionSupported. fold versionRequest.
  destruct (ok (runCommand versionRequest)) eqn:Hok; cbn [negb].
  - destruct (parseVersionNumber (Js.trim (stdout (runCommand versionRequest))))
      as [token|] eqn:Htoken.
    + destruct (compareDotVersions token minimumSupportedOpenClawVersion >=? 0)
        eqn:Hcmp.
      * left. split; [reflexivity|]. split; [reflexivity|].
        exists token. split; [reflexivity|].
        rewrite Z.geb_leb in Hcmp. apply Z.leb_le in Hcmp. lia.
      * right. eexists. split; [reflexivity|].
        repeat split; try discriminate.
        intros (_ & t & Et & Hge). injection Et as <-.
        rewrite Z.geb_leb in Hcmp. apply Z.leb_gt in Hcmp. lia.
    + right. eexists. split; [reflexivity|].
      repeat split; try discriminate.
      intros (_ & t & Et & _). discriminate.
  - right. eexists. split; [reflexivity|].
    repeat split; try discriminate.
    intros (E & _). discriminate.
Qed.

(** The warnings for the required commands that the help output lacks. *)
Lemma missingCommandWarnings_In (available : list string) (w : BoardWarning.t) :
  In w (map (fun missingCommand =>
               buildWarning "compatibility" "openclaw_command_missing"
                 ("openclaw command not found in --help output: "
                    ++ missingCommand)%string
                 sev_warn (Some missingCommand))
            (filter (fun requiredCommand =>
                       negb (existsb (String.eqb requiredCommand) available))
                    requiredTopLevelCommands)) <->
  exists cmd,
    In cmd requiredTopLevelCommands /\ ~ In cmd available /\
    w = buildWarning "compatibility" "openclaw_command_missing"
          ("openclaw command not found in --help output: " ++ cmd)%string
          sev_warn (Some cmd).
Proof.
  rewrite in_map_iff. split.
  - intros (cmd & <- & Hin). apply filter_In in Hin. destruct Hin as [Hreq Hno].
    exists cmd. split; [exact Hreq|]. split; [|reflexivity].
    intros Hav. apply Bool.negb_true_iff in Hno.
    assert (existsb (String.eqb cmd) available = true).
    { apply existsb_exists. exists cmd. split; [exact Hav | apply String.eqb_refl]. }
    congruence.
  - intros (cmd & Hreq & Hno & ->). exists cmd. split; [reflexivity|].
    apply filter_In. split; [exact Hreq|]. apply Bool.negb_true_iff.
    destruct (existsb (String.eqb cmd) available) eqn:E; [|reflexivity].
    apply existsb_exists in E. destruct E as (x & Hx & Ex).
    apply String.eqb_eq in Ex. subst x. contradiction.
Qed.

(** X27. The compatibility check. A warning of severity error is emitted
    exactly when the help command failed; it is then the only warning and
    the version command is not consulted. When the help command
    succeeded, a required command has a warning with its name as context
    exactly when the help output does not list it, and there are at most
    seven warnings. The check is silent exactly when the help command
    succeeded, all six required commands are listed and the installed
    version is supported. Once the check has run, every later call
    returns the first result, whatever the environment has become. *)
Theorem collectCompatibilityWarnings_behaviour
    (runCommand : CommandRequest -> CommandResult) :
  ((exists w, In w (collectCompatibilityWarningsInner runCommand) /\
              BoardWarning.severity w = sev_error) <->
   ok (runCommand helpRequest) = false) /\
  (ok (runCommand helpRequest) = false ->
   List.length (collectCompatibilityWarningsInner runCommand) = 1%nat /\
   forall runCommand' : CommandRequest -> CommandResult,
     runCommand' helpRequest = runCommand helpRequest ->
     collectCompatibilityWarningsInner runCommand'
     = collectCompatibilityWarningsInner runCommand) /\
  (ok (runCommand helpRequest) = true ->
   forall cmd, In cmd requiredTopLevelCommands ->
     ((exists w, In w (collectCompatibilityWarningsInner runCommand) /\
                 BoardWarning.context w = Some cmd) <->
      ~ In cmd (parseCommandNames (stdout (runCommand helpRequest))))) /\
  (List.length (collectCompatibilityWarningsInner runCommand) <= 7)%nat /\
  (collectCompatibilityWarningsInner runCommand = [] <->
   ok (runCommand helpRequest) = true /\
   (forall cmd, In cmd requiredTopLevelCommands ->
      In cmd (parseCommandNames (stdout (runCommand helpRequest)))) /\
   versionSupported (runCommand versionRequest)) /\
  (forall (later : list (CommandRequest -> CommandResult))
          (result : list BoardWarning.t),
     In result (callsFrom (runCommand :: later) None) ->
     result = collectCompatibilityWarningsInner runCommand).
Proof.
  split; [|split; [|split; [|split; [|split]]]].
  - unfold collectCompatibilityWarningsInner. fold helpRequest.
    destruct (ok (runCommand helpRequest)); cbn [negb].
    + split; [|discriminate]. intros (w & Hin & Hsev). exfalso.
      apply in_app_or in Hin. destruct Hin as [Hin | Hin].
      * apply missingCommandWarnings_In in Hin.
        destruct Hin as (cmd & _ & _ & ->). discriminate.
      * destruct (checkOpenClawVersion_cases runCommand)
          as [(E & _) | (w' & E & Hs & _)]; rewrite E in Hin.
        -- destruct Hin.
        -- destruct Hin as [<- | []]. congruence.
    + split; [reflexivity|]. intros _. eexists.
      split; [left; reflexivity | reflexivity].
  - intros Hfail. unfold collectCompatibilityWarningsInner. fold helpRequest.
    rewrite Hfail. cbn [negb]. split; [reflexivity|].
    intros runCommand' ->. rewrite Hfail. reflexivity.
  - intros Hok cmd Hreq. unfold collectCompatibilityWarningsInner.
    fold helpRequest. rewrite Hok. cbn [negb]. split.
    + intros (w & Hin & Hctx). apply in_app_or in Hin. destruct Hin as [Hin | Hin].
      * apply missingCommandWarnings_In in Hin.
        destruct Hin as (cmd' & _ & Hno & ->). cbn in Hctx.
        injection Hctx as <-. exact Hno.
      * exfalso. destruct (checkOpenClawVersion_cases runCommand)
          as [(E & _) | (w' & E & _ & Hc & _)]; rewrite E in Hin.
        -- destruct Hin.
        -- destruct Hin as [<- | []]. congruence.
    + intros Hno. eexists. split.
      * apply in_or_app. left. apply missingCommandWarnings_In.
        exists cmd. split; [exact Hreq|]. split; [exact Hno | reflexivity].
      * reflexivity.
  - unfold collectCompatibilityWarningsInner. fold helpRequest.
    destruct (ok (runCommand helpRequest)); cbn [negb]; [|cbn; lia].
    rewrite length_app, length_map.
    set (missing := filter _ requiredTopLevelCommands).
    assert (Hle : (List.length missing <= 6)%nat)
      by exact (filter_length_le _ requiredTopLevelCommands).
    destruct (checkOpenClawVersion_cases runCommand)
      as [(E & _) | (w' & E & _)]; rewrite E; cbn [List.length]; lia.
  - unfold collectCompatibilityWarningsInner. fold helpRequest.
    destruct (ok (runCommand helpRequest)); cbn [negb];
      [|split; [discriminate | intros (E & _); discriminate]].
    split.
    + intros E. apply app_eq_nil in E. destruct E as [Emiss Ever].
      split; [reflexivity|]. split.
      * intros cmd Hreq.
        destruct (in_dec string_dec cmd
                    (parseCommandNames (stdout (runCommand helpRequest))))
          as [Hin | Hno]; [exact Hin|]. exfalso.
        assert (Hw : In (buildWarning "compatibility" "openclaw_command_missing"
                           ("openclaw command not found in --help output: "
                              ++ cmd)%string sev_warn (Some cmd)) []).
        { rewrite <- Emiss. apply missingCommandWarnings_In.
          exists cmd. split; [exact Hreq|]. split; [exact Hno | reflexivity]. }
        destruct Hw.
      * destruct (checkOpenClawVersion_cases runCommand)
          as [(_ & Hs) | (w' & E & _)]; [exact Hs | congruence].
    + intros (_ & Hall & Hs).
      destruct (checkOpenClawVersion_cases runCommand)
        as [(E & _) | (w' & _ & _ & _ & _ & _ & Hno)]; [|contradiction].
      rewrite E, app_nil_r.
      destruct (map _ _) as [|w ws] eqn:Em; [reflexivity|]. exfalso.
      assert (Hin : In w (w :: ws)) by (left; reflexivity).
      rewrite <- Em in Hin. apply missingCommandWarnings_In in Hin.
      destruct Hin as (cmd & Hreq & Hno & _). apply Hno, Hall, Hreq.
  - intros later result. cbn [callsFrom collectCompatibilityWarnings].
    intros [<- | Hin]; [reflexivity|].
    revert Hin. generalize (collectCompatibilityWarningsInner runCommand).
    intros first. induction later as [|rc later IH]; [intros []|].
    cbn [callsFrom collectCompatibilityWarnings].
    intros [<- | Hin]; [reflexivity | exact (IH Hin)].
Qed.

End CompatibilityFacts.

(* ================================================================== *)
(** * Properties of workspace discovery and the repo-drift collector *)
(* ================================================================== *)

Section WorkspaceFacts.

Import BoardSnapshot Status Workspaces.

Local Abbreviation absentFrom set :=
  (fun x : string => negb (existsb (String.eqb x) set)).

Lemma existsb_eqb_In (v : string) (set : list string) :
  existsb (String.eqb v) set = true <-> In v set.
Proof.
  rewrite existsb_exists. split.
  - intros (x & Hx & E). apply String.eqb_eq in E. subst x. exact Hx.
  - intros H. exists v. split; [exact H | apply String.eqb_refl].
Qed.

Lemma setAdd_In (set : list string) (v x : string) :
  In x (setAdd set v) <-> In x set \/ x = v.
Proof.
  unfold setAdd. destruct (existsb (String.eqb v) set) eqn:E.
  - apply existsb_eqb_In in E. split; [tauto|]. intros [H | ->]; assumption.
  - rewrite in_app_iff. cbn [In]. intuition congruence.
Qed.

Lemma setAdd_NoDup (set : list string) (v : string) :
  NoDup set -> NoDup (setAdd set v).
Proof.
  intros Hnd. unfold setAdd. destruct (existsb (String.eqb v) set) eqn:E;
    [exact Hnd|].
  apply NoDup_app; [exact Hnd | repeat constructor; intros [] |].
  intros x Hx [<- | []].
  apply existsb_eqb_In in Hx. congruence.
Qed.

Lemma fold_setAdd_In (l set : list string) (x : string) :
  In x (fold_left setAdd l set) <-> In x set \/ In x l.
Proof.
  revert set. induction l as [|v l IH]; intros set; cbn [fold_left In].
  - tauto.
  - rewrite IH, setAdd_In. intuition congruence.
Qed.

Lemma fold_setAdd_NoDup (l set : list string) :
  NoDup set -> NoDup (fold_left setAdd l set).
Proof.
  revert set. induction l as [|v l IH]; intros set Hnd; cbn [fold_left].
  - exact Hnd.
  - apply IH, setAdd_NoDup, Hnd.
Qed.

(** Adding distinct values to a set appends the ones it does not hold. *)
Lemma fold_setAdd_distinct (l set : list string) :
  NoDup l ->
  fold_left setAdd l set = set ++ filter (absentFrom set) l.
Proof.
  revert set. induction l as [|v l IH]; intros set Hnd; cbn [fold_left filter].
  - rewrite app_nil_r. reflexivity.
  - inversion Hnd as [|v' l' Hv Hl]; subst. rewrite (IH _ Hl).
    unfold setAdd. destruct (existsb (String.eqb v) set) eqn:E; cbn [negb].
    + reflexivity.
    + rewrite <- app_assoc. cbn [app]. do 2 f_equal.
      apply filter_ext_in. intros x Hx. rewrite existsb_app. cbn [existsb].
      destruct (String.eqb x v) eqn:Exv.
      * apply String.eqb_eq in Exv. subst x. contradiction.
      * rewrite !Bool.orb_false_r. reflexivity.
Qed.

Lemma uniqueValues_NoDup (values : list string) : NoDup (uniqueValues values).
Proof. apply fold_setAdd_NoDup. constructor. Qed.

Lemma nonEmpty_spec (v : string) : nonEmpty v = true <-> v <> "".
Proof.
  destruct v; cbn; split; intros H; try reflexivity; try discriminate.
  exfalso. apply H. reflexivity.
Qed.

Lemma uniqueValues_In (values : list string) (v : string) :
  In v (uniqueValues values) <-> In v values /\ v <> "".
Proof.
  unfold uniqueValues. rewrite fold_setAdd_In, filter_In, nonEmpty_spec.
  cbn [In]. tauto.
Qed.

Lemma filter_all {A : Type} (f : A -> bool) (l : list A) :
  (forall x, In x l -> f x = true) -> filter f l = l.
Proof.
  induction l as [|a l IH]; intros H; cbn [filter]; [reflexivity|].
  rewrite (H a (or_introl eq_refl)), IH; [reflexivity|].
  intros x Hx. apply H. right. exact Hx.
Qed.

Lemma uniqueValues_distinct (values : list string) :
  NoDup values -> ~ In "" values -> uniqueValues values = values.
Proof.
  intros Hnd Hne. unfold uniqueValues.
  assert (E : filter nonEmpty values = values).
  { apply filter_all. intros x Hx. apply nonEmpty_spec. intros ->.
    contradiction. }
  rewrite E, (fold_setAdd_distinct values [] Hnd). cbn [app].
  apply filter_all. reflexivity.
Qed.

Lemma uniqueValues_no_empty (values : list string) :
  ~ In "" (uniqueValues values).
Proof. intros H. apply uniqueValues_In in H. destruct H as [_ H]. congruence. Qed.

Lemma uniqueValues_app (a b : list string) :
  uniqueValues (a ++ b)
  = uniqueValues a ++ filter (absentFrom (uniqueValues a)) (uniqueValues b).
Proof.
  unfold uniqueValues at 1. rewrite filter_app, fold_left_app.
  fold (uniqueValues a).
  assert (Hgen : forall l set,
            fold_left setAdd l set
            = set ++ filter (absentFrom set) (fold_left setAdd l [])).
  { intros l. induction l as [|v l IH] using rev_ind; intros set.
    - cbn. rewrite app_nil_r. reflexivity.
    - rewrite !fold_left_app. cbn [fold_left].
      rewrite (IH set). unfold setAdd at 1 3.
      set (inner := fold_left setAdd l []).
      rewrite existsb_app.
      destruct (existsb (String.eqb v) set) eqn:Eset; cbn [orb].
      + destruct (existsb (String.eqb v) inner) eqn:Ein; [reflexivity|].
        rewrite filter_app. cbn [filter]. rewrite Eset. cbn [negb].
        rewrite app_nil_r. reflexivity.
      + destruct (existsb (String.eqb v) inner) eqn:Ein.
        * replace (existsb (String.eqb v) (filter (absentFrom set) inner))
            with true; [reflexivity|].
          symmetry. apply existsb_eqb_In. apply filter_In.
          split; [apply existsb_eqb_In; exact Ein | rewrite Eset; reflexivity].
        * replace (existsb (String.eqb v) (filter (absentFrom set) inner))
            with false.
          -- rewrite filter_app. cbn [filter]. rewrite Eset. cbn [negb].
             rewrite app_assoc. reflexivity.
          -- symmetry. destruct (existsb _ (filter _ inner)) eqn:E;
               [|reflexivity].
             apply existsb_eqb_In, filter_In in E. destruct E as [E _].
             apply existsb_eqb_In in E. congruence. }
  apply Hgen.
Qed.

(** X28. [uniqueValues] keeps each non-empty value once, in the order of
    first occurrence: the result has no duplicate and no empty string, it
    holds exactly the non-empty values of the input, a list that is
    already free of duplicates and empty strings is returned unchanged
    (so the function is idempotent), and the values of a first list come
    before the values only a second list has. *)
Theorem uniqueValues_spec (values more : list string) :
  NoDup (uniqueValues values) /\
  (forall v, In v (uniqueValues values) <-> In v values /\ v <> "") /\
  (NoDup values -> ~ In "" values -> uniqueValues values = values) /\
  uniqueValues (uniqueValues values) = uniqueValues values /\
  uniqueValues (values ++ more)
  = uniqueValues values
    ++ filter (fun x => negb (existsb (String.eqb x) (uniqueValues values)))
              (uniqueValues more).
Proof.
  split; [apply uniqueValues_NoDup|].
  split; [apply uniqueValues_In|].
  split; [apply uniqueValues_distinct|].
  split; [|apply uniqueValues_app].
  apply uniqueValues_distinct;
    [apply uniqueValues_NoDup | apply uniqueValues_no_empty].
Qed.

Lemma workspacePathsFromStatus_In (status : Metric StatusSource.t) (p : string) :
  In p (workspacePathsFromStatus status) <-> p <> "" /\ statusNames status p.
Proof.
  unfold workspacePathsFromStatus, statusNames.
  rewrite uniqueValues_In, filter_In, in_map_iff, nonEmpty_spec.
  destruct (Agents.statusAgents status) as [agents|]; cbn [nullish]; split.
  - intros [[(agent & E & Hin) _] Hne]. split; [exact Hne|].
    exists agents, agent. repeat split; try assumption.
    destruct (StatusSource.workspaceDir agent) as [d|]; cbn [nullish] in E;
      congruence.
  - intros (Hne & l & agent & El & Hin & Ed). injection El as <-.
    repeat split; try assumption. exists agent. rewrite Ed. tauto.
  - intros [[(agent & _ & []) _] _].
  - intros (_ & l & agent & El & _). discriminate.
Qed.

Lemma workspacePathsFromConfig_In (cfg : Metric OpenClawConfig.t) (p : string) :
  In p (workspacePathsFromConfig cfg) <-> p <> "" /\ configNames cfg p.
Proof.
  unfold workspacePathsFromConfig, configNames.
  rewrite uniqueValues_In, filter_In, in_map_iff, nonEmpty_spec.
  destruct (Agents.configAgents cfg) as [agents|]; cbn [nullish]; split.
  - intros [[(agent & E & Hin) _] Hne]. split; [exact Hne|].
    exists agents, agent. repeat split; assumption.
  - intros (Hne & l & agent & El & Hin & Ed). injection El as <-.
    repeat split; try assumption. exists agent. tauto.
  - intros [[(agent & _ & []) _] _].
  - intros (_ & l & agent & El & _). discriminate.
Qed.

Lemma map_length_zero {A B : Type} (f : A -> B) (l : list A) :
  (List.length (map f l) =? 0)%nat = match l with [] => true | _ => false end.
Proof. destruct l; reflexivity. Qed.

(** X29. The repo-drift collector. The paths it inspects are the distinct
    non-empty paths that a status-source agent names as [workspaceDir] or
    a config agent names as [workspaceDir] (else [workspace]), those of
    the status source first. With no such path the card has no workspace,
    its five metrics are unknown with one reason (the status source's,
    else the config's, else a fixed text), the only warning is
    [repo_workspaces_missing] with that reason, and a board showing the
    card is not GREEN. Otherwise each discovered path is resolved and
    inspected once, in order, and the warnings are the diagnostics of the
    inspected workspaces, in order. *)
Theorem collectRepoDriftCard_behaviour
    (configMetric : Metric OpenClawConfig.t) (resolve : string -> string)
    (inspectWorkspace : string -> RepoWorkspaceDrift.t)
    (statusSourceMetric : Metric StatusSource.t) :
  NoDup (discovered statusSourceMetric configMetric) /\
  (forall p, In p (discovered statusSourceMetric configMetric) <->
             p <> "" /\
             (statusNames statusSourceMetric p \/ configNames configMetric p)) /\
  discovered statusSourceMetric configMetric
  = workspacePathsFromStatus statusSourceMetric
    ++ filter (fun p => negb (existsb (String.eqb p)
                                (workspacePathsFromStatus statusSourceMetric)))
              (workspacePathsFromConfig configMetric) /\
  (discovered statusSourceMetric configMetric = [] ->
   exists why,
     why = match reason statusSourceMetric with
           | Some r => r
           | None => nullish (reason configMetric)
                             "no OpenClaw workspaces discovered"
           end /\
     collectRepoDriftCard configMetric resolve inspectWorkspace
       statusSourceMetric
     = {| CollectorOutput.card :=
            {| RepoDriftCard.aheadCount := unknownMetric why;
               RepoDriftCard.behindCount := unknownMetric why;
               RepoDriftCard.clean := unknownMetric why;
               RepoDriftCard.dirtyCount := unknownMetric why;
               RepoDriftCard.repositoryCount := unknownMetric why;
               RepoDriftCard.workspaces := [] |};
          CollectorOutput.warnings :=
            [ buildWarning "repoDrift" "repo_workspaces_missing" why
                sev_warn None ] |} /\
     forall s : withoutOverall,
       repoDrift s
       = CollectorOutput.card
           (collectRepoDriftCard configMetric resolve inspectWorkspace
              statusSourceMetric) ->
       OverallCard.level (deriveOverallCard s) <> GREEN) /\
  (discovered statusSourceMetric configMetric <> [] ->
   RepoDriftCard.workspaces
     (CollectorOutput.card
        (collectRepoDriftCard configMetric resolve inspectWorkspace
           statusSourceMetric))
   = map (fun p => inspectWorkspace (resolve p))
         (discovered statusSourceMetric configMetric) /\
   CollectorOutput.warnings
     (collectRepoDriftCard configMetric resolve inspectWorkspace
        statusSourceMetric)
   = flat_map (fun p => nullish (RepoWorkspaceDrift.diagnostics
                                   (inspectWorkspace (resolve p))) [])
              (discovered statusSourceMetric configMetric) /\
   RepoDriftCard.repositoryCount
     (CollectorOutput.card
        (collectRepoDriftCard configMetric resolve inspectWorkspace
           statusSourceMetric))
   = knownMetric
       (Z.of_nat
          (List.length
             (filter (fun p => known (RepoWorkspaceDrift.repositoryRoot
                                        (inspectWorkspace (resolve p))))
                     (discovered statusSourceMetric configMetric))))).
Proof.
  split; [apply uniqueValues_NoDup|].
  split.
  { intros p. unfold discovered.
    rewrite uniqueValues_In, in_app_iff, workspacePathsFromStatus_In,
      workspacePathsFromConfig_In. tauto. }
  split.
  { unfold discovered. rewrite uniqueValues_app.
    rewrite !(uniqueValues_distinct (workspacePathsFromStatus statusSourceMetric));
      try apply uniqueValues_NoDup; try apply uniqueValues_no_empty.
    rewrite (uniqueValues_distinct (workspacePathsFromConfig configMetric));
      [reflexivity | apply uniqueValues_NoDup | apply uniqueValues_no_empty]. }
  unfold collectRepoDriftCard. fold (discovered statusSourceMetric configMetric).
  rewrite map_length_zero.
  destruct (discovered statusSourceMetric configMetric) as [|p ps] eqn:Ed.
  - split; [|intros H; exfalso; apply H; reflexivity].
    intros _. eexists. split; [reflexivity|].
    split; [reflexivity|].
    intros s Hs Hgreen. apply green_only_if in Hgreen.
    destruct Hgreen as (_ & _ & Hno). apply Hno.
    unfold watchListUnknown, isUnknown. do 5 right. left.
    rewrite Hs. reflexivity.
  - split; [discriminate|]. intros _.
    unfold RepoDrift.aggregateRepoDrift.
    cbn [map List.length Nat.eqb CollectorOutput.card CollectorOutput.warnings
         RepoDriftCard.workspaces RepoDriftCard.repositoryCount].
    split; [rewrite map_map; reflexivity|].
    split.
    + cbn [flat_map]. f_equal.
      rewrite !flat_map_concat_map, !map_map. reflexivity.
    + do 2 f_equal.
      change (inspectWorkspace (resolve p) :: map inspectWorkspace (map resolve ps))
        with (map inspectWorkspace (map resolve (p :: ps))).
      rewrite map_map.
      generalize (p :: ps). intros l. induction l as [|a l IH]; [reflexivity|].
      cbn [map filter].
      destruct (known (RepoWorkspaceDrift.repositoryRoot
                         (inspectWorkspace (resolve a))));
        cbn [List.length]; rewrite IH; reflexivity.
Qed.

End WorkspaceFacts.

(* ================================================================== *)
(** * Properties of the assembled snapshot *)
(* ================================================================== *)

Section SnapshotFacts.

Import BoardSnapshot Status Dedup Snapshot.

Lemma unknown_reason_listed (s : withoutOverall) :
  watchListUnknown s ->
  OverallCard.level (deriveOverallCard s) = AMBER ->
  In "unknown state in critical cards"
     (OverallCard.reasons (deriveOverallCard s)).
Proof.
  rewrite <- criticalUnknown_watchList.
  unfold deriveOverallCard, redReasons, amberReasons. intros ->.
  destruct (metricGreaterThan (SecurityCard.critical (security s)) 0),
           (metricGreaterThan (CronCard.failingOrRecentErrorCount (cron s)) 0),
           (metricEqualsBoolean (GatewayCard.reachable (gateway s)) false);
    cbn [filter nonEmpty String.length Nat.ltb Nat.leb List.length
         OverallCard.reasons OverallCard.level];
    try discriminate.
  destruct (metricGreaterThan (SecurityCard.warning (security s)) 0),
           (metricEqualsBoolean (RepoDriftCard.clean (repoDrift s)) false),
           (metricGreaterThan (RepoDriftCard.behindCount (repoDrift s)) 0);
    cbn [filter nonEmpty String.length Nat.ltb Nat.leb List.length
         OverallCard.reasons OverallCard.level In];
    intros _; tauto.
Qed.

(** X30. The assembled snapshot. Its warnings have pairwise distinct keys;
    each of them was emitted by the compatibility check or a collector,
    and every emitted warning is represented by a warning of the same
    key. When the status source delivered no payload, the verdict is not
    GREEN, it never blames the gateway as unreachable, and an AMBER
    verdict names the unknown state. A GREEN verdict means that the
    status source delivered a payload reporting the gateway reachable,
    that the gateway collector emitted no warning, that at least one
    workspace path was discovered and that the installed version is
    known. *)
Theorem collectBoardSnapshot_behaviour
    (env : Environment) (options : SnapshotOptions)
    (promise : option (list BoardWarning.t)) :
  NoDup (map warningKey
           (warnings (partialSnapshot
                        (fst (collectBoardSnapshot env options promise))))) /\
  (forall w,
     In w (warnings (partialSnapshot
                       (fst (collectBoardSnapshot env options promise)))) ->
     In w (collectedWarnings env options promise)) /\
  (forall w,
     In w (collectedWarnings env options promise) ->
     exists w',
       In w' (warnings (partialSnapshot
                          (fst (collectBoardSnapshot env options promise)))) /\
       warningKey w' = warningKey w) /\
  (~ Gateway.delivered (statusSourceAnswer env) ->
   OverallCard.level (overall (fst (collectBoardSnapshot env options promise)))
     <> GREEN /\
   ~ In "gateway unreachable"
        (OverallCard.reasons
           (overall (fst (collectBoardSnapshot env options promise)))) /\
   (OverallCard.level (overall (fst (collectBoardSnapshot env options promise)))
      = AMBER ->
    In "unknown state in critical cards"
       (OverallCard.reasons
          (overall (fst (collectBoardSnapshot env options promise)))))) /\
  (OverallCard.level (overall (fst (collectBoardSnapshot env options promise)))
     = GREEN ->
   (exists payload,
      Gateway.delivered (statusSourceAnswer env) /\
      value (statusSourceAnswer env) = Some payload /\
      Gateway.reachableOf payload = Some (Some true)) /\
   CollectorOutput.warnings (Gateway.collectGatewayCard (statusSourceAnswer env))
     = [] /\
   Workspaces.discovered (statusSourceAnswer env) (repoConfigAnswer env) <> [] /\
   known (installedVersionAnswer env) = true).
Proof.
  set (s := partialSnapshot (fst (collectBoardSnapshot env options promise))).
  change (overall (fst (collectBoardSnapshot env options promise)))
    with (deriveOverallCard s).
  assert (Hw : warnings s = uniqueWarnings (collectedWarnings env options promise))
    by reflexivity.
  assert (Hg : gateway s
               = CollectorOutput.card
                   (Gateway.collectGatewayCard (statusSourceAnswer env)))
    by reflexivity.
  assert (Hr : repoDrift s
               = CollectorOutput.card
                   (Workspaces.collectRepoDriftCard (repoConfigAnswer env)
                      (resolveAnswer env) (inspectAnswer env)
                      (statusSourceAnswer env)))
    by reflexivity.
  assert (Hv : versionDrift s
               = CollectorOutput.card
                   (VersionDriftCollector.versionDriftCardFrom
                      (installedVersionAnswer env) (statusSourceAnswer env)
                      (stateLatestAnswer env)))
    by reflexivity.
  clearbody s.
  split; [|split; [|split; [|split]]].
  - rewrite Hw, uniqueWarnings_keptFrom. apply keptFrom_keys_NoDup.
  - intros w. rewrite Hw, uniqueWarnings_keptFrom. intros Hin.
    apply keptFrom_sound in Hin. tauto.
  - intros w Hin. rewrite Hw, uniqueWarnings_keptFrom.
    destruct (keptFrom_complete _ [] w Hin) as [[] | H]. exact H.
  - intros Hno.
    assert (Hun : known (GatewayCard.reachable (gateway s)) = false).
    { rewrite Hg.
      destruct (collectGatewayCard_cases (statusSourceAnswer env))
        as [(payload & b & Hd & _) | (why & _ & -> & _)];
        [contradiction | reflexivity]. }
    assert (Hwatch : watchListUnknown s).
    { unfold watchListUnknown, isUnknown. tauto. }
    split; [|split].
    + intros Hgreen. apply green_only_if in Hgreen. tauto.
    + intros Hin. apply (proj2 (proj2 (red_reason_listed s))) in Hin.
      destruct Hin as [Hk _]. congruence.
    + apply unknown_reason_listed. exact Hwatch.
  - intros Hgreen. apply green_only_if in Hgreen.
    destruct Hgreen as (Hred & _ & Hwatch).
    unfold watchListUnknown, isUnknown in Hwatch.
    unfold redCondition in Hred.
    split; [|split; [|split]].
    + destruct (collectGatewayCard_cases (statusSourceAnswer env))
        as [(payload & b & Hd & Hval & Hreach & Hcard & _)
           | (why & _ & Hcard & _)].
      * destruct b; [exists payload; auto|]. exfalso. apply Hred.
        right. right. rewrite Hg, Hcard. split; reflexivity.
      * exfalso. apply Hwatch. do 4 right. left. rewrite Hg, Hcard.
        reflexivity.
    + destruct (collectGatewayCard_cases (statusSourceAnswer env))
        as [(payload & b & _ & _ & _ & Hcard & Hws) | (why & _ & Hcard & _)].
      * destruct b; [exact Hws|]. exfalso. apply Hred.
        right. right. rewrite Hg, Hcard. split; reflexivity.
      * exfalso. apply Hwatch. do 4 right. left. rewrite Hg, Hcard.
        reflexivity.
    + intros Hnone. apply Hwatch. do 5 right. left. rewrite Hr.
      unfold Workspaces.collectRepoDriftCard.
      fold (Workspaces.discovered (statusSourceAnswer env) (repoConfigAnswer env)).
      rewrite Hnone. reflexivity.
    + destruct (known (installedVersionAnswer env)) eqn:Hk; [reflexivity|].
      exfalso. apply Hwatch. do 7 right. left. rewrite Hv.
      unfold VersionDriftCollector.versionDriftCardFrom.
      cbn [CollectorOutput.card VersionDriftCard.installedVersion].
      rewrite normalizeVersionMetric_known. exact Hk.
Qed.

End SnapshotFacts.
